(** * DL1EventSource: a shallow embedding of [ctapipe/io/dl1eventsource.py]

    The reader turns a DL1 HDF5 file into a sequence of assembled events.
    The file is modelled as a record of the nodes the source touches, the
    generator [_generate_events] as a function returning the events it yields
    together with the way it stops, and every Python exception as a value of
    [exn] carried by the [result] monad.

    Stored quantities are kept as integers, which the source only copies.
    Time stamps are doubles; the model keeps the integer-valued ones, and a
    difference of two of them is rounded as the machine rounds it ([fl64]). *)

From stdpp Require Import gmap strings list fin_maps pretty sorting.
From Stdlib Require Import ZArith Ascii.
From Stdlib.Strings Require Import Byte.

Open Scope Z_scope.

#[global] Instance byte_eq_decision : EqDecision byte := Byte.byte_eq_dec.

(** ** Exceptions and the error monad *)

Inductive key : Type :=
| StrKey (s : string)
| IntKey (z : Z).

Inductive exn : Type :=
| KeyError (k : key)             (* dict / attribute-set subscript *)
| TypeError                      (* [x in None]; [column - t] with [t] no number *)
| NoSuchNodeError (name : string)(* attribute access to a missing child of a group *)
| ValueError                     (* [np.argmin] of an empty array *)
| IndexError (k : key)           (* [group[name]] without that child; [table[i]] out of range *)
| HDF5ExtError                   (* [tables.open_file] on what is no HDF5 file *)
| RuntimeError.                  (* StopIteration leaving a generator body *)

Inductive result (A : Type) : Type :=
| Ok (a : A)
| Raise (e : exn).
Arguments Ok {A} a.
Arguments Raise {A} e.

#[global] Instance result_ret : MRet result := fun A a => Ok a.
#[global] Instance result_bind : MBind result := fun A B k m =>
  match m with
  | Ok a => k a
  | Raise e => Raise e
  end.

Definition raises {A} (r : result A) : Prop := ∃ e, r = Raise e.

(** ** ctapipe's [Map]: a [defaultdict] keyed by telescope id

    Every per-telescope field of the event container ([trigger.tel],
    [pointing.tel], [dl1.tel]) is a [Map(SomeContainer)].  The source never
    inserts a key explicitly: it subscripts the map ([data.dl1.tel[tel]]) and
    relies on the missing key being created with a default container.
    Insertion order is the iteration order of [keys()]. *)

Module TelMap.
Definition t (V : Type) : Type := list (nat * V).

Definition clear {V} (m : t V) : t V := [].

Definition keys {V} (m : t V) : list nat := m.*1.

Fixpoint get {V} (k : nat) (m : t V) : option V :=
  match m with
  | [] => None
  | (k', v) :: m' => if decide (k = k') then Some v else get k m'
  end.

(** [m[k]] followed by an in-place update [f] of the container found or
    created there. *)
Fixpoint setdefault_with {V} (default : V) (k : nat) (f : V → V) (m : t V) : t V :=
  match m with
  | [] => [(k, f default)]
  | (k', v) :: m' =>
      if decide (k = k') then (k', f v) :: m'
      else (k', v) :: setdefault_with default k f m'
  end.

(** [m[k]] alone: the key is created when missing. *)
Definition touch {V} (default : V) (k : nat) (m : t V) : t V :=
  setdefault_with default k id m.
End TelMap.

(** ** numpy helpers *)

Fixpoint argmin_from (best_i : nat) (best : Z) (i : nat) (l : list Z) : nat :=
  match l with
  | [] => best_i
  | x :: l' =>
      if x <? best then argmin_from i x (S i) l'
      else argmin_from best_i best (S i) l'
  end.

(** [np.argmin]: index of the first occurrence of the minimum; raises on an
    empty array. *)
Definition argmin (l : list Z) : result nat :=
  match l with
  | [] => Raise ValueError
  | x :: l' => Ok (argmin_from 0 x 1 l')
  end.

(** [np.where(mask)[0] + 1]: bit position + 1 is the telescope id. *)
Fixpoint where_plus_1_from (i : nat) (mask : list bool) : list nat :=
  match mask with
  | [] => []
  | b :: mask' =>
      if b then (i + 1)%nat :: where_plus_1_from (S i) mask'
      else where_plus_1_from (S i) mask'
  end.
Definition where_plus_1 (mask : list bool) : list nat := where_plus_1_from 0 mask.

(** [f"tel_{tel:03d}"] *)
Definition zfill3 (s : string) : string :=
  match String.length s with
  | 0%nat => "000" +:+ s
  | 1%nat => "00" +:+ s
  | 2%nat => "0" +:+ s
  | _ => s
  end.
Definition tel_name (tel : nat) : string := "tel_" +:+ zfill3 (pretty tel).

(** ** The file

    Rows are the columns the source reads.  Optional sub-trees are [option]s;
    the nodes the source opens unconditionally are plain fields. *)

Record TriggerRow := {                (* /dl1/event/subarray/trigger *)
  tr_time : Z;
  tr_tels_with_trigger : list bool;
  tr_obs_id : Z;
  tr_event_id : Z;
}.

Record TelTriggerRow := {             (* /dl1/event/telescope/trigger *)
  tt_obs_id : Z;
  tt_event_id : Z;
  tt_tel_id : nat;
  tt_telescopetrigger_time : Z;
}.

Record ImageRow := {                  (* /dl1/event/telescope/images/tel_NNN *)
  ir_image : list Z;
  ir_peak_time : list Z;
  ir_image_mask : list bool;
}.

(** A parameters row decodes into seven sub-containers, [params[0..6]]. *)
Record ParamRow := {
  pr_hillas : Z;
  pr_timing : Z;
  pr_leakage : Z;
  pr_concentration : Z;
  pr_morphology : Z;
  pr_intensity_statistics : Z;
  pr_peak_time_statistics : Z;
}.

Record ArrayPointingRow := {          (* /dl1/monitoring/subarray/pointing *)
  ap_time : Z;
  ap_array_azimuth : Z;
  ap_array_altitude : Z;
  ap_array_ra : Z;
  ap_array_dec : Z;
}.

Record TelPointingRow := {            (* /dl1/monitoring/telescope/pointing/tel_NNN *)
  tp_telescopetrigger_time : Z;
  tp_azimuth : Z;
  tp_altitude : Z;
}.

Record RunRow := {                    (* /configuration/simulation/run *)
  run_obs_id : Z;
  run_header : Z;                     (* the decoded MCHeaderContainer *)
}.

Record SimulationGroup := {           (* /simulation *)
  shower : list Z;                    (* event/subarray/shower, one MCEventContainer per row *)
  (* [event/telescope], when present, with the names of the tables of its
     [images] group, when that is present *)
  sim_telescope : option (option (list string));
}.

Record File := {
  content : list byte;
  hdf5 : bool;                                        (* [tables.open_file] succeeds *)
  root_attrs : gmap string string;                    (* root._v_attrs *)
  configuration_simulation_run : option (list RunRow);
  simulation : option SimulationGroup;
  images : option (gmap string (list ImageRow));      (* dl1.event.telescope.images *)
  parameters : option (gmap string (list ParamRow));  (* dl1.event.telescope.parameters *)
  subarray_trigger : list TriggerRow;
  telescope_trigger : list TelTriggerRow;
  subarray_pointing : list ArrayPointingRow;
  telescope_pointing : gmap string (list TelPointingRow);
}.

(** [root._v_attrs] of the opened file; what cannot be opened has none.
    Only [is_compatible] ever meets such a file: the event source opens its
    file when it is constructed, so every method below runs on a file that
    opens. *)
Definition attrs (f : File) : gmap string string :=
  if hdf5 f then root_attrs f else ∅.

(** [group.name]: natural-naming access to a child of a group. *)
Definition get_node {A} (name : string) (node : option A) : result A :=
  match node with
  | Some a => Ok a
  | None => Raise (NoSuchNodeError name)
  end.

(** [group[name]]: [Group.__getitem__] turns the missing child into an
    IndexError. *)
Definition group_getitem {A} (name : string) (node : option A) : result A :=
  match node with
  | Some a => Ok a
  | None => Raise (IndexError (StrKey name))
  end.

(** Subscript of an attribute set or dict by a key. *)
Definition getitem {A} (k : string) (m : gmap string A) : result A :=
  match m !! k with
  | Some a => Ok a
  | None => Raise (KeyError (StrKey k))
  end.

(** Modelled from the spec: the row cursors.  [HDF5TableReader.read] and the
    table's own [iterrows] live outside this module; the spec gives them as
    forward-only cursors whose [next()] yields the record decoded from the
    next row in file order and fails on exhaustion.  A cursor is the list of
    rows still to come.  Exhaustion is a StopIteration, which every caller
    below lets escape from the generator body, where it surfaces as a
    RuntimeError.  A reader decodes each row into the containers it was
    given and hands those same objects over every time; the two places
    where the source holds on to them across a later [next], the run-header
    registry and the trigger container, model that sharing themselves. *)
Definition next {A} (cursor : list A) : result (A * list A) :=
  match cursor with
  | row :: cursor' => Ok (row, cursor')
  | [] => Raise RuntimeError
  end.

(** [table[i]] *)
Definition table_row {A} (i : nat) (table : list A) : result A :=
  match table !! i with
  | Some row => Ok row
  | None => Raise (IndexError (IntKey (Z.of_nat i)))
  end.

(** ** [is_compatible] *)

Definition hdf5_signature : list byte := [x89; x48; x44; x46; x0d; x0a; x1a; x0a].

Definition is_compatible (f : File) : result bool :=
  let magic_number := take 8 (content f) in
  if bool_decide (magic_number ≠ hdf5_signature) then Ok false
  else if negb (hdf5 f) then Raise HDF5ExtError
  else
    let metadata := attrs f in
    if bool_decide ("CTA PRODUCT DESCRIPTION" ∉ dom metadata) then Ok false
    else
      description ← getitem "CTA PRODUCT DESCRIPTION" metadata;
      if bool_decide (description ≠ "DL1 Data Product") then Ok false
      else
        version ← getitem "CTA PRODUCT DATA MODEL VERSION" metadata;
        if bool_decide (version ≠ "v1.0.0") then Ok false
        else Ok true.

(** ** Schema prober *)

Inductive DataLevel := DL1_IMAGES | DL1_PARAMETERS.
#[global] Instance DataLevel_eq_dec : EqDecision DataLevel.
Proof. solve_decision. Defined.

Definition is_simulation (f : File) : bool := bool_decide (is_Some (simulation f)).

Definition has_simulated_dl1 (f : File) : bool :=
  match simulation f with
  | Some sim => bool_decide (is_Some (sim_telescope sim))
  | None => false
  end.

(** The property falls off its last [elif] and so returns [None] when
    neither group exists. *)
Definition datalevels (f : File) : option (list DataLevel) :=
  let params := bool_decide (is_Some (parameters f)) in
  let images := bool_decide (is_Some (images f)) in
  if params && images then Some [DL1_IMAGES; DL1_PARAMETERS]
  else if params then Some [DL1_PARAMETERS]
  else if images then Some [DL1_IMAGES]
  else None.

(** [level in self.datalevels] *)
Definition level_in (level : DataLevel) (levels : option (list DataLevel)) : result bool :=
  match levels with
  | Some ls => Ok (bool_decide (level ∈ ls))
  | None => Raise TypeError
  end.

(** [__len__] *)
Definition len (f : File) : nat := length (subarray_trigger f).

(** ** Run-header registry: [_parse_mc_headers]

    The raw row iterator and the header reader walk the same table in step,
    so a [RunRow] carries both the raw [obs_id] and the header that
    [next(reader)] decodes at that row.  The reader decodes every row into
    the one [MCHeaderContainer] it was given and yields that same object each
    time, so the dict binds every [obs_id] to one shared container.  The loop
    state is the dict of bindings together with the content of the container;
    looking an entry up afterwards reads the content the last row left. *)

Definition read_run_table (rows : list RunRow) : gmap Z () * option Z :=
  foldl (λ '(mc_headers, _) row,
           (<[run_obs_id row := ()]> mc_headers, Some (run_header row)))
        (∅, None) rows.

Definition _parse_mc_headers (f : File) : gmap Z Z :=
  match configuration_simulation_run f with
  | Some rows =>
      let '(mc_headers, container) := read_run_table rows in
      match container with
      | Some header => (λ _, header) <$> mc_headers
      | None => ∅
      end
  | None => ∅
  end.

(** ** Event containers *)

Record TelescopeTriggerContainer := { time : option Z }.
Record TelescopePointingContainer := { azimuth : option Z; altitude : option Z }.
Record DL1CameraContainer := {
  image : option (list Z);
  peak_time : option (list Z);
  image_mask : option (list bool);
  dl1_parameters : option ParamRow;
}.

Definition default_trigger : TelescopeTriggerContainer := {| time := None |}.
Definition default_pointing : TelescopePointingContainer :=
  {| azimuth := None; altitude := None |}.
Definition default_dl1 : DL1CameraContainer :=
  {| image := None; peak_time := None; image_mask := None; dl1_parameters := None |}.

(** [EventAndMonDataContainer], with the nested containers flattened:
    [trigger_tel] is [data.trigger.tel], [dl1_tel] is [data.dl1.tel], and so
    on. *)
Record EventAndMonDataContainer := {
  meta_origin : string;
  count : nat;
  trigger_time : Z;
  trigger_tels_with_trigger : list nat;
  trigger_tel : TelMap.t TelescopeTriggerContainer;
  index_obs_id : Z;
  index_event_id : Z;
  pointing_array_azimuth : option Z;
  pointing_array_altitude : option Z;
  pointing_array_ra : option Z;
  pointing_array_dec : option Z;
  pointing_tel : TelMap.t TelescopePointingContainer;
  dl1_tel : TelMap.t DL1CameraContainer;
  mc : option Z;
  mcheader : option Z;
}.

Definition new_data (origin : string) : EventAndMonDataContainer :=
  {| meta_origin := origin; count := 0;
     trigger_time := 0; trigger_tels_with_trigger := []; trigger_tel := [];
     index_obs_id := 0; index_event_id := 0;
     pointing_array_azimuth := None; pointing_array_altitude := None;
     pointing_array_ra := None; pointing_array_dec := None;
     pointing_tel := []; dl1_tel := []; mc := None; mcheader := None |}.

Definition set_trigger_tel (g : TelMap.t TelescopeTriggerContainer → TelMap.t TelescopeTriggerContainer)
    (d : EventAndMonDataContainer) : EventAndMonDataContainer :=
  {| meta_origin := meta_origin d; count := count d;
     trigger_time := trigger_time d;
     trigger_tels_with_trigger := trigger_tels_with_trigger d;
     trigger_tel := g (trigger_tel d);
     index_obs_id := index_obs_id d; index_event_id := index_event_id d;
     pointing_array_azimuth := pointing_array_azimuth d;
     pointing_array_altitude := pointing_array_altitude d;
     pointing_array_ra := pointing_array_ra d;
     pointing_array_dec := pointing_array_dec d;
     pointing_tel := pointing_tel d; dl1_tel := dl1_tel d;
     mc := mc d; mcheader := mcheader d |}.

Definition set_pointing_array (row : ArrayPointingRow)
    (d : EventAndMonDataContainer) : EventAndMonDataContainer :=
  {| meta_origin := meta_origin d; count := count d;
     trigger_time := trigger_time d;
     trigger_tels_with_trigger := trigger_tels_with_trigger d;
     trigger_tel := trigger_tel d;
     index_obs_id := index_obs_id d; index_event_id := index_event_id d;
     pointing_array_azimuth := Some (ap_array_azimuth row);
     pointing_array_altitude := Some (ap_array_altitude row);
     pointing_array_ra := Some (ap_array_ra row);
     pointing_array_dec := Some (ap_array_dec row);
     pointing_tel := pointing_tel d; dl1_tel := dl1_tel d;
     mc := mc d; mcheader := mcheader d |}.

Definition set_pointing_tel (g : TelMap.t TelescopePointingContainer → TelMap.t TelescopePointingContainer)
    (d : EventAndMonDataContainer) : EventAndMonDataContainer :=
  {| meta_origin := meta_origin d; count := count d;
     trigger_time := trigger_time d;
     trigger_tels_with_trigger := trigger_tels_with_trigger d;
     trigger_tel := trigger_tel d;
     index_obs_id := index_obs_id d; index_event_id := index_event_id d;
     pointing_array_azimuth := pointing_array_azimuth d;
     pointing_array_altitude := pointing_array_altitude d;
     pointing_array_ra := pointing_array_ra d;
     pointing_array_dec := pointing_array_dec d;
     pointing_tel := g (pointing_tel d); dl1_tel := dl1_tel d;
     mc := mc d; mcheader := mcheader d |}.

Definition set_dl1_tel (g : TelMap.t DL1CameraContainer → TelMap.t DL1CameraContainer)
    (d : EventAndMonDataContainer) : EventAndMonDataContainer :=
  {| meta_origin := meta_origin d; count := count d;
     trigger_time := trigger_time d;
     trigger_tels_with_trigger := trigger_tels_with_trigger d;
     trigger_tel := trigger_tel d;
     index_obs_id := index_obs_id d; index_event_id := index_event_id d;
     pointing_array_azimuth := pointing_array_azimuth d;
     pointing_array_altitude := pointing_array_altitude d;
     pointing_array_ra := pointing_array_ra d;
     pointing_array_dec := pointing_array_dec d;
     pointing_tel := pointing_tel d; dl1_tel := g (dl1_tel d);
     mc := mc d; mcheader := mcheader d |}.

Definition set_mc (shower_row header : Z)
    (d : EventAndMonDataContainer) : EventAndMonDataContainer :=
  {| meta_origin := meta_origin d; count := count d;
     trigger_time := trigger_time d;
     trigger_tels_with_trigger := trigger_tels_with_trigger d;
     trigger_tel := trigger_tel d;
     index_obs_id := index_obs_id d; index_event_id := index_event_id d;
     pointing_array_azimuth := pointing_array_azimuth d;
     pointing_array_altitude := pointing_array_altitude d;
     pointing_array_ra := pointing_array_ra d;
     pointing_array_dec := pointing_array_dec d;
     pointing_tel := pointing_tel d; dl1_tel := dl1_tel d;
     mc := Some shower_row; mcheader := Some header |}.

(** ** Pointing: [_fill_array_pointing] and [_fill_telescope_pointing] *)

(** Rounding of an integer to the nearest double, ties to even: exact below
    [2^53], the 53 leading bits beyond.  A magnitude that rounds past the
    largest double becomes an infinity, kept here as [2^1024], the first
    integer above every double. *)
Definition fl64 (z : Z) : Z :=
  let m := Z.abs z in
  if m <? 2 ^ 53 then z
  else
    let k := Z.log2 m - 52 in
    let q := Z.shiftr m k in
    let r := Z.land m (Z.ones k) in
    let half := Z.shiftl 1 (k - 1) in
    let q := if (half <? r) || ((r =? half) && Z.odd q) then q + 1 else q in
    let v := Z.shiftl q k in
    Z.sgn z * (if v <? 2 ^ 1024 then v else 2 ^ 1024).

(** [column - t] on a float64 column *)
Definition minus_scalar (column : list Z) (t : Z) : list Z :=
  (λ x, fl64 (x - t)) <$> column.

Definition _fill_array_pointing (f : File) (data : EventAndMonDataContainer)
    : result EventAndMonDataContainer :=
  closest_time ← argmin (minus_scalar (ap_time <$> subarray_pointing f) (trigger_time data));
  array_pointing ← table_row closest_time (subarray_pointing f);
  Ok (set_pointing_array array_pointing data).

(** [self.allowed_tels and tel not in self.allowed_tels]: an empty (or
    unset) allow-list is falsy and filters nothing. *)
Definition excluded (allowed_tels : gset nat) (tel : nat) : bool :=
  bool_decide (allowed_tels ≠ ∅) && bool_decide (tel ∉ allowed_tels).

(** [column - data.trigger.tel[tel].time]; a time that was never set is the
    container's default, an astropy [Time], which no array can be subtracted
    from. *)
Definition minus_trigger_tel_time (column : list Z)
    (data : EventAndMonDataContainer) (tel : nat) : result (list Z) :=
  match TelMap.get tel (trigger_tel data) ≫= time with
  | Some t => Ok (minus_scalar column t)
  | None => Raise TypeError
  end.

Definition fill_one_telescope_pointing (f : File) (tel : nat)
    (data : EventAndMonDataContainer) : result EventAndMonDataContainer :=
  tel_pointing_table ← group_getitem (tel_name tel) (telescope_pointing f !! tel_name tel);
  differences ← minus_trigger_tel_time
                  (tp_telescopetrigger_time <$> tel_pointing_table) data tel;
  closest_time ← argmin differences;
  pointing_array ← table_row closest_time tel_pointing_table;
  Ok (set_pointing_tel
        (TelMap.setdefault_with default_pointing tel
           (λ _, {| azimuth := Some (tp_azimuth pointing_array);
                    altitude := Some (tp_altitude pointing_array) |}))
        data).

Fixpoint fill_telescope_pointing_loop (f : File) (allowed_tels : gset nat)
    (tels : list nat) (data : EventAndMonDataContainer)
    : result EventAndMonDataContainer :=
  match tels with
  | [] => Ok data
  | tel :: tels' =>
      if excluded allowed_tels tel
      then fill_telescope_pointing_loop f allowed_tels tels' data
      else
        data' ← fill_one_telescope_pointing f tel data;
        fill_telescope_pointing_loop f allowed_tels tels' data'
  end.

Definition _fill_telescope_pointing (f : File) (allowed_tels : gset nat)
    (data : EventAndMonDataContainer) : result EventAndMonDataContainer :=
  fill_telescope_pointing_loop f allowed_tels (TelMap.keys (trigger_tel data)) data.

(** ** The generator state: the scratch event and the open cursors *)

Inductive LogRecord :=
| MissingFromImageTable (tel : nat)
| MissingFromParametersTable (tel : nat).

Record State := {
  data : EventAndMonDataContainer;
  image_iterators : gmap string (list ImageRow);
  param_readers : gmap string (list ParamRow);
  mc_shower_reader : list Z;
  log : list LogRecord;
}.

Definition with_data (d : EventAndMonDataContainer) (st : State) : State :=
  {| data := d; image_iterators := image_iterators st;
     param_readers := param_readers st;
     mc_shower_reader := mc_shower_reader st; log := log st |}.

Definition debug (msg : LogRecord) (st : State) : State :=
  {| data := data st; image_iterators := image_iterators st;
     param_readers := param_readers st;
     mc_shower_reader := mc_shower_reader st; log := log st ++ [msg] |}.

(** The comprehension over [simulation.event.telescope.images] subscripts
    that group at once; the matching parameter readers are generators that
    are never started, so they touch nothing. *)
Definition true_image_iterators (f : File) : result (list string) :=
  match simulation f with
  | Some sim =>
      match sim_telescope sim with
      | Some images => get_node "images" images
      | None => Ok []
      end
  | None => Ok []
  end.

(** Everything [_generate_events] does before its loop. *)
Definition setup (f : File) : result State :=
  origin ← getitem "CTA PROCESS TYPE" (attrs f);
  has_images ← level_in DL1_IMAGES (datalevels f);
  image_its ← (if has_images : bool then
                 tables ← get_node "images" (images f);
                 _ ← (if has_simulated_dl1 f then true_image_iterators f else Ok []);
                 Ok tables
               else Ok ∅);
  has_parameters ← level_in DL1_PARAMETERS (datalevels f);
  param_rds ← (if has_parameters : bool then get_node "parameters" (parameters f)
               else Ok ∅);
  Ok {| data := new_data origin;
        image_iterators := image_its;
        param_readers := param_rds;
        mc_shower_reader := match simulation f with
                            | Some sim => shower sim
                            | None => []
                            end;
        log := [] |}.

(** ** The loop body, in source order *)

(** The four [clear()] calls, [data.count = counter] and
    [data.trigger, data.index = next(events)].  The trigger container that
    [next(events)] hands over is the reader's own: its [tel] map is empty on
    the first event and is the map just cleared on every later one. *)
Definition begin_event (counter : nat) (row : TriggerRow)
    (d : EventAndMonDataContainer) : EventAndMonDataContainer :=
  {| meta_origin := meta_origin d; count := counter;
     trigger_time := tr_time row;
     trigger_tels_with_trigger := where_plus_1 (tr_tels_with_trigger row);
     trigger_tel := TelMap.clear (trigger_tel d);
     index_obs_id := tr_obs_id row; index_event_id := tr_event_id row;
     pointing_array_azimuth := pointing_array_azimuth d;
     pointing_array_altitude := pointing_array_altitude d;
     pointing_array_ra := pointing_array_ra d;
     pointing_array_dec := pointing_array_dec d;
     pointing_tel := TelMap.clear (pointing_tel d);
     dl1_tel := TelMap.clear (dl1_tel d);
     mc := mc d; mcheader := mcheader d |}.

(** [telescope.trigger.where("(obs_id==..) & (event_id==..)")] *)
Definition where_event (obs_id event_id : Z) (rows : list TelTriggerRow)
    : list TelTriggerRow :=
  filter (λ i, tt_obs_id i = obs_id ∧ tt_event_id i = event_id) rows.

Definition fill_telescope_trigger (f : File) (allowed_tels : gset nat)
    (d : EventAndMonDataContainer) : EventAndMonDataContainer :=
  foldl (λ d i,
           if excluded allowed_tels (tt_tel_id i) then d
           else set_trigger_tel
                  (TelMap.setdefault_with default_trigger (tt_tel_id i)
                     (λ _, {| time := Some (tt_telescopetrigger_time i) |})) d)
        d (where_event (index_obs_id d) (index_event_id d) (telescope_trigger f)).

Definition fill_simulation (f : File) (mc_headers : gmap Z Z) (st : State) : result State :=
  if is_simulation f then
    '(shower_row, reader') ← next (mc_shower_reader st);
    match mc_headers !! index_obs_id (data st) with
    | Some header =>
        Ok {| data := set_mc shower_row header (data st);
              image_iterators := image_iterators st;
              param_readers := param_readers st;
              mc_shower_reader := reader'; log := log st |}
    | None => Raise (KeyError (IntKey (index_obs_id (data st))))
    end
  else Ok st.

(** [next(image_iterators[name])] and the three assignments into [dl1]. *)
Definition read_image (tel : nat) (st : State) : result State :=
  cursor ← getitem (tel_name tel) (image_iterators st);
  '(image_row, cursor') ← next cursor;
  Ok {| data := set_dl1_tel
                  (TelMap.setdefault_with default_dl1 tel
                     (λ dl1, {| image := Some (ir_image image_row);
                                peak_time := Some (ir_peak_time image_row);
                                image_mask := Some (ir_image_mask image_row);
                                dl1_parameters := dl1_parameters dl1 |}))
                  (data st);
        image_iterators := <[tel_name tel := cursor']> (image_iterators st);
        param_readers := param_readers st;
        mc_shower_reader := mc_shower_reader st; log := log st |}.

(** [next(param_readers[name])] and the seven assignments into
    [dl1.parameters]. *)
Definition read_parameters (tel : nat) (st : State) : result State :=
  cursor ← getitem (tel_name tel) (param_readers st);
  '(params, cursor') ← next cursor;
  Ok {| data := set_dl1_tel
                  (TelMap.setdefault_with default_dl1 tel
                     (λ dl1, {| image := image dl1; peak_time := peak_time dl1;
                                image_mask := image_mask dl1;
                                dl1_parameters := Some params |}))
                  (data st);
        image_iterators := image_iterators st;
        param_readers := <[tel_name tel := cursor']> (param_readers st);
        mc_shower_reader := mc_shower_reader st; log := log st |}.

(** One turn of [for tel in data.trigger.tel.keys()], past the allow-list
    test.  Each early [Ok] is one of the source's [continue]s. *)
Definition fill_dl1_tel (f : File) (tel : nat) (st : State) : result State :=
  let st := with_data (set_dl1_tel (TelMap.touch default_dl1 tel) (data st)) st in
  has_images ← level_in DL1_IMAGES (datalevels f);
  if has_images && bool_decide (tel_name tel ∉ dom (image_iterators st))
  then Ok (debug (MissingFromImageTable tel) st)
  else
    st ← (if has_images : bool then read_image tel st else Ok st);
    has_parameters ← level_in DL1_PARAMETERS (datalevels f);
    if has_parameters && bool_decide (tel_name tel ∉ dom (param_readers st))
    then Ok (debug (MissingFromParametersTable tel) st)
    else if has_parameters : bool then read_parameters tel st else Ok st.

Fixpoint fill_dl1_loop (f : File) (allowed_tels : gset nat)
    (tels : list nat) (st : State) : result State :=
  match tels with
  | [] => Ok st
  | tel :: tels' =>
      if excluded allowed_tels tel then fill_dl1_loop f allowed_tels tels' st
      else
        st' ← fill_dl1_tel f tel st;
        fill_dl1_loop f allowed_tels tels' st'
  end.

Definition fill_dl1 (f : File) (allowed_tels : gset nat) (st : State) : result State :=
  fill_dl1_loop f allowed_tels (TelMap.keys (trigger_tel (data st))) st.

(** The whole loop body for the trigger row handed over by [next(events)]. *)
Definition event_body (f : File) (allowed_tels : gset nat) (mc_headers : gmap Z Z)
    (counter : nat) (row : TriggerRow) (st : State) : result State :=
  let d := begin_event counter row (data st) in
  let d := fill_telescope_trigger f allowed_tels d in
  d ← _fill_array_pointing f d;
  d ← _fill_telescope_pointing f allowed_tels d;
  st ← fill_simulation f mc_headers (with_data d st);
  fill_dl1 f allowed_tels st.

(** ** Where an exception leaves the state

    Nothing is undone when a step raises: the rows drawn stay drawn, the
    diagnostics logged stay logged and the assignments made to the scratch
    event stay made.  A step that is a single subscript, [next] or [argmin]
    followed by assignments raises before it has changed anything; for the
    steps made of several such stages the functions below give the state the
    step leaves behind, on return as on raise. *)

(** [data.mc = next(mc_shower_reader)], without the header assignment that
    follows it. *)
Definition set_mc_shower (shower_row : Z)
    (d : EventAndMonDataContainer) : EventAndMonDataContainer :=
  {| meta_origin := meta_origin d; count := count d;
     trigger_time := trigger_time d;
     trigger_tels_with_trigger := trigger_tels_with_trigger d;
     trigger_tel := trigger_tel d;
     index_obs_id := index_obs_id d; index_event_id := index_event_id d;
     pointing_array_azimuth := pointing_array_azimuth d;
     pointing_array_altitude := pointing_array_altitude d;
     pointing_array_ra := pointing_array_ra d;
     pointing_array_dec := pointing_array_dec d;
     pointing_tel := pointing_tel d; dl1_tel := dl1_tel d;
     mc := Some shower_row; mcheader := mcheader d |}.

Fixpoint fill_telescope_pointing_loop_leaves (f : File) (allowed_tels : gset nat)
    (tels : list nat) (data : EventAndMonDataContainer) : EventAndMonDataContainer :=
  match tels with
  | [] => data
  | tel :: tels' =>
      if excluded allowed_tels tel
      then fill_telescope_pointing_loop_leaves f allowed_tels tels' data
      else
        match fill_one_telescope_pointing f tel data with
        | Ok data' => fill_telescope_pointing_loop_leaves f allowed_tels tels' data'
        | Raise _ => data
        end
  end.

Definition fill_simulation_leaves (f : File) (mc_headers : gmap Z Z) (st : State) : State :=
  if is_simulation f then
    match next (mc_shower_reader st) with
    | Ok (shower_row, reader') =>
        {| data := match mc_headers !! index_obs_id (data st) with
                   | Some header => set_mc shower_row header (data st)
                   | None => set_mc_shower shower_row (data st)
                   end;
           image_iterators := image_iterators st;
           param_readers := param_readers st;
           mc_shower_reader := reader'; log := log st |}
    | Raise _ => st
    end
  else st.

Definition fill_dl1_tel_leaves (f : File) (tel : nat) (st : State) : State :=
  let st := with_data (set_dl1_tel (TelMap.touch default_dl1 tel) (data st)) st in
  match level_in DL1_IMAGES (datalevels f) with
  | Raise _ => st
  | Ok has_images =>
      if has_images && bool_decide (tel_name tel ∉ dom (image_iterators st))
      then debug (MissingFromImageTable tel) st
      else
        match (if has_images : bool then read_image tel st else Ok st) with
        | Raise _ => st
        | Ok st =>
            match level_in DL1_PARAMETERS (datalevels f) with
            | Raise _ => st
            | Ok has_parameters =>
                if has_parameters && bool_decide (tel_name tel ∉ dom (param_readers st))
                then debug (MissingFromParametersTable tel) st
                else if has_parameters : bool then
                  match read_parameters tel st with
                  | Ok st' => st'
                  | Raise _ => st
                  end
                else st
            end
        end
  end.

Fixpoint fill_dl1_loop_leaves (f : File) (allowed_tels : gset nat)
    (tels : list nat) (st : State) : State :=
  match tels with
  | [] => st
  | tel :: tels' =>
      if excluded allowed_tels tel then fill_dl1_loop_leaves f allowed_tels tels' st
      else
        match fill_dl1_tel f tel st with
        | Ok st' => fill_dl1_loop_leaves f allowed_tels tels' st'
        | Raise _ => fill_dl1_tel_leaves f tel st
        end
  end.

Definition event_body_leaves (f : File) (allowed_tels : gset nat) (mc_headers : gmap Z Z)
    (counter : nat) (row : TriggerRow) (st : State) : State :=
  let d := begin_event counter row (data st) in
  let d := fill_telescope_trigger f allowed_tels d in
  match _fill_array_pointing f d with
  | Raise _ => with_data d st
  | Ok d =>
      let d' := fill_telescope_pointing_loop_leaves f allowed_tels
                  (TelMap.keys (trigger_tel d)) d in
      match _fill_telescope_pointing f allowed_tels d with
      | Raise _ => with_data d' st
      | Ok d =>
          let st' := fill_simulation_leaves f mc_headers (with_data d st) in
          match fill_simulation f mc_headers (with_data d st) with
          | Raise _ => st'
          | Ok st =>
              fill_dl1_loop_leaves f allowed_tels (TelMap.keys (trigger_tel (data st))) st
          end
      end
  end.

(** The loop header's own [next(events)].  The reader decodes the row into
    the containers it was given; from the second pass on these are
    [data.trigger] and [data.index], bound at line 258 of the pass before.
    The bitmap arrives as a boolean array, kept here by its integer values. *)
Definition header_draw (counter : nat) (array_event : TriggerRow)
    (d : EventAndMonDataContainer) : EventAndMonDataContainer :=
  match counter with
  | O => d
  | S _ =>
      {| meta_origin := meta_origin d; count := count d;
         trigger_time := tr_time array_event;
         trigger_tels_with_trigger :=
           (λ b : bool, if b then 1%nat else 0%nat) <$> tr_tels_with_trigger array_event;
         trigger_tel := trigger_tel d;
         index_obs_id := tr_obs_id array_event;
         index_event_id := tr_event_id array_event;
         pointing_array_azimuth := pointing_array_azimuth d;
         pointing_array_altitude := pointing_array_altitude d;
         pointing_array_ra := pointing_array_ra d;
         pointing_array_dec := pointing_array_dec d;
         pointing_tel := pointing_tel d; dl1_tel := dl1_tel d;
         mc := mc d; mcheader := mcheader d |}
  end.

(** The four [clear()] calls and [data.count = counter], which come before
    the body's [next(events)]. *)
Definition clear_maps (counter : nat)
    (d : EventAndMonDataContainer) : EventAndMonDataContainer :=
  {| meta_origin := meta_origin d; count := counter;
     trigger_time := trigger_time d;
     trigger_tels_with_trigger := trigger_tels_with_trigger d;
     trigger_tel := TelMap.clear (trigger_tel d);
     index_obs_id := index_obs_id d; index_event_id := index_event_id d;
     pointing_array_azimuth := pointing_array_azimuth d;
     pointing_array_altitude := pointing_array_altitude d;
     pointing_array_ra := pointing_array_ra d;
     pointing_array_dec := pointing_array_dec d;
     pointing_tel := TelMap.clear (pointing_tel d);
     dl1_tel := TelMap.clear (dl1_tel d);
     mc := mc d; mcheader := mcheader d |}.

(** ** The generator

    A run is the list of events yielded (each a snapshot of the scratch
    container at its [yield]), the state the loop was left in, and how it
    stopped: by exhaustion of the trigger cursor or by an exception.  A run
    stopped by an exception is left in the state reached at the raise. *)

Inductive stopped := Exhausted | Raised (e : exn).

Record Run := {
  yielded : list EventAndMonDataContainer;
  final : State;
  stop : stopped;
}.

(** [for counter, array_event in enumerate(events)]: the loop header draws a
    row from [events] and binds it to [array_event], which the body never
    reads; the body then draws its own row with [next(events)].  When the
    header took the last row, that [next] has nothing left, and the
    StopIteration it raises leaves the generator as a RuntimeError. *)
Fixpoint events_loop (f : File) (allowed_tels : gset nat) (mc_headers : gmap Z Z)
    (counter : nat) (events : list TriggerRow) (st : State) : Run :=
  match events with
  | [] => {| yielded := []; final := st; stop := Exhausted |}
  | array_event :: events' =>
      match events' with
      | [] =>
          {| yielded := [];
             final := with_data (clear_maps counter
                                   (header_draw counter array_event (data st))) st;
             stop := Raised RuntimeError |}
      | row :: events'' =>
          match event_body f allowed_tels mc_headers counter row st with
          | Raise e =>
              {| yielded := [];
                 final := event_body_leaves f allowed_tels mc_headers counter row st;
                 stop := Raised e |}
          | Ok st' =>
              let rest := events_loop f allowed_tels mc_headers (S counter) events'' st' in
              {| yielded := data st' :: yielded rest;
                 final := final rest; stop := stop rest |}
          end
      end
  end.

Definition _generate_events (f : File) (allowed_tels : gset nat) : result Run :=
  st ← setup f;
  Ok (events_loop f allowed_tels (_parse_mc_headers f) 0 (subarray_trigger f) st).

(** ** Vocabulary of the statements *)

(** The part of the event fixed by the trigger row and the trigger-time scan. *)
Definition header (d : EventAndMonDataContainer) :=
  (count d, trigger_time d, trigger_tels_with_trigger d, trigger_tel d,
   index_obs_id d, index_event_id d).

(** The scratch event as it stands after the trigger-time scan. *)
Definition triggered (f : File) (a : gset nat) (counter : nat) (row : TriggerRow)
    (st : State) : EventAndMonDataContainer :=
  fill_telescope_trigger f a (begin_event counter row (data st)).

(** The rows that reach the loop body: every second row of the table. *)
Fixpoint body_rows {A} (events : list A) : list A :=
  match events with
  | _ :: row :: events' => row :: body_rows events'
  | _ => []
  end.

(** What one turn of the per-telescope loop may change: the entry of its own
    telescope in [dl1.tel], the position (never the set) of the cursors, and
    the log. *)
Definition dl1_turn (tel : nat) (st st' : State) : Prop :=
  header (data st') = header (data st) ∧
  pointing_tel (data st') = pointing_tel (data st) ∧
  mcheader (data st') = mcheader (data st) ∧
  mc_shower_reader st' = mc_shower_reader st ∧
  dom (image_iterators st') = dom (image_iterators st) ∧
  dom (param_readers st') = dom (param_readers st) ∧
  ∃ g, dl1_tel (data st') = TelMap.setdefault_with default_dl1 tel g (dl1_tel (data st)).

(** ** Sample files *)

Module Sample.
Definition image_row (n : Z) : ImageRow :=
  {| ir_image := [n; n + 1]; ir_peak_time := [n + 2; n + 3]; ir_image_mask := [true; false] |}.

Definition param_row (n : Z) : ParamRow :=
  {| pr_hillas := n; pr_timing := n + 1; pr_leakage := n + 2;
     pr_concentration := n + 3; pr_morphology := n + 4;
     pr_intensity_statistics := n + 5; pr_peak_time_statistics := n + 6 |}.

(** Four array events of observation 1, ten time units apart. *)
Definition trigger_row (mask : list bool) (event_id : Z) : TriggerRow :=
  {| tr_time := 10 * event_id + 1; tr_tels_with_trigger := mask;
     tr_obs_id := 1; tr_event_id := event_id |}.
Definition trigger_rows (mask : list bool) : list TriggerRow :=
  trigger_row mask <$> [1; 2; 3; 4].

(** Telescopes 1 and 2 both have a trigger time in every event. *)
Definition tel_trigger_rows : list TelTriggerRow :=
  event_id ← [1; 2; 3; 4];
  [ {| tt_obs_id := 1; tt_event_id := event_id; tt_tel_id := 1;
       tt_telescopetrigger_time := 10 * event_id + 1 |};
    {| tt_obs_id := 1; tt_event_id := event_id; tt_tel_id := 2;
       tt_telescopetrigger_time := 10 * event_id + 2 |} ].

Definition array_pointing_rows : list ArrayPointingRow :=
  (λ t, {| ap_time := t; ap_array_azimuth := 10 * t; ap_array_altitude := 10 * t + 1;
           ap_array_ra := 10 * t + 2; ap_array_dec := 10 * t + 3 |}) <$> [10; 20; 30].

Definition tel_pointing_rows : list TelPointingRow :=
  (λ t, {| tp_telescopetrigger_time := t; tp_azimuth := 10 * t;
           tp_altitude := 10 * t + 1 |}) <$> [10; 20; 30].

Definition images_tel_001 : gmap string (list ImageRow) :=
  {[ "tel_001"%string := image_row <$> [1; 2; 3; 4] ]}.

Definition parameters_both : gmap string (list ParamRow) :=
  {[ "tel_001"%string := param_row <$> [1; 2; 3; 4];
     "tel_002"%string := param_row <$> [5; 6; 7; 8] ]}.

Definition pointing_both : gmap string (list TelPointingRow) :=
  {[ "tel_001"%string := tel_pointing_rows; "tel_002"%string := tel_pointing_rows ]}.

Definition full_attrs : gmap string string :=
  {[ "CTA PROCESS TYPE"%string := "Simulation"%string;
     "CTA PRODUCT DESCRIPTION"%string := "DL1 Data Product"%string;
     "CTA PRODUCT DATA MODEL VERSION"%string := "v1.0.0"%string ]}.

Definition make (metadata : gmap string string) (run_rows : list RunRow)
    (image_tables : option (gmap string (list ImageRow)))
    (parameter_tables : option (gmap string (list ParamRow)))
    (mask : list bool)
    (pointing_tables : gmap string (list TelPointingRow)) : File :=
  {| content := hdf5_signature ++ [x00; x00];
     hdf5 := true;
     root_attrs := metadata;
     configuration_simulation_run := Some run_rows;
     simulation := Some {| shower := [101; 102; 103; 104]; sim_telescope := None |};
     images := image_tables;
     parameters := parameter_tables;
     subarray_trigger := trigger_rows mask;
     telescope_trigger := tel_trigger_rows;
     subarray_pointing := array_pointing_rows;
     telescope_pointing := pointing_tables |}.

Definition one_run : list RunRow := [ {| run_obs_id := 1; run_header := 7 |} ].

(** A simulation file with both data levels; telescope 2 triggers in every
    event and has a parameters table but no image table. *)
Definition base : File :=
  make full_attrs one_run (Some images_tel_001) (Some parameters_both)
       [true; true] pointing_both.

(** The same file without the data-model-version attribute. *)
Definition no_version : File :=
  make (delete "CTA PRODUCT DATA MODEL VERSION"%string full_attrs) one_run
       (Some images_tel_001) (Some parameters_both) [true; true] pointing_both.

(** The same file with neither an images nor a parameters group. *)
Definition no_levels : File :=
  make full_attrs one_run None None [true; true] pointing_both.

(** The same file whose run table describes another observation. *)
Definition unbound : File :=
  make full_attrs [ {| run_obs_id := 2; run_header := 7 |} ]
       (Some images_tel_001) (Some parameters_both) [true; true] pointing_both.

(** The same file whose trigger bitmaps name telescope 1 only, while the
    telescope-trigger table still lists telescope 2. *)
Definition stray : File :=
  make full_attrs one_run (Some images_tel_001) (Some parameters_both)
       [true; false] pointing_both.

(** The same file without a monitoring pointing table for telescope 2. *)
Definition no_pointing_node : File :=
  make full_attrs one_run (Some images_tel_001) (Some parameters_both)
       [true; true] (delete "tel_002"%string pointing_both).
End Sample.

(** ** [obs_ids] *)

(** [np.unique]: the sorted distinct elements of an array. *)
Fixpoint insert_unique (x : Z) (l : list Z) : list Z :=
  match l with
  | [] => [x]
  | y :: l' =>
      if x <? y then x :: l
      else if x =? y then l
      else y :: insert_unique x l'
  end.
Definition np_unique (l : list Z) : list Z := foldr insert_unique [] l.

Definition obs_ids (f : File) : list Z := np_unique (tr_obs_id <$> subarray_trigger f).

(** The fields of the event that only set-up and the simulation step write. *)
Definition origin_mc (d : EventAndMonDataContainer) :=
  (meta_origin d, mc d, mcheader d).

(** The array pointing of the event. *)
Definition array_pointing (d : EventAndMonDataContainer) :=
  (pointing_array_azimuth d, pointing_array_altitude d,
   pointing_array_ra d, pointing_array_dec d).


(** The exceptions that can leave the generator loop. *)
Definition loop_error (e : exn) : Prop :=
  match e with
  | RuntimeError | ValueError | IndexError (StrKey _) | KeyError (IntKey _) => True
  | TypeError | NoSuchNodeError _ | IndexError (IntKey _) | KeyError (StrKey _)
  | HDF5ExtError => False
  end.

(** A cursor that has moved by one row at most. *)
Definition moved_at_most_one {R} (cursor cursor' : option (list R)) : Prop :=
  cursor' = cursor ∨ ∃ r rest, cursor = Some (r :: rest) ∧ cursor' = Some rest.

(** A cursor map after at most one [next], on the cursor of [name]. *)
Definition drawn_at {R} (name : string) (m m' : gmap string (list R)) : Prop :=
  m' = m ∨ ∃ r rest, m !! name = Some (r :: rest) ∧ m' = <[name := rest]> m.

(** Every difference [x - t] of the column is a double as it stands. *)
Definition exact_differences (column : list Z) (t : Z) : Prop :=
  Forall (λ x, Z.abs (x - t) < 2 ^ 53) column.

(** A diagnostic is justified when the table it reports as missing is
    missing from the group of its data level. *)
Definition justified (f : File) (msg : LogRecord) : Prop :=
  match msg with
  | MissingFromImageTable tel =>
      ∃ tables, images f = Some tables ∧ tel_name tel ∉ dom tables
  | MissingFromParametersTable tel =>
      ∃ tables, parameters f = Some tables ∧ tel_name tel ∉ dom tables
  end.

(** ** More sample files *)

Module Sample2.
(** The first sample file with an empty array-monitoring pointing table. *)
Definition no_array_pointing : File :=
  {| content := content Sample.base; hdf5 := hdf5 Sample.base;
     root_attrs := root_attrs Sample.base;
     configuration_simulation_run := configuration_simulation_run Sample.base;
     simulation := simulation Sample.base;
     images := images Sample.base; parameters := parameters Sample.base;
     subarray_trigger := subarray_trigger Sample.base;
     telescope_trigger := telescope_trigger Sample.base;
     subarray_pointing := [];
     telescope_pointing := telescope_pointing Sample.base |}.

(** The first sample file as an observed-data file: no simulation group and
    no run table. *)
Definition observed : File :=
  {| content := content Sample.base; hdf5 := hdf5 Sample.base;
     root_attrs := root_attrs Sample.base;
     configuration_simulation_run := None;
     simulation := None;
     images := images Sample.base; parameters := parameters Sample.base;
     subarray_trigger := subarray_trigger Sample.base;
     telescope_trigger := telescope_trigger Sample.base;
     subarray_pointing := subarray_pointing Sample.base;
     telescope_pointing := telescope_pointing Sample.base |}.

(** The first sample file cut down to its first two bytes. *)
Definition truncated : File :=
  {| content := take 2 (content Sample.base); hdf5 := hdf5 Sample.base;
     root_attrs := root_attrs Sample.base;
     configuration_simulation_run := configuration_simulation_run Sample.base;
     simulation := simulation Sample.base;
     images := images Sample.base; parameters := parameters Sample.base;
     subarray_trigger := subarray_trigger Sample.base;
     telescope_trigger := telescope_trigger Sample.base;
     subarray_pointing := subarray_pointing Sample.base;
     telescope_pointing := telescope_pointing Sample.base |}.

(** A file of two merged runs: the run table has a header for observation 1
    and another for observation 2; the events are those of observation 1. *)
Definition merged : File :=
  Sample.make Sample.full_attrs
    [ {| run_obs_id := 1; run_header := 7 |}; {| run_obs_id := 2; run_header := 8 |} ]
    (Some Sample.images_tel_001) (Some Sample.parameters_both)
    [true; true] Sample.pointing_both.

(** A file with neither an images nor a parameters group and without the
    process-type attribute. *)
Definition no_levels_no_origin : File :=
  Sample.make (delete "CTA PROCESS TYPE"%string Sample.full_attrs) Sample.one_run
    None None [true; true] Sample.pointing_both.

(** A file without a monitoring pointing table for telescope 2 and with an
    empty array-monitoring pointing table. *)
Definition no_pointing_at_all : File :=
  {| content := content Sample.base; hdf5 := hdf5 Sample.base;
     root_attrs := root_attrs Sample.base;
     configuration_simulation_run := configuration_simulation_run Sample.base;
     simulation := simulation Sample.base;
     images := images Sample.base; parameters := parameters Sample.base;
     subarray_trigger := subarray_trigger Sample.base;
     telescope_trigger := telescope_trigger Sample.base;
     subarray_pointing := [];
     telescope_pointing := telescope_pointing Sample.no_pointing_node |}.

(** Eight bytes of signature and nothing PyTables can open behind them. *)
Definition signature_only : File :=
  {| content := hdf5_signature; hdf5 := false;
     root_attrs := ∅;
     configuration_simulation_run := None;
     simulation := None;
     images := None; parameters := None;
     subarray_trigger := [];
     telescope_trigger := [];
     subarray_pointing := [];
     telescope_pointing := ∅ |}.

(** The first sample file cut down to three trigger rows. *)
Definition three_rows : File :=
  {| content := content Sample.base; hdf5 := hdf5 Sample.base;
     root_attrs := root_attrs Sample.base;
     configuration_simulation_run := configuration_simulation_run Sample.base;
     simulation := simulation Sample.base;
     images := images Sample.base; parameters := parameters Sample.base;
     subarray_trigger := take 3 (subarray_trigger Sample.base);
     telescope_trigger := telescope_trigger Sample.base;
     subarray_pointing := subarray_pointing Sample.base;
     telescope_pointing := telescope_pointing Sample.base |}.
End Sample2.

(** * Properties *)

(** ** The [Map] operations *)

Section TelMap_facts.
Context {V : Type}.
Implicit Types (m : TelMap.t V) (k : nat) (f g : V → V).

Lemma keys_setdefault_with default k f m :
  TelMap.keys (TelMap.setdefault_with default k f m) =
  if bool_decide (k ∈ TelMap.keys m) then TelMap.keys m else TelMap.keys m ++ [k].
Proof.
  unfold TelMap.keys.
  induction m as [|[k' v] m IH].
  - case_bool_decide as Hk; [by apply elem_of_nil in Hk | done].
  - cbn [TelMap.setdefault_with]. destruct (decide (k = k')) as [->|Hne].
    + rewrite bool_decide_eq_true_2; [done | apply list_elem_of_here].
    + rewrite !fmap_cons, IH. cbn [fst].
      repeat case_bool_decide; try done.
      * exfalso. rewrite elem_of_cons in *. tauto.
      * exfalso. rewrite elem_of_cons in *. tauto.
Qed.

Lemma elem_of_keys_setdefault_with default k f m k' :
  k' ∈ TelMap.keys (TelMap.setdefault_with default k f m) ↔
  k' = k ∨ k' ∈ TelMap.keys m.
Proof.
  rewrite keys_setdefault_with. case_bool_decide as Hk.
  - split; [by right | by intros [->|?]].
  - rewrite elem_of_app, list_elem_of_singleton. tauto.
Qed.

Lemma setdefault_with_compose dflt k f g m :
  TelMap.setdefault_with dflt k g (TelMap.setdefault_with dflt k f m) =
  TelMap.setdefault_with dflt k (g ∘ f) m.
Proof.
  induction m as [|[k' v] m IH]; simpl.
  - by rewrite decide_True.
  - destruct (decide (k = k')) as [->|Hne]; simpl.
    + by rewrite decide_True.
    + by rewrite decide_False, IH.
Qed.

Lemma get_setdefault_with_ne dflt k k' f m :
  k ≠ k' → TelMap.get k' (TelMap.setdefault_with dflt k f m) = TelMap.get k' m.
Proof.
  intros Hne. induction m as [|[k0 v] m IH]; simpl.
  - by rewrite decide_False.
  - destruct (decide (k = k0)) as [->|Hne0]; simpl.
    + by rewrite !decide_False.
    + by rewrite IH.
Qed.

Lemma get_setdefault_with_eq dflt k f m :
  TelMap.get k (TelMap.setdefault_with dflt k f m) =
  Some (f (default dflt (TelMap.get k m))).
Proof.
  induction m as [|[k0 v] m IH]; simpl.
  - by rewrite decide_True.
  - destruct (decide (k = k0)) as [->|Hne0]; simpl.
    + by rewrite decide_True.
    + by rewrite decide_False.
Qed.

Lemma get_None_keys k m : TelMap.get k m = None ↔ k ∉ TelMap.keys m.
Proof.
  unfold TelMap.keys. induction m as [|[k0 v] m IH]; simpl.
  - split; [intros _; apply not_elem_of_nil | done].
  - rewrite not_elem_of_cons. destruct (decide (k = k0)) as [->|Hne0]; simpl.
    + split; [done | by intros []].
    + rewrite IH. tauto.
Qed.

Lemma NoDup_keys_setdefault_with dflt k f m :
  NoDup (TelMap.keys m) → NoDup (TelMap.keys (TelMap.setdefault_with dflt k f m)).
Proof.
  intros Hnd. rewrite keys_setdefault_with. case_bool_decide as Hk; [done|].
  apply NoDup_app. split_and!; [done | | apply NoDup_singleton].
  intros x Hx ->%list_elem_of_singleton. done.
Qed.
End TelMap_facts.
(** ** Results *)

Lemma bind_Ok {A B} (m : result A) (k : A → result B) (b : B) :
  m ≫= k = Ok b ↔ ∃ a, m = Ok a ∧ k a = Ok b.
Proof.
  destruct m as [a|e]; simpl; split.
  - eauto.
  - by intros (a' & [= <-] & ?).
  - done.
  - by intros (? & ? & ?).
Qed.

Lemma bind_raises {A B} (m : result A) (k : A → result B) :
  raises m → raises (m ≫= k).
Proof. intros [e ->]. by exists e. Qed.

Lemma bind_Raise {A B} (m : result A) (k : A → result B) e :
  m ≫= k = Raise e → m = Raise e ∨ ∃ x, m = Ok x ∧ k x = Raise e.
Proof. destruct m as [x|e']; simpl; intros H; [right; eauto | left; by injection H as ->]. Qed.

Ltac inv_Ok :=
  repeat match goal with
  | H : _ ≫= _ = Ok _ |- _ => apply bind_Ok in H as (? & ? & H)
  | H : Ok _ = Ok _ |- _ => injection H as H; subst
  | H : Raise _ = Ok _ |- _ => discriminate H
  | H : (let '(_, _) := ?p in _) = Ok _ |- _ => destruct p
  end.

(** ** [np.argmin] *)

Lemma fl64_exact z : Z.abs z < 2 ^ 53 → fl64 z = z.
Proof.
  intros Hz. unfold fl64. by destruct (Z.ltb_spec (Z.abs z) (2 ^ 53)); [|lia].
Qed.

Lemma minus_scalar_exact column t :
  exact_differences column t → minus_scalar column t = (λ x, x - t) <$> column.
Proof.
  unfold exact_differences, minus_scalar. induction 1 as [|x l Hx _ IH]; [done|].
  cbn [fmap list_fmap] in *. by rewrite IH, fl64_exact.
Qed.

Lemma argmin_from_shift t l : ∀ best_i best i,
  argmin_from best_i (best - t) i ((λ x, x - t) <$> l) = argmin_from best_i best i l.
Proof.
  induction l as [|x l IH]; intros best_i best i; [done|].
  cbn [fmap list_fmap argmin_from].
  replace (x - t <? best - t) with (x <? best).
  - destruct (x <? best); apply IH.
  - destruct (Z.ltb_spec x best), (Z.ltb_spec (x - t) (best - t)); lia.
Qed.

(** Where no difference is rounded, subtracting the trigger time from the
    column does not change which row [argmin] picks: the row picked is the
    one with the smallest time stamp. *)
Lemma argmin_minus_scalar column t :
  exact_differences column t → argmin (minus_scalar column t) = argmin column.
Proof.
  intros Hexact. rewrite minus_scalar_exact by done.
  destruct column as [|x l]; [done|].
  cbn [fmap list_fmap argmin]. f_equal. apply argmin_from_shift.
Qed.

(** Where the differences are rounded, it does: with time stamps 3 and 2 and
    a trigger time of [2^60], both differences round to [-2^60] and [argmin]
    answers the first row, whose time stamp is not the least. *)
Example argmin_minus_scalar_rounded :
  argmin (minus_scalar [3; 2] (2 ^ 60)) = Ok 0%nat ∧ argmin [3; 2] = Ok 1%nat.
Proof. by vm_compute. Qed.

Lemma argmin_from_lt best_i best i l :
  (best_i < i)%nat →
  (argmin_from best_i best i l < i + length l)%nat.
Proof.
  revert best_i best i. induction l as [|x l IH]; intros best_i best i Hlt; simpl; [lia|].
  destruct (x <? best).
  - specialize (IH i x (S i)). lia.
  - specialize (IH best_i best (S i)). lia.
Qed.

Lemma argmin_Ok l : l ≠ [] → ∃ i, argmin l = Ok i ∧ (i < length l)%nat.
Proof.
  destruct l as [|x l]; [done|]. intros _. eexists; split; [done|].
  pose proof (argmin_from_lt 0 x 1 l). simpl. lia.
Qed.

Lemma argmin_length l i : argmin l = Ok i → (i < length l)%nat.
Proof.
  destruct l as [|x l]; [done|]. intros [= <-].
  pose proof (argmin_from_lt 0 x 1 l). simpl. lia.
Qed.

Lemma argmin_from_spec l : ∀ (p : list Z) best_i best,
  p !! best_i = Some best →
  (∀ j y, p !! j = Some y → best ≤ y) →
  (∀ j y, (j < best_i)%nat → p !! j = Some y → best < y) →
  ∃ m, (p ++ l) !! argmin_from best_i best (length p) l = Some m ∧
       (∀ j y, (p ++ l) !! j = Some y → m ≤ y) ∧
       (∀ j y, (j < argmin_from best_i best (length p) l)%nat →
               (p ++ l) !! j = Some y → m < y).
Proof.
  induction l as [|x l IH]; intros p best_i best Hbest Hle Hlt.
  - simpl. rewrite app_nil_r. eauto.
  - cbn [argmin_from].
    assert (best_i < length p)%nat as Hin by (by eapply lookup_lt_Some).
    replace (p ++ x :: l) with ((p ++ [x]) ++ l) by (by rewrite <-app_assoc).
    replace (S (length p)) with (length (p ++ [x])) by (rewrite length_app; simpl; lia).
    destruct (Z.ltb_spec x best) as [Hx|Hx]; apply IH.
    + by rewrite lookup_app_r, Nat.sub_diag.
    + intros j y Hj. apply lookup_app_Some in Hj as [Hj|[_ Hj]].
      * specialize (Hle _ _ Hj). lia.
      * apply list_lookup_singleton_Some in Hj as [_ <-]. lia.
    + intros j y Hj Hy. rewrite lookup_app_l in Hy by done.
      specialize (Hle _ _ Hy). lia.
    + by rewrite lookup_app_l.
    + intros j y Hj. apply lookup_app_Some in Hj as [Hj|[_ Hj]].
      * by eapply Hle.
      * apply list_lookup_singleton_Some in Hj as [_ <-]. lia.
    + intros j y Hj Hy. rewrite lookup_app_l in Hy by lia. by eapply Hlt.
Qed.

(** [argmin] answers the first index that holds the least element. *)
Lemma argmin_spec l i :
  argmin l = Ok i →
  ∃ m, l !! i = Some m ∧
       (∀ j y, l !! j = Some y → m ≤ y) ∧
       (∀ j y, (j < i)%nat → l !! j = Some y → m < y).
Proof.
  destruct l as [|x l]; [done|]. intros [= <-].
  apply (argmin_from_spec l [x] 0%nat x); [done| |].
  - intros [|j] y Hj; simpl in Hj; [injection Hj as <-; lia | done].
  - intros j y Hj. lia.
Qed.

Lemma table_row_Ok {A} (table : list A) i :
  (i < length table)%nat → ∃ row, table_row i table = Ok row ∧ table !! i = Some row.
Proof.
  intros Hi. destruct (lookup_lt_is_Some_2 table i Hi) as [row Hrow].
  exists row. unfold table_row. by rewrite Hrow.
Qed.
(** ** What the later steps of the loop body leave alone *)

Lemma fill_array_pointing_frame f d d' :
  _fill_array_pointing f d = Ok d' →
  header d' = header d ∧ pointing_tel d' = pointing_tel d ∧ dl1_tel d' = dl1_tel d.
Proof. unfold _fill_array_pointing. intros H. inv_Ok. done. Qed.

Lemma fill_one_telescope_pointing_frame f tel d d' :
  fill_one_telescope_pointing f tel d = Ok d' →
  header d' = header d ∧ dl1_tel d' = dl1_tel d ∧
  ∀ k, k ∈ TelMap.keys (pointing_tel d') ↔ k = tel ∨ k ∈ TelMap.keys (pointing_tel d).
Proof.
  unfold fill_one_telescope_pointing. intros H. inv_Ok.
  split_and!; [done..|]. intros k. apply elem_of_keys_setdefault_with.
Qed.

Lemma fill_telescope_pointing_loop_frame f a tels : ∀ d d',
  fill_telescope_pointing_loop f a tels d = Ok d' →
  header d' = header d ∧ dl1_tel d' = dl1_tel d ∧
  ∀ k, k ∈ TelMap.keys (pointing_tel d') → k ∈ tels ∨ k ∈ TelMap.keys (pointing_tel d).
Proof.
  induction tels as [|tel tels IH]; intros d d' H; simpl in H.
  - inv_Ok. auto.
  - destruct (excluded a tel).
    + destruct (IH _ _ H) as (? & ? & Hk). split_and!; [done..|].
      intros k Hin. destruct (Hk k Hin); [left; by apply list_elem_of_further | by right].
    + inv_Ok.
      destruct (fill_one_telescope_pointing_frame _ _ _ _ H0) as (Hh & Hd & Hp).
      destruct (IH _ _ H) as (Hh' & Hd' & Hp').
      split_and!; [congruence..|].
      intros k Hin. destruct (Hp' k Hin) as [?|Hin'].
      * left. by apply list_elem_of_further.
      * apply Hp in Hin' as [->|?]; [left; apply list_elem_of_here | by right].
Qed.

Lemma fill_simulation_frame f mc st st' :
  fill_simulation f mc st = Ok st' →
  header (data st') = header (data st) ∧
  pointing_tel (data st') = pointing_tel (data st) ∧
  dl1_tel (data st') = dl1_tel (data st) ∧
  image_iterators st' = image_iterators st ∧
  param_readers st' = param_readers st ∧
  log st' = log st.
Proof.
  unfold fill_simulation. destruct (is_simulation f).
  - intros H. inv_Ok. destruct (mc !! _); inv_Ok. done.
  - intros [= <-]. done.
Qed.

Lemma dl1_turn_trans tel st1 st2 st3 :
  dl1_turn tel st1 st2 → dl1_turn tel st2 st3 → dl1_turn tel st1 st3.
Proof.
  intros (?&?&?&?&?&?&g1&Hg1) (?&?&?&?&?&?&g2&Hg2).
  split_and!; [congruence..|].
  exists (g2 ∘ g1). by rewrite Hg2, Hg1, setdefault_with_compose.
Qed.

Lemma getitem_Ok {A} k (m : gmap string A) a : getitem k m = Ok a → m !! k = Some a.
Proof.
  unfold getitem. destruct (m !! k); intros H; [|discriminate].
  by injection H as ->.
Qed.

Lemma dom_insert_present {A} k (m : gmap string A) a b :
  m !! k = Some a → dom (<[k := b]> m) = dom m.
Proof.
  intros Hk. apply dom_insert_lookup_L. eauto.
Qed.

Lemma read_image_turn tel st st' : read_image tel st = Ok st' → dl1_turn tel st st'.
Proof.
  unfold read_image. intros H. inv_Ok. apply getitem_Ok in H0.
  split_and!; try done.
  - simpl. by eapply dom_insert_present.
  - simpl. eauto.
Qed.

Lemma read_parameters_turn tel st st' : read_parameters tel st = Ok st' → dl1_turn tel st st'.
Proof.
  unfold read_parameters. intros H. inv_Ok. apply getitem_Ok in H0.
  split_and!; try done.
  - simpl. by eapply dom_insert_present.
  - simpl. eauto.
Qed.

Lemma touch_turn tel st :
  dl1_turn tel st (with_data (set_dl1_tel (TelMap.touch default_dl1 tel) (data st)) st).
Proof. split_and!; try done. simpl. unfold TelMap.touch. eauto. Qed.

Lemma dl1_turn_debug tel msg st st' :
  dl1_turn tel st st' → dl1_turn tel st (debug msg st').
Proof. done. Qed.

Lemma level_in_Ok level levels b :
  level_in level levels = Ok b → ∃ ls, levels = Some ls ∧ b = bool_decide (level ∈ ls).
Proof. destruct levels as [ls|]; [intros [= <-]; eauto | done]. Qed.

Lemma fill_dl1_tel_turn f tel st st' :
  fill_dl1_tel f tel st = Ok st' → dl1_turn tel st st'.
Proof.
  unfold fill_dl1_tel. intros H.
  pose proof (touch_turn tel st) as Htouch.
  set (st0 := with_data _ st) in *. clearbody st0.
  apply bind_Ok in H as (has_images & _ & H).
  destruct (has_images && _).
  { injection H as <-. by apply dl1_turn_debug. }
  apply bind_Ok in H as (st1 & H1 & H).
  assert (dl1_turn tel st st1) as Hst1.
  { destruct has_images.
    - eapply dl1_turn_trans; [done|]. by apply read_image_turn.
    - by injection H1 as <-. }
  apply bind_Ok in H as (has_parameters & _ & H).
  destruct (has_parameters && _).
  { injection H as <-. by apply dl1_turn_debug. }
  destruct has_parameters.
  - eapply dl1_turn_trans; [done|]. by apply read_parameters_turn.
  - by injection H as <-.
Qed.

(** The loop over the telescopes with a trigger time. *)
Lemma fill_dl1_loop_frame f a tels : ∀ st st',
  fill_dl1_loop f a tels st = Ok st' →
  header (data st') = header (data st) ∧
  pointing_tel (data st') = pointing_tel (data st) ∧
  mcheader (data st') = mcheader (data st) ∧
  mc_shower_reader st' = mc_shower_reader st ∧
  dom (image_iterators st') = dom (image_iterators st) ∧
  dom (param_readers st') = dom (param_readers st) ∧
  ∀ k, k ∈ TelMap.keys (dl1_tel (data st')) →
       k ∈ tels ∨ k ∈ TelMap.keys (dl1_tel (data st)).
Proof.
  induction tels as [|tel tels IH]; intros st st' H; simpl in H.
  - injection H as <-. split_and!; auto.
  - destruct (excluded a tel).
    + destruct (IH _ _ H) as (?&?&?&?&?&?&Hk). split_and!; [done..|].
      intros k Hin. destruct (Hk k Hin); [left; by apply list_elem_of_further | by right].
    + apply bind_Ok in H as (st1 & H1 & H).
      destruct (fill_dl1_tel_turn _ _ _ _ H1) as (?&?&?&?&?&?&g&Hg).
      destruct (IH _ _ H) as (?&?&?&?&?&?&Hk).
      split_and!; [congruence..|].
      intros k Hin. destruct (Hk k Hin) as [?|Hin'].
      * left. by apply list_elem_of_further.
      * rewrite Hg in Hin'. apply elem_of_keys_setdefault_with in Hin' as [->|?];
          [left; apply list_elem_of_here | by right].
Qed.

(** ** The trigger-time scan *)

Lemma trigger_scan_spec a (rows : list TelTriggerRow) : ∀ d,
  let d' := foldl (λ d i,
                if excluded a (tt_tel_id i) then d
                else set_trigger_tel
                       (TelMap.setdefault_with default_trigger (tt_tel_id i)
                          (λ _, {| time := Some (tt_telescopetrigger_time i) |})) d)
              d rows in
  count d' = count d ∧ trigger_time d' = trigger_time d ∧
  trigger_tels_with_trigger d' = trigger_tels_with_trigger d ∧
  index_obs_id d' = index_obs_id d ∧ index_event_id d' = index_event_id d ∧
  pointing_tel d' = pointing_tel d ∧ dl1_tel d' = dl1_tel d ∧
  mcheader d' = mcheader d ∧
  (NoDup (TelMap.keys (trigger_tel d)) → NoDup (TelMap.keys (trigger_tel d'))) ∧
  ∀ k, k ∈ TelMap.keys (trigger_tel d') →
       k ∈ TelMap.keys (trigger_tel d) ∨
       (excluded a k = false ∧ ∃ i, i ∈ rows ∧ tt_tel_id i = k).
Proof.
  cbv zeta. induction rows as [|i rows IH]; intros d; simpl.
  - split_and!; auto.
  - destruct (excluded a (tt_tel_id i)) eqn:Hex.
    + destruct (IH d) as (?&?&?&?&?&?&?&?&Hnd&Hk). split_and!; [done..|].
      intros k Hin. destruct (Hk k Hin) as [?|(?&j&?&?)]; [by left|].
      right. split; [done|]. exists j. split; [by apply list_elem_of_further | done].
    + destruct (IH (set_trigger_tel
         (TelMap.setdefault_with default_trigger (tt_tel_id i)
            (λ _, {| time := Some (tt_telescopetrigger_time i) |})) d))
        as (?&?&?&?&?&?&?&?&Hnd&Hk).
      split_and!; [done..| |].
      * intros Hd. by apply Hnd, NoDup_keys_setdefault_with.
      * intros k Hin. destruct (Hk k Hin) as [Hin'|(?&j&?&?)].
        -- apply elem_of_keys_setdefault_with in Hin' as [->|?]; [|by left].
           right. split; [done|]. exists i. split; [apply list_elem_of_here | done].
        -- right. split; [done|]. exists j. split; [by apply list_elem_of_further | done].
Qed.

Lemma fill_telescope_trigger_spec f a d :
  let d' := fill_telescope_trigger f a d in
  count d' = count d ∧ trigger_time d' = trigger_time d ∧
  trigger_tels_with_trigger d' = trigger_tels_with_trigger d ∧
  index_obs_id d' = index_obs_id d ∧ index_event_id d' = index_event_id d ∧
  pointing_tel d' = pointing_tel d ∧ dl1_tel d' = dl1_tel d ∧
  mcheader d' = mcheader d ∧
  (NoDup (TelMap.keys (trigger_tel d)) → NoDup (TelMap.keys (trigger_tel d'))) ∧
  ∀ k, k ∈ TelMap.keys (trigger_tel d') →
       k ∈ TelMap.keys (trigger_tel d) ∨
       (excluded a k = false ∧
        ∃ i, i ∈ telescope_trigger f ∧ tt_tel_id i = k ∧
             tt_obs_id i = index_obs_id d ∧ tt_event_id i = index_event_id d).
Proof.
  cbv zeta. unfold fill_telescope_trigger.
  destruct (trigger_scan_spec a
              (where_event (index_obs_id d) (index_event_id d) (telescope_trigger f)) d)
    as (?&?&?&?&?&?&?&?&Hnd&Hk).
  split_and!; [done..|].
  intros k Hin. destruct (Hk k Hin) as [?|(?&i&Hi&?)]; [by left|].
  right. split; [done|]. exists i.
  unfold where_event in Hi. apply list_elem_of_filter in Hi. tauto.
Qed.
(** ** One event *)

Lemma triggered_keys f a counter row st :
  NoDup (TelMap.keys (trigger_tel (triggered f a counter row st))) ∧
  ∀ k, k ∈ TelMap.keys (trigger_tel (triggered f a counter row st)) →
       excluded a k = false ∧
       ∃ i, i ∈ telescope_trigger f ∧ tt_tel_id i = k ∧
            tt_obs_id i = tr_obs_id row ∧ tt_event_id i = tr_event_id row.
Proof.
  unfold triggered.
  destruct (fill_telescope_trigger_spec f a (begin_event counter row (data st)))
    as (_&_&_&_&_&_&_&_&Hnd&Hk).
  split; [apply Hnd, NoDup_nil_2|].
  intros k Hin. destruct (Hk k Hin) as [Hin'|?]; [|done].
  by apply elem_of_nil in Hin'.
Qed.

Lemma trigger_scan_get a (rows : list TelTriggerRow) tel : ∀ d,
  TelMap.get tel (trigger_tel
    (foldl (λ d i,
              if excluded a (tt_tel_id i) then d
              else set_trigger_tel
                     (TelMap.setdefault_with default_trigger (tt_tel_id i)
                        (λ _, {| time := Some (tt_telescopetrigger_time i) |})) d)
           d rows)) =
  if excluded a tel then TelMap.get tel (trigger_tel d)
  else match last (filter (λ i, tt_tel_id i = tel) rows) with
       | Some i => Some {| time := Some (tt_telescopetrigger_time i) |}
       | None => TelMap.get tel (trigger_tel d)
       end.
Proof.
  induction rows as [|i rows IH] using rev_ind; intros d.
  - simpl. by destruct (excluded a tel).
  - rewrite foldl_app, filter_app. cbn [foldl].
    destruct (decide (tt_tel_id i = tel)) as [Heq|Hne].
    + rewrite filter_cons_True, filter_nil, last_snoc by done.
      rewrite Heq. destruct (excluded a tel) eqn:Hex; [by rewrite IH|].
      simpl. by rewrite get_setdefault_with_eq.
    + rewrite filter_cons_False, filter_nil, app_nil_r by done.
      destruct (excluded a (tt_tel_id i)); [apply IH|].
      simpl. rewrite get_setdefault_with_ne by done. apply IH.
Qed.

Lemma triggered_time_set f a counter row st tel :
  tel ∈ TelMap.keys (trigger_tel (triggered f a counter row st)) →
  ∃ t, TelMap.get tel (trigger_tel (triggered f a counter row st)) ≫= time = Some t.
Proof.
  intros Hin.
  destruct (TelMap.get tel (trigger_tel (triggered f a counter row st))) as [c|] eqn:Hget.
  2: { apply get_None_keys in Hget. done. }
  revert Hget. unfold triggered, fill_telescope_trigger. rewrite trigger_scan_get.
  simpl. destruct (excluded a tel); [done|].
  destruct (last _); [|done]. intros [= <-]. simpl. eauto.
Qed.

Lemma header_inv d d' :
  header d' = header d →
  count d' = count d ∧ trigger_time d' = trigger_time d ∧
  trigger_tels_with_trigger d' = trigger_tels_with_trigger d ∧
  trigger_tel d' = trigger_tel d ∧
  index_obs_id d' = index_obs_id d ∧ index_event_id d' = index_event_id d.
Proof. unfold header. intros [= -> -> -> -> -> ->]. done. Qed.

Lemma event_body_Ok f a mc counter row st st' :
  event_body f a mc counter row st = Ok st' →
  let d := triggered f a counter row st in
  header (data st') = header d ∧
  count (data st') = counter ∧
  index_obs_id (data st') = tr_obs_id row ∧
  index_event_id (data st') = tr_event_id row ∧
  trigger_tels_with_trigger (data st') = where_plus_1 (tr_tels_with_trigger row) ∧
  dom (image_iterators st') = dom (image_iterators st) ∧
  dom (param_readers st') = dom (param_readers st) ∧
  (∀ k, k ∈ TelMap.keys (pointing_tel (data st')) → k ∈ TelMap.keys (trigger_tel d)) ∧
  (∀ k, k ∈ TelMap.keys (dl1_tel (data st')) → k ∈ TelMap.keys (trigger_tel d)) ∧
  (is_simulation f = true → is_Some (mcheader (data st')) ∧
                            mcheader (data st') = mc !! tr_obs_id row).
Proof.
  unfold event_body. cbv zeta. fold (triggered f a counter row st).
  intros H. set (d := triggered f a counter row st) in *.
  apply bind_Ok in H as (d1 & H1 & H). apply bind_Ok in H as (d2 & H2 & H).
  apply bind_Ok in H as (st3 & H3 & H).
  destruct (fill_array_pointing_frame _ _ _ H1) as (Hh1 & Hp1 & Hd1).
  destruct (fill_telescope_pointing_loop_frame _ _ _ _ _ H2) as (Hh2 & Hd2 & Hp2).
  destruct (fill_simulation_frame _ _ _ _ H3) as (Hh3 & Hp3 & Hd3 & Hi3 & Hr3 & _).
  destruct (fill_dl1_loop_frame _ _ _ _ _ H) as (Hh4 & Hp4 & Hm4 & _ & Hi4 & Hr4 & Hk4).
  simpl in Hh3, Hp3, Hd3, Hi3, Hr3.
  assert (header (data st') = header d) as Hh by congruence.
  assert (header (data st3) = header d) as Hh3' by congruence.
  assert (header d2 = header d) as Hh2' by congruence.
  apply header_inv in Hh3' as (_&_&_&Htel3&_&_).
  apply header_inv in Hh2' as (_&_&_&_&Hobs2&_).
  apply header_inv in Hh1 as (_&_&_&Htel1&_&_).
  assert (pointing_tel d = [] ∧ dl1_tel d = [] ∧ count d = counter ∧
          index_obs_id d = tr_obs_id row ∧ index_event_id d = tr_event_id row ∧
          trigger_tels_with_trigger d = where_plus_1 (tr_tels_with_trigger row))
    as (Hp0 & Hd0 & Hc0 & Ho0 & He0 & Ht0).
  { subst d. unfold triggered.
    destruct (fill_telescope_trigger_spec f a (begin_event counter row (data st)))
      as (->&_&->&->&->&->&->&_). done. }
  destruct (header_inv _ _ Hh) as (?&?&?&?&?&?).
  split_and!; try congruence.
  - intros k Hin. rewrite Hp4, Hp3 in Hin. apply Hp2 in Hin as [Hin|Hin].
    + by rewrite <-Htel1.
    + rewrite Hp1, Hp0 in Hin. by apply elem_of_nil in Hin.
  - intros k Hin. apply Hk4 in Hin as [Hin|Hin].
    + by rewrite <-Htel3.
    + rewrite Hd3, Hd2, Hd1, Hd0 in Hin. by apply elem_of_nil in Hin.
  - intros Hsim. rewrite Hm4. unfold fill_simulation in H3. rewrite Hsim in H3.
    apply bind_Ok in H3 as ([shower_row reader'] & _ & H3).
    simpl in H3. rewrite Hobs2, Ho0 in H3.
    destruct (mc !! tr_obs_id row) as [hdr|]; [|done].
    injection H3 as <-. simpl. eauto.
Qed.
(** ** The generator loop *)

Lemma pair_ind {A} (P : list A → Prop) :
  P [] → (∀ x, P [x]) → (∀ x y l, P l → P (x :: y :: l)) → ∀ l, P l.
Proof.
  intros Hnil Hone Hstep.
  assert (∀ l, P l ∧ ∀ x, P (x :: l)) as Hboth.
  { induction l as [|y l [IH1 IH2]]; [by split|].
    split; [apply IH2 | intros x; by apply Hstep]. }
  intros l. apply Hboth.
Qed.

Lemma body_rows_length {A} (events : list A) :
  (2 * length (body_rows events) ≤ length events)%nat.
Proof. induction events using pair_ind; simpl; lia. Qed.

Lemma events_loop_yielded f a mc (I : State → Prop) :
  (∀ c row st st', I st → event_body f a mc c row st = Ok st' → I st') →
  ∀ events c st, I st →
  ∀ ev, ev ∈ yielded (events_loop f a mc c events st) →
  ∃ c' row st0 st',
    row ∈ body_rows events ∧ I st0 ∧
    event_body f a mc c' row st0 = Ok st' ∧ ev = data st'.
Proof.
  intros Hinv events.
  induction events as [|x|x row events IH] using pair_ind; intros c st HI ev Hev.
  - by apply elem_of_nil in Hev.
  - by apply elem_of_nil in Hev.
  - simpl in Hev. destruct (event_body f a mc c row st) as [st'|e] eqn:Hbody.
    + simpl in Hev. apply elem_of_cons in Hev as [->|Hev].
      * exists c, row, st, st'. split_and!; [apply list_elem_of_here | done..].
      * destruct (IH _ _ (Hinv _ _ _ _ HI Hbody) _ Hev) as (c'&row'&st0&st1&?&?&?&?).
        exists c', row', st0, st1. split_and!; [by apply list_elem_of_further | done..].
    + by apply elem_of_nil in Hev.
Qed.

(** The events yielded are numbered from the start value on without a gap,
    and are built, in order, from the rows that reach the loop body. *)
Lemma events_loop_counts f a mc events : ∀ c st,
  let run := events_loop f a mc c events st in
  count <$> yielded run = seq c (length (yielded run)) ∧
  (λ ev, (index_obs_id ev, index_event_id ev)) <$> yielded run =
    take (length (yielded run)) ((λ row, (tr_obs_id row, tr_event_id row)) <$> body_rows events).
Proof.
  cbv zeta.
  induction events as [|x|x row events IH] using pair_ind; intros c st; [done..|].
  simpl. destruct (event_body f a mc c row st) as [st'|e] eqn:Hbody; [|done].
  destruct (IH (S c) st') as [IH1 IH2].
  destruct (event_body_Ok _ _ _ _ _ _ _ Hbody) as (_&Hc&Ho&He&_).
  simpl. split; f_equal; [done | exact IH1 | congruence | exact IH2].
Qed.

Lemma events_loop_length f a mc events c st :
  (2 * length (yielded (events_loop f a mc c events st)) ≤ length events)%nat.
Proof.
  revert c st. induction events as [|x|x row events IH] using pair_ind;
    intros c st; simpl; [lia..|].
  destruct (event_body f a mc c row st) as [st'|e]; simpl; [|lia].
  specialize (IH (S c) st'). lia.
Qed.

(** ** Set-up *)

Lemma setup_Ok f st :
  setup f = Ok st →
  is_Some (attrs f !! "CTA PROCESS TYPE"%string) ∧
  is_Some (datalevels f) ∧
  (∀ tables, images f = Some tables →
     image_iterators st = tables ∧ level_in DL1_IMAGES (datalevels f) = Ok true) ∧
  (∀ tables, parameters f = Some tables →
     param_readers st = tables ∧ level_in DL1_PARAMETERS (datalevels f) = Ok true) ∧
  dl1_tel (data st) = [].
Proof.
  unfold setup, datalevels. intros H.
  apply bind_Ok in H as (origin & Ho & H). apply getitem_Ok in Ho.
  apply bind_Ok in H as (has_images & Hi & H).
  apply bind_Ok in H as (its & Hits & H).
  apply bind_Ok in H as (has_parameters & Hp & H).
  apply bind_Ok in H as (rds & Hrds & H).
  injection H as <-. simpl.
  split; [eauto|].
  destruct (images f) as [itabs|], (parameters f) as [ptabs|]; simpl in *;
    try discriminate;
    injection Hi as <-; injection Hp as <-; simpl in *.
  all: split; [eauto|]; split_and!; try done.
  all: intros tables [= <-]; split; [|done].
  all: repeat match goal with
       | H : _ ≫= _ = Ok _ |- _ => apply bind_Ok in H as (? & ? & H)
       | H : Ok _ = Ok _ |- _ => injection H as H
       end; by subst.
Qed.
(** ** A telescope without a table *)

Lemma fill_dl1_tel_missing_image f tel st :
  level_in DL1_IMAGES (datalevels f) = Ok true →
  tel_name tel ∉ dom (image_iterators st) →
  fill_dl1_tel f tel st =
    Ok (debug (MissingFromImageTable tel)
          (with_data (set_dl1_tel (TelMap.touch default_dl1 tel) (data st)) st)).
Proof.
  intros Hlevel Hmissing. unfold fill_dl1_tel. rewrite Hlevel. simpl.
  by rewrite bool_decide_eq_true_2.
Qed.

Lemma fill_dl1_tel_missing_parameters f tel st st' :
  level_in DL1_PARAMETERS (datalevels f) = Ok true →
  tel_name tel ∉ dom (param_readers st) →
  TelMap.get tel (dl1_tel (data st)) = None →
  fill_dl1_tel f tel st = Ok st' →
  ∃ dl1, TelMap.get tel (dl1_tel (data st')) = Some dl1 ∧ dl1_parameters dl1 = None.
Proof.
  intros Hlevel Hmissing Hfresh. unfold fill_dl1_tel.
  intros H. apply bind_Ok in H as (has_images & _ & H).
  destruct (has_images && _) eqn:Himg.
  { injection H as <-. simpl. unfold TelMap.touch.
    rewrite get_setdefault_with_eq, Hfresh. eauto. }
  apply bind_Ok in H as (st1 & H1 & H).
  rewrite Hlevel in H. simpl in H.
  assert (param_readers st1 = param_readers st ∧
          ∃ dl1, TelMap.get tel (dl1_tel (data st1)) = Some dl1 ∧ dl1_parameters dl1 = None)
    as (Hrd & dl1 & Hget & Hnone).
  { destruct has_images.
    - unfold read_image in H1.
      apply bind_Ok in H1 as (cursor & _ & H1).
      apply bind_Ok in H1 as ([image_row cursor'] & _ & H1).
      injection H1 as <-. simpl. split; [done|].
      unfold TelMap.touch. rewrite setdefault_with_compose, get_setdefault_with_eq, Hfresh.
      eauto.
    - injection H1 as <-. simpl. split; [done|]. unfold TelMap.touch.
      rewrite get_setdefault_with_eq, Hfresh. eauto. }
  rewrite Hrd, bool_decide_eq_true_2 in H by done.
  injection H as <-. simpl. eauto.
Qed.

Lemma dl1_turn_get_other tel st st' k :
  dl1_turn tel st st' → k ≠ tel →
  TelMap.get k (dl1_tel (data st')) = TelMap.get k (dl1_tel (data st)).
Proof.
  intros (_&_&_&_&_&_&g&->) Hne. by apply get_setdefault_with_ne.
Qed.

Lemma fill_dl1_loop_get_other f a tels k : ∀ st st',
  fill_dl1_loop f a tels st = Ok st' → k ∉ tels →
  TelMap.get k (dl1_tel (data st')) = TelMap.get k (dl1_tel (data st)).
Proof.
  induction tels as [|tel tels IH]; intros st st' H Hk; simpl in H.
  - by injection H as <-.
  - apply not_elem_of_cons in Hk as [Hne Hk].
    destruct (excluded a tel); [by apply IH|].
    apply bind_Ok in H as (st1 & H1 & H).
    rewrite (IH _ _ H Hk).
    eapply dl1_turn_get_other; [by eapply fill_dl1_tel_turn|done].
Qed.

(** After the loop, what the entry of telescope [tel] holds is what its own
    turn left there. *)
Lemma fill_dl1_loop_own_turn f a tels tel : ∀ st st',
  fill_dl1_loop f a tels st = Ok st' →
  NoDup tels → tel ∈ tels → excluded a tel = false →
  ∃ st0 st1,
    fill_dl1_tel f tel st0 = Ok st1 ∧
    dom (image_iterators st0) = dom (image_iterators st) ∧
    dom (param_readers st0) = dom (param_readers st) ∧
    TelMap.get tel (dl1_tel (data st0)) = TelMap.get tel (dl1_tel (data st)) ∧
    TelMap.get tel (dl1_tel (data st')) = TelMap.get tel (dl1_tel (data st1)).
Proof.
  induction tels as [|t tels IH]; intros st st' H Hnd Hin Hex; simpl in H.
  - by apply elem_of_nil in Hin.
  - apply NoDup_cons in Hnd as [Hfresh Hnd].
    apply elem_of_cons in Hin as [->|Hin].
    + rewrite Hex in H. apply bind_Ok in H as (st1 & H1 & H).
      exists st, st1. split_and!; [done..|].
      by eapply fill_dl1_loop_get_other.
    + assert (tel ≠ t) as Hne by (intros ->; done).
      destruct (excluded a t); [by apply IH|].
      apply bind_Ok in H as (st1 & H1 & H).
      destruct (IH _ _ H Hnd Hin Hex) as (st0 & st2 & ? & Hi & Hr & Hg & ?).
      pose proof (fill_dl1_tel_turn _ _ _ _ H1) as Hturn.
      pose proof (dl1_turn_get_other _ _ _ _ Hturn Hne) as Hother.
      destruct Hturn as (_&_&_&_&Hi1&Hr1&_).
      exists st0, st2. split_and!; [done|congruence..|done].
Qed.
Lemma event_body_dl1 f a mc counter row st st' :
  event_body f a mc counter row st = Ok st' →
  ∃ st3,
    fill_dl1_loop f a (TelMap.keys (trigger_tel (data st'))) st3 = Ok st' ∧
    trigger_tel (data st') = trigger_tel (triggered f a counter row st) ∧
    dl1_tel (data st3) = [] ∧
    image_iterators st3 = image_iterators st ∧
    param_readers st3 = param_readers st.
Proof.
  unfold event_body. cbv zeta. fold (triggered f a counter row st).
  intros H. set (d := triggered f a counter row st) in *.
  apply bind_Ok in H as (d1 & H1 & H). apply bind_Ok in H as (d2 & H2 & H).
  apply bind_Ok in H as (st3 & H3 & H).
  destruct (fill_array_pointing_frame _ _ _ H1) as (Hh1 & Hp1 & Hd1).
  destruct (fill_telescope_pointing_loop_frame _ _ _ _ _ H2) as (Hh2 & Hd2 & Hp2).
  destruct (fill_simulation_frame _ _ _ _ H3) as (Hh3 & Hp3 & Hd3 & Hi3 & Hr3 & _).
  destruct (fill_dl1_loop_frame _ _ _ _ _ H) as (Hh4 & _).
  simpl in Hh3, Hd3, Hi3, Hr3.
  assert (header (data st3) = header d) as Hh3' by congruence.
  assert (header (data st') = header d) as Hh by congruence.
  apply header_inv in Hh3' as (_&_&_&Htel3&_&_).
  apply header_inv in Hh as (_&_&_&Htel&_&_).
  exists st3. split_and!; [|done| |done..].
  - unfold fill_dl1 in H. by rewrite Htel, <-Htel3.
  - rewrite Hd3, Hd2, Hd1. subst d. unfold triggered.
    by destruct (fill_telescope_trigger_spec f a (begin_event counter row (data st)))
      as (_&_&_&_&_&_&->&_).
Qed.

(** In a yielded event, the entry of a telescope with a trigger time is what
    one turn of the per-telescope loop made of a fresh entry. *)
Lemma event_body_own_turn f a mc counter row st st' tel :
  event_body f a mc counter row st = Ok st' →
  tel ∈ TelMap.keys (trigger_tel (data st')) →
  ∃ st0 st1,
    fill_dl1_tel f tel st0 = Ok st1 ∧
    dom (image_iterators st0) = dom (image_iterators st) ∧
    dom (param_readers st0) = dom (param_readers st) ∧
    TelMap.get tel (dl1_tel (data st0)) = None ∧
    TelMap.get tel (dl1_tel (data st')) = TelMap.get tel (dl1_tel (data st1)).
Proof.
  intros Hbody Hin.
  destruct (event_body_dl1 _ _ _ _ _ _ _ Hbody) as (st3 & Hloop & Htel & Hd3 & Hi3 & Hr3).
  destruct (triggered_keys f a counter row st) as [Hnd Hkeys].
  rewrite <-Htel in Hnd, Hkeys.
  destruct (Hkeys _ Hin) as [Hex _].
  destruct (fill_dl1_loop_own_turn _ _ _ _ _ _ Hloop Hnd Hin Hex)
    as (st0 & st1 & ? & Hi & Hr & Hg & ?).
  exists st0, st1. rewrite Hd3 in Hg. split_and!; [done|congruence..|done|done].
Qed.
(** ** Whole runs *)

Lemma body_rows_subseteq {A} (events : list A) row :
  row ∈ body_rows events → row ∈ events.
Proof.
  induction events as [|x|x y events IH] using pair_ind; simpl; intros Hin.
  - done.
  - by apply elem_of_nil in Hin.
  - apply elem_of_cons in Hin as [->|Hin].
    + apply list_elem_of_further, list_elem_of_here.
    + by apply list_elem_of_further, list_elem_of_further, IH.
Qed.

(** Every yielded event is the scratch container as one successful pass of
    the loop body left it, for a row that reached the body, with the cursor
    tables that set-up opened. *)
Lemma generate_events_yielded f a run ev :
  _generate_events f a = Ok run → ev ∈ yielded run →
  ∃ st0 c row st st',
    setup f = Ok st0 ∧ row ∈ body_rows (subarray_trigger f) ∧
    dom (image_iterators st) = dom (image_iterators st0) ∧
    dom (param_readers st) = dom (param_readers st0) ∧
    event_body f a (_parse_mc_headers f) c row st = Ok st' ∧ ev = data st'.
Proof.
  unfold _generate_events. intros H Hev.
  apply bind_Ok in H as (st0 & Hsetup & H). injection H as <-.
  destruct (events_loop_yielded f a (_parse_mc_headers f)
              (λ st, dom (image_iterators st) = dom (image_iterators st0) ∧
                     dom (param_readers st) = dom (param_readers st0)))
    with (events := subarray_trigger f) (c := 0%nat) (st := st0) (ev := ev)
    as (c & row & st & st' & Hrow & [Hi Hr] & Hbody & ->); [|done|done|].
  - intros c row st st' [Hi Hr] Hbody.
    destruct (event_body_Ok _ _ _ _ _ _ _ Hbody) as (_&_&_&_&_&Hi'&Hr'&_).
    split; congruence.
  - exists st0, c, row, st, st'. done.
Qed.

Lemma excluded_false a tel : excluded a tel = false → a ≠ ∅ → tel ∈ a.
Proof.
  unfold excluded. intros Hex Hne.
  rewrite bool_decide_eq_true_2 in Hex by done. simpl in Hex.
  apply bool_decide_eq_false_1 in Hex.
  destruct (decide (tel ∈ a)); [done | by destruct Hex].
Qed.

(** ** Pointing tables *)

Lemma fill_array_pointing_Ok f d :
  subarray_pointing f ≠ [] → ∃ d', _fill_array_pointing f d = Ok d'.
Proof.
  intros Hne. unfold _fill_array_pointing.
  destruct (argmin_Ok (minus_scalar (ap_time <$> subarray_pointing f) (trigger_time d)))
    as (i & -> & Hi).
  { unfold minus_scalar. destruct (subarray_pointing f); done. }
  unfold minus_scalar in Hi. rewrite !length_fmap in Hi.
  destruct (table_row_Ok (subarray_pointing f) i Hi) as (row & Hrow & _).
  simpl. rewrite Hrow. simpl. eauto.
Qed.

Lemma next_errors {A} (cursor : list A) e : next cursor = Raise e → e = RuntimeError.
Proof. destruct cursor; [by intros [= <-] | done]. Qed.

Lemma fill_array_pointing_errors f d e :
  _fill_array_pointing f d = Raise e → e = ValueError.
Proof.
  unfold _fill_array_pointing. intros H.
  apply bind_Raise in H as [H|(i & Hi & H)].
  - destruct (minus_scalar _ _); [by injection H as <- | done].
  - apply argmin_length in Hi. unfold minus_scalar in Hi. rewrite !length_fmap in Hi.
    destruct (table_row_Ok (subarray_pointing f) i Hi) as (row & Hrow & _).
    by rewrite Hrow in H.
Qed.

Lemma fill_one_telescope_pointing_Ok f tel d table t :
  telescope_pointing f !! tel_name tel = Some table → table ≠ [] →
  TelMap.get tel (trigger_tel d) ≫= time = Some t →
  ∃ d', fill_one_telescope_pointing f tel d = Ok d'.
Proof.
  intros Hnode Hne Ht. unfold fill_one_telescope_pointing, minus_trigger_tel_time.
  rewrite Hnode, Ht. simpl.
  destruct (argmin_Ok (minus_scalar (tp_telescopetrigger_time <$> table) t))
    as (i & -> & Hi).
  { unfold minus_scalar. destruct table; done. }
  unfold minus_scalar in Hi. rewrite !length_fmap in Hi.
  destruct (table_row_Ok table i Hi) as (row & Hrow & _).
  simpl. rewrite Hrow. simpl. eauto.
Qed.

Lemma fill_one_telescope_pointing_no_node f tel d :
  telescope_pointing f !! tel_name tel = None →
  fill_one_telescope_pointing f tel d = Raise (IndexError (StrKey (tel_name tel))).
Proof. intros Hnode. unfold fill_one_telescope_pointing. by rewrite Hnode. Qed.


Lemma fill_one_telescope_pointing_trigger_tel f tel d d' :
  fill_one_telescope_pointing f tel d = Ok d' → trigger_tel d' = trigger_tel d.
Proof. unfold fill_one_telescope_pointing. intros H. inv_Ok. done. Qed.



(** The ways one telescope's pointing can fail, in the order of the source:
    the subscript of the group, the subtraction, [argmin].  The row subscript
    that follows never fails. *)
Lemma fill_one_telescope_pointing_errors f tel d e :
  fill_one_telescope_pointing f tel d = Raise e →
  (telescope_pointing f !! tel_name tel = None ∧ e = IndexError (StrKey (tel_name tel))) ∨
  (is_Some (telescope_pointing f !! tel_name tel) ∧
   TelMap.get tel (trigger_tel d) ≫= time = None ∧ e = TypeError) ∨
  (telescope_pointing f !! tel_name tel = Some [] ∧
   is_Some (TelMap.get tel (trigger_tel d) ≫= time) ∧ e = ValueError).
Proof.
  destruct (telescope_pointing f !! tel_name tel) as [table|] eqn:Hnode.
  2: { rewrite fill_one_telescope_pointing_no_node by done. intros [= <-]. by left. }
  destruct (TelMap.get tel (trigger_tel d) ≫= time) as [t|] eqn:Htime.
  2: { unfold fill_one_telescope_pointing, minus_trigger_tel_time.
       rewrite Hnode, Htime. intros [= <-]. right; left.
       split_and!; [by eexists | done..]. }
  destruct (decide (table = [])) as [->|Hne].
  { unfold fill_one_telescope_pointing, minus_trigger_tel_time.
    rewrite Hnode, Htime. intros [= <-]. right; right.
    split_and!; [done | by eexists | done]. }
  destruct (fill_one_telescope_pointing_Ok f tel d table t Hnode Hne Htime) as [d' ->].
  done.
Qed.

Lemma fill_telescope_pointing_loop_trigger_tel f a tels : ∀ d d',
  fill_telescope_pointing_loop f a tels d = Ok d' → trigger_tel d' = trigger_tel d.
Proof.
  induction tels as [|t tels IH]; intros d d' H; simpl in H.
  - by injection H as <-.
  - destruct (excluded a t); [by apply IH|].
    apply bind_Ok in H as (d1 & H1 & H).
    rewrite (IH _ _ H). by eapply fill_one_telescope_pointing_trigger_tel.
Qed.

Lemma fill_telescope_pointing_loop_Ok_iff f a tels : ∀ d,
  (∃ d', fill_telescope_pointing_loop f a tels d = Ok d') ↔
  ∀ tel, tel ∈ tels → excluded a tel = false →
         ∃ table t, telescope_pointing f !! tel_name tel = Some table ∧ table ≠ [] ∧
                    TelMap.get tel (trigger_tel d) ≫= time = Some t.
Proof.
  induction tels as [|t tels IH]; intros d; simpl.
  - split; [by intros _ tel ?%elem_of_nil | eauto].
  - destruct (excluded a t) eqn:Hex.
    + rewrite IH. split.
      * intros H tel [->|Hin]%elem_of_cons Hex'; [congruence | by apply H].
      * intros H tel Hin. by apply H, list_elem_of_further.
    + split.
      * intros [d' H]. apply bind_Ok in H as (d1 & H1 & H).
        intros tel [->|Hin]%elem_of_cons Hex'.
        -- revert H1. unfold fill_one_telescope_pointing, minus_trigger_tel_time.
           destruct (telescope_pointing f !! tel_name t) as [table|]; [|done].
           destruct (TelMap.get t (trigger_tel d) ≫= time) as [time_t|]; [|done].
           destruct table as [|r table]; [done|]. intros _.
           by exists (r :: table), time_t.
        -- rewrite <-(fill_one_telescope_pointing_trigger_tel _ _ _ _ H1).
           eapply IH; eauto.
      * intros H.
        destruct (H t) as (table & time_t & Hnode & Hne & Htime);
          [apply list_elem_of_here | done |].
        destruct (fill_one_telescope_pointing_Ok f t d table time_t Hnode Hne Htime)
          as [d1 Hd1].
        rewrite Hd1. simpl. apply IH. intros tel Hin.
        rewrite (fill_one_telescope_pointing_trigger_tel _ _ _ _ Hd1).
        by apply H, list_elem_of_further.
Qed.

Lemma fill_telescope_pointing_loop_errors f a tels : ∀ d e,
  fill_telescope_pointing_loop f a tels d = Raise e →
  ∃ tel, tel ∈ tels ∧ excluded a tel = false ∧
    ((telescope_pointing f !! tel_name tel = None ∧
      e = IndexError (StrKey (tel_name tel))) ∨
     (is_Some (telescope_pointing f !! tel_name tel) ∧
      TelMap.get tel (trigger_tel d) ≫= time = None ∧ e = TypeError) ∨
     (telescope_pointing f !! tel_name tel = Some [] ∧
      is_Some (TelMap.get tel (trigger_tel d) ≫= time) ∧ e = ValueError)).
Proof.
  induction tels as [|t tels IH]; intros d e H; simpl in H; [done|].
  destruct (excluded a t) eqn:Hex.
  { destruct (IH _ _ H) as (tel & ? & ? & ?).
    exists tel. split_and!; [by apply list_elem_of_further | done..]. }
  apply bind_Raise in H as [H|(d1 & H1 & H)].
  - exists t. split_and!; [apply list_elem_of_here | done |].
    by apply fill_one_telescope_pointing_errors.
  - destruct (IH _ _ H) as (tel & ? & ? & Hcases).
    exists tel. split_and!; [by apply list_elem_of_further | done |].
    by rewrite <-(fill_one_telescope_pointing_trigger_tel _ _ _ _ H1).
Qed.

(** In the loop body every telescope of the map has its trigger time, so
    the pointing step fails on a table only: a missing or an empty one. *)
Lemma event_pointing_errors f a c row st d e :
  trigger_tel d = trigger_tel (triggered f a c row st) →
  _fill_telescope_pointing f a d = Raise e →
  e = ValueError ∨
  ∃ tel, tel ∈ TelMap.keys (trigger_tel (triggered f a c row st)) ∧
         telescope_pointing f !! tel_name tel = None ∧
         e = IndexError (StrKey (tel_name tel)).
Proof.
  unfold _fill_telescope_pointing. intros Htel H.
  apply fill_telescope_pointing_loop_errors in H
    as (tel & Hin & _ & [[Hnode ->]|[(_ & Htime & _)|(_ & _ & ->)]]).
  - right. exists tel. by rewrite <-Htel.
  - rewrite Htel in Hin, Htime.
    destruct (triggered_time_set _ _ _ _ _ _ Hin) as [t Ht]. congruence.
  - by left.
Qed.

(** The row [_fill_array_pointing] picks is the first one whose rounded
    signed difference to the trigger time is the least of the table. *)
Lemma fill_array_pointing_takes_least_difference f d d' :
  _fill_array_pointing f d = Ok d' →
  ∃ i row,
    argmin (minus_scalar (ap_time <$> subarray_pointing f) (trigger_time d)) = Ok i ∧
    subarray_pointing f !! i = Some row ∧
    pointing_array_azimuth d' = Some (ap_array_azimuth row) ∧
    pointing_array_altitude d' = Some (ap_array_altitude row) ∧
    pointing_array_ra d' = Some (ap_array_ra row) ∧
    pointing_array_dec d' = Some (ap_array_dec row) ∧
    (∀ row', row' ∈ subarray_pointing f →
       fl64 (ap_time row - trigger_time d) ≤ fl64 (ap_time row' - trigger_time d)) ∧
    (∀ j row', (j < i)%nat → subarray_pointing f !! j = Some row' →
       fl64 (ap_time row - trigger_time d) < fl64 (ap_time row' - trigger_time d)).
Proof.
  unfold _fill_array_pointing. intros H.
  apply bind_Ok in H as (i & Hi & H). apply bind_Ok in H as (row & Hrow & H).
  injection H as <-.
  unfold table_row in Hrow.
  destruct (subarray_pointing f !! i) as [row0|] eqn:Hlook; [|done].
  injection Hrow as ->.
  destruct (argmin_spec _ _ Hi) as (m & Hm & Hle & Hlt).
  unfold minus_scalar in Hm, Hle, Hlt.
  rewrite !list_lookup_fmap, Hlook in Hm. injection Hm as <-.
  exists i, row. split_and!; try done.
  - intros row' [j Hj]%list_elem_of_lookup. apply (Hle j).
    by rewrite !list_lookup_fmap, Hj.
  - intros j row' Hji Hj. apply (Hlt j); [done|].
    by rewrite !list_lookup_fmap, Hj.
Qed.

(** Where no difference is rounded, the row [_fill_array_pointing] picks
    does not depend on the trigger time: it is the first row with the
    smallest time stamp. *)
Lemma fill_array_pointing_ignores_trigger_time f d :
  exact_differences (ap_time <$> subarray_pointing f) (trigger_time d) →
  _fill_array_pointing f d =
    (closest_time ← argmin (ap_time <$> subarray_pointing f);
     array_pointing ← table_row closest_time (subarray_pointing f);
     Ok (set_pointing_array array_pointing d)).
Proof. intros Hexact. unfold _fill_array_pointing. by rewrite argmin_minus_scalar. Qed.

Lemma exact_differences_elem column t x :
  exact_differences column t → x ∈ column → fl64 (x - t) = x - t.
Proof.
  unfold exact_differences. rewrite Forall_forall. intros Hexact Hx.
  by apply fl64_exact, Hexact.
Qed.

(** ** The registry *)

Lemma read_run_table_snoc rows row :
  read_run_table (rows ++ [row]) =
    (<[run_obs_id row := ()]> (read_run_table rows).1, Some (run_header row)).
Proof.
  unfold read_run_table. rewrite foldl_app. cbn [foldl].
  by destruct (foldl _ _ rows).
Qed.

Lemma read_run_table_keys rows obs_id :
  is_Some ((read_run_table rows).1 !! obs_id) ↔ obs_id ∈ run_obs_id <$> rows.
Proof.
  induction rows as [|row rows IH] using rev_ind.
  - cbn. rewrite lookup_empty. split; [by intros [? ?] | by intros ?%elem_of_nil].
  - rewrite read_run_table_snoc, fmap_app, elem_of_app. cbn [fst fmap list_fmap].
    rewrite list_elem_of_singleton.
    destruct (decide (run_obs_id row = obs_id)) as [Heq|Hne].
    + rewrite Heq, lookup_insert_eq. split; [by right | by eexists].
    + rewrite lookup_insert_ne by done. rewrite IH. split; [by left|].
      by intros [?|?].
Qed.

Lemma read_run_table_container rows :
  (read_run_table rows).2 = run_header <$> last rows.
Proof.
  destruct rows as [|row rows _] using rev_ind; [done|].
  by rewrite read_run_table_snoc, last_snoc.
Qed.

(** Every entry of the registry is the header of the last row of the run
    table, whatever its key. *)
Lemma parse_mc_headers_lookup f rows obs_id header :
  configuration_simulation_run f = Some rows →
  _parse_mc_headers f !! obs_id = Some header →
  ∃ row, last rows = Some row ∧ header = run_header row.
Proof.
  unfold _parse_mc_headers. intros ->.
  pose proof (read_run_table_container rows) as Hc.
  destruct (read_run_table rows) as [mc_headers container]. simpl in Hc. subst container.
  destruct (last rows) as [row|]; simpl; [|by rewrite lookup_empty].
  rewrite lookup_fmap. destruct (mc_headers !! obs_id); [|done].
  intros [= <-]. eauto.
Qed.

(** The keys of the registry are the observation ids of the run table. *)
Lemma parse_mc_headers_keys f rows obs_id :
  configuration_simulation_run f = Some rows →
  is_Some (_parse_mc_headers f !! obs_id) ↔ obs_id ∈ run_obs_id <$> rows.
Proof.
  unfold _parse_mc_headers. intros ->.
  pose proof (read_run_table_container rows) as Hc.
  pose proof (read_run_table_keys rows obs_id) as Hk.
  destruct (read_run_table rows) as [mc_headers container]. simpl in Hc, Hk. subst container.
  destruct rows as [|row rows _] using rev_ind.
  - simpl. rewrite lookup_empty. split; [by intros [? ?] | by intros ?%elem_of_nil].
  - rewrite last_snoc. simpl. rewrite lookup_fmap, <-Hk.
    destruct (mc_headers !! obs_id); simpl; split; intros [? ?]; by eauto.
Qed.

(** ** [is_compatible], case by case *)

Lemma attrs_Some f k v : attrs f !! k = Some v → hdf5 f = true.
Proof. unfold attrs. destruct (hdf5 f); [done | by rewrite lookup_empty]. Qed.

Lemma is_compatible_cases f :
  is_compatible f =
    if bool_decide (take 8 (content f) = hdf5_signature) then
      if hdf5 f then
        match attrs f !! "CTA PRODUCT DESCRIPTION"%string with
        | None => Ok false
        | Some description =>
            if bool_decide (description = "DL1 Data Product"%string) then
              match attrs f !! "CTA PRODUCT DATA MODEL VERSION"%string with
              | None => Raise (KeyError (StrKey "CTA PRODUCT DATA MODEL VERSION"))
              | Some version => Ok (bool_decide (version = "v1.0.0"%string))
              end
            else Ok false
        end
      else Raise HDF5ExtError
    else Ok false.
Proof.
  unfold is_compatible, getitem.
  destruct (decide (take 8 (content f) = hdf5_signature)) as [Hsig|Hsig].
  2: { by rewrite bool_decide_eq_true_2, bool_decide_eq_false_2. }
  rewrite (bool_decide_eq_false_2 (_ ≠ _)) by (by intros ?).
  rewrite (bool_decide_eq_true_2 (_ = _)) by done.
  destruct (hdf5 f); [|done]. cbn [negb].
  destruct (attrs f !! "CTA PRODUCT DESCRIPTION"%string) as [description|] eqn:Hd.
  2: { rewrite bool_decide_eq_true_2; [done|]. by apply not_elem_of_dom. }
  rewrite bool_decide_eq_false_2.
  2: { intros Hn. apply Hn, elem_of_dom. eauto. }
  simpl. destruct (decide (description = "DL1 Data Product"%string)) as [->|Hne].
  2: { by rewrite bool_decide_eq_true_2, bool_decide_eq_false_2. }
  rewrite (bool_decide_eq_false_2 (_ ≠ _)) by (by intros ?).
  rewrite (bool_decide_eq_true_2 (_ = _)) by done.
  destruct (attrs f !! "CTA PRODUCT DATA MODEL VERSION"%string) as [version|]; [|done].
  simpl. destruct (decide (version = "v1.0.0"%string)) as [->|Hne].
  - rewrite (bool_decide_eq_false_2 (_ ≠ _)) by (by intros ?).
    by rewrite bool_decide_eq_true_2.
  - by rewrite bool_decide_eq_true_2, bool_decide_eq_false_2.
Qed.
(** * The claims *)

(** C1: pointing resolution should select the monitoring row nearest in time
    to the trigger, the row at 20 for time stamps [10, 20, 30] and trigger
    time 21.  The source takes [argmin] of the signed difference, so for
    these time stamps and the array event triggered at 21 it selects index 0,
    the row at time stamp 10, and the event carries that row's azimuth (100)
    instead of the azimuth of the row at 20 (200). *)
Theorem C1_array_pointing_takes_earliest_row :
  ap_time <$> subarray_pointing Sample.base = [10; 20; 30] ∧
  argmin (minus_scalar [10; 20; 30] 21) = Ok 0%nat ∧
  ∃ d, _fill_array_pointing Sample.base
         (begin_event 0 (Sample.trigger_row [true; true] 2) (new_data "")) = Ok d ∧
       trigger_time d = 21 ∧
       pointing_array_azimuth d = ap_array_azimuth <$> subarray_pointing Sample.base !! 0%nat ∧
       pointing_array_azimuth d ≠ ap_array_azimuth <$> subarray_pointing Sample.base !! 1%nat.
Proof.
  split; [done|]. split; [done|].
  eexists. split; [vm_compute; reflexivity|]. by vm_compute.
Qed.

(** C2: every cursor should advance exactly once per yielded event and no
    trigger row should be consumed without being assembled into an event.
    On the sample file, whose trigger table holds events 1 to 4, the run ends
    by exhaustion after yielding two events, built from rows 2 and 4; rows 1
    and 3 are drawn by the loop header and dropped.  The shower cursor moves
    once per yielded event, so event 2 carries the shower of row 1 and event
    4 that of row 2, and two shower rows are left unread. *)
Theorem C2_loop_header_drops_every_other_row :
  ∃ run, _generate_events Sample.base ∅ = Ok run ∧
    stop run = Exhausted ∧
    tr_event_id <$> subarray_trigger Sample.base = [1; 2; 3; 4] ∧
    index_event_id <$> yielded run = [2; 4] ∧
    mc <$> yielded run = [Some 101; Some 102] ∧
    mc_shower_reader (final run) = [103; 104].
Proof. eexists. split; [vm_compute; reflexivity|]. by vm_compute. Qed.

(** C3: the yielded events should be numbered 0, 1, 2, ... and, with no cap,
    be as many as the length accessor reports.  The numbering holds, but on
    the sample file the length accessor reports 4 while the run yields 2
    events, numbered 0 and 1. *)
Theorem C3_yields_half_of_len :
  ∃ run, _generate_events Sample.base ∅ = Ok run ∧
    stop run = Exhausted ∧
    count <$> yielded run = [0; 1]%nat ∧
    length (yielded run) = 2%nat ∧
    len Sample.base = 4%nat.
Proof. eexists. split; [vm_compute; reflexivity|]. by vm_compute. Qed.

(** In general the numbering is gapless from 0 and at most half of the
    trigger rows become events. *)
Lemma generate_events_counts f a run :
  _generate_events f a = Ok run →
  count <$> yielded run = seq 0 (length (yielded run)) ∧
  (2 * length (yielded run) ≤ len f)%nat.
Proof.
  unfold _generate_events. intros H.
  apply bind_Ok in H as (st0 & _ & H). injection H as <-.
  split; [apply events_loop_counts | apply events_loop_length].
Qed.

(** C4: [is_compatible] should answer false, and never raise, for a file
    with the signature whose metadata lacks a key.  For the sample file
    without the data-model-version attribute, whose signature and product
    description both match, the probe raises a KeyError. *)
Theorem C4_missing_version_attribute_raises :
  take 8 (content Sample.no_version) = hdf5_signature ∧
  attrs Sample.no_version !! "CTA PRODUCT DESCRIPTION"%string = Some "DL1 Data Product"%string ∧
  attrs Sample.no_version !! "CTA PRODUCT DATA MODEL VERSION"%string = None ∧
  is_compatible Sample.no_version =
    Raise (KeyError (StrKey "CTA PRODUCT DATA MODEL VERSION")).
Proof. by vm_compute. Qed.

(** C5, as claimed, fails on the sample file: telescope 2 has a trigger time
    and no image table, and is a key of the yielded event's [dl1.tel]. *)
Lemma C5_counterexample :
  ¬ (∀ run ev tel tables,
       _generate_events Sample.base ∅ = Ok run → ev ∈ yielded run →
       tel ∈ TelMap.keys (trigger_tel ev) →
       images Sample.base = Some tables → tel_name tel ∉ dom tables →
       tel ∉ TelMap.keys (dl1_tel ev)).
Proof.
  intros Hclaim.
  destruct (_generate_events Sample.base ∅) as [run|] eqn:Hrun; [|by vm_compute in Hrun].
  destruct (yielded run) as [|ev evs] eqn:Hev.
  { vm_compute in Hrun. injection Hrun as <-. discriminate Hev. }
  eapply (Hclaim run ev 2%nat); [done| | | reflexivity | |].
  - rewrite Hev. apply list_elem_of_here.
  - vm_compute in Hrun. injection Hrun as <-. injection Hev as <- _.
    apply list_elem_of_further, list_elem_of_here.
  - apply not_elem_of_dom. by vm_compute.
  - vm_compute in Hrun. injection Hrun as <-. injection Hev as <- _.
    apply list_elem_of_further, list_elem_of_here.
Qed.
(** C5, amended: in every yielded event, a telescope with a trigger time
    whose image table is missing keeps an entry in [dl1.tel], holding only
    default values; one whose parameters table is missing keeps an entry
    without parameters.  The turn of a telescope without an image table
    raises nothing, moves no cursor and appends one diagnostic to the log, so
    the loop goes on with the next telescope. *)
Theorem C5_missing_table_leaves_unfilled_entry f a run ev tel :
  _generate_events f a = Ok run → ev ∈ yielded run →
  tel ∈ TelMap.keys (trigger_tel ev) →
  (∀ tables, images f = Some tables → tel_name tel ∉ dom tables →
     TelMap.get tel (dl1_tel ev) = Some default_dl1 ∧
     ∀ st tels, tel_name tel ∉ dom (image_iterators st) → excluded a tel = false →
       fill_dl1_loop f a (tel :: tels) st =
         fill_dl1_loop f a tels
           (debug (MissingFromImageTable tel)
              (with_data (set_dl1_tel (TelMap.touch default_dl1 tel) (data st)) st))) ∧
  (∀ tables, parameters f = Some tables → tel_name tel ∉ dom tables →
     ∃ dl1, TelMap.get tel (dl1_tel ev) = Some dl1 ∧ dl1_parameters dl1 = None).
Proof.
  intros Hrun Hev Htel.
  destruct (generate_events_yielded _ _ _ _ Hrun Hev)
    as (st0 & c & row & st & st' & Hsetup & _ & Hi & Hr & Hbody & ->).
  destruct (setup_Ok _ _ Hsetup) as (_ & _ & Himages & Hparams & _).
  destruct (event_body_own_turn _ _ _ _ _ _ _ _ Hbody Htel)
    as (st1 & st2 & Hturn & Hi1 & Hr1 & Hfresh & ->).
  split.
  - intros tables Htables Hmissing.
    destruct (Himages _ Htables) as [Hits Hlevel].
    split.
    + rewrite fill_dl1_tel_missing_image in Hturn; [|done|].
      * injection Hturn as <-. simpl. unfold TelMap.touch.
        by rewrite get_setdefault_with_eq, Hfresh.
      * by rewrite Hi1, Hi, Hits.
    + intros st3 tels Hmissing3 Hex. simpl.
      by rewrite Hex, fill_dl1_tel_missing_image.
  - intros tables Htables Hmissing.
    destruct (Hparams _ Htables) as [Hrds Hlevel].
    eapply fill_dl1_tel_missing_parameters; [done| |done|done].
    by rewrite Hr1, Hr, Hrds.
Qed.

Lemma C5_witness :
  ∃ run ev, _generate_events Sample.base ∅ = Ok run ∧ ev ∈ yielded run ∧
    2%nat ∈ TelMap.keys (trigger_tel ev) ∧
    (∀ tables, images Sample.base = Some tables → tel_name 2 ∉ dom tables →
       TelMap.get 2%nat (dl1_tel ev) = Some default_dl1 ∧
       ∀ st tels, tel_name 2 ∉ dom (image_iterators st) → excluded ∅ 2 = false →
         fill_dl1_loop Sample.base ∅ (2%nat :: tels) st =
           fill_dl1_loop Sample.base ∅ tels
             (debug (MissingFromImageTable 2)
                (with_data (set_dl1_tel (TelMap.touch default_dl1 2) (data st)) st))) ∧
    (∀ tables, parameters Sample.base = Some tables → tel_name 2 ∉ dom tables →
       ∃ dl1, TelMap.get 2%nat (dl1_tel ev) = Some dl1 ∧ dl1_parameters dl1 = None).
Proof.
  do 2 eexists. split_and!.
  - vm_compute. reflexivity.
  - apply list_elem_of_here.
  - apply list_elem_of_further, list_elem_of_here.
  - eapply (C5_missing_table_leaves_unfilled_entry Sample.base ∅ _ _ 2%nat).
    + vm_compute. reflexivity.
    + apply list_elem_of_here.
    + apply list_elem_of_further, list_elem_of_here.
  - eapply (C5_missing_table_leaves_unfilled_entry Sample.base ∅ _ _ 2%nat).
    + vm_compute. reflexivity.
    + apply list_elem_of_here.
    + apply list_elem_of_further, list_elem_of_here.
Defined.
(** C6, as claimed, fails on the sample file: both data levels are present,
    telescope 2 has a trigger time and a parameters table but no image
    table, and the yielded event carries no parameters for it. *)
Lemma C6_counterexample :
  ¬ (∀ run ev tel image_tables parameter_tables,
       _generate_events Sample.base ∅ = Ok run → ev ∈ yielded run →
       datalevels Sample.base = Some [DL1_IMAGES; DL1_PARAMETERS] →
       images Sample.base = Some image_tables →
       parameters Sample.base = Some parameter_tables →
       tel ∈ TelMap.keys (trigger_tel ev) →
       tel_name tel ∉ dom image_tables → tel_name tel ∈ dom parameter_tables →
       ∃ dl1, TelMap.get tel (dl1_tel ev) = Some dl1 ∧ is_Some (dl1_parameters dl1)).
Proof.
  intros Hclaim.
  edestruct Hclaim with (tel := 2%nat) as (dl1 & Hget & Hsome).
  - vm_compute. reflexivity.
  - apply list_elem_of_here.
  - reflexivity.
  - reflexivity.
  - reflexivity.
  - apply list_elem_of_further, list_elem_of_here.
  - apply not_elem_of_dom. vm_compute. reflexivity.
  - apply elem_of_dom. vm_compute. eauto.
  - vm_compute in Hget. injection Hget as <-. by destruct Hsome.
Qed.

(** C6, amended: with both data levels present, a telescope with a trigger
    time and no image table is skipped for the rest of its turn.  Its entry
    in the yielded event's [dl1.tel] carries no parameters, and its turn
    returns with both cursor tables as they were, the parameter cursor of
    that telescope included, and one more diagnostic in the log. *)
Theorem C6_missing_image_table_skips_parameters f a run ev tel image_tables :
  _generate_events f a = Ok run → ev ∈ yielded run →
  datalevels f = Some [DL1_IMAGES; DL1_PARAMETERS] →
  images f = Some image_tables →
  tel ∈ TelMap.keys (trigger_tel ev) →
  tel_name tel ∉ dom image_tables →
  (∃ dl1, TelMap.get tel (dl1_tel ev) = Some dl1 ∧ dl1_parameters dl1 = None) ∧
  ∀ st, tel_name tel ∉ dom (image_iterators st) →
    ∃ st', fill_dl1_tel f tel st = Ok st' ∧
           param_readers st' = param_readers st ∧
           image_iterators st' = image_iterators st ∧
           log st' = log st ++ [MissingFromImageTable tel].
Proof.
  intros Hrun Hev Hlevels Htables Htel Hmissing. split.
  - destruct (generate_events_yielded _ _ _ _ Hrun Hev)
      as (st0 & c & row & st & st' & Hsetup & _ & Hi & _ & Hbody & ->).
    destruct (setup_Ok _ _ Hsetup) as (_ & _ & Himages & _).
    destruct (Himages _ Htables) as [Hits Hlevel].
    destruct (event_body_own_turn _ _ _ _ _ _ _ _ Hbody Htel)
      as (st1 & st2 & Hturn & Hi1 & _ & Hfresh & ->).
    rewrite fill_dl1_tel_missing_image in Hturn; [|done|].
    + injection Hturn as <-. simpl. unfold TelMap.touch.
      rewrite get_setdefault_with_eq, Hfresh. by eexists.
    + by rewrite Hi1, Hi, Hits.
  - intros st Hmissing'. eexists. split.
    + apply fill_dl1_tel_missing_image; [by rewrite Hlevels | done].
    + done.
Qed.

Lemma C6_witness :
  ∃ run ev, _generate_events Sample.base ∅ = Ok run ∧ ev ∈ yielded run ∧
    datalevels Sample.base = Some [DL1_IMAGES; DL1_PARAMETERS] ∧
    images Sample.base = Some Sample.images_tel_001 ∧
    2%nat ∈ TelMap.keys (trigger_tel ev) ∧
    (tel_name 2 ∉ dom Sample.images_tel_001) ∧
    (∃ dl1, TelMap.get 2%nat (dl1_tel ev) = Some dl1 ∧ dl1_parameters dl1 = None) ∧
    ∀ st, tel_name 2 ∉ dom (image_iterators st) →
      ∃ st', fill_dl1_tel Sample.base 2 st = Ok st' ∧
             param_readers st' = param_readers st ∧
             image_iterators st' = image_iterators st ∧
             log st' = log st ++ [MissingFromImageTable 2].
Proof.
  assert (tel_name 2 ∉ dom Sample.images_tel_001) as Hmissing.
  { apply not_elem_of_dom. vm_compute. reflexivity. }
  do 2 eexists. split_and!.
  - vm_compute. reflexivity.
  - apply list_elem_of_here.
  - reflexivity.
  - reflexivity.
  - apply list_elem_of_further, list_elem_of_here.
  - exact Hmissing.
  - eapply (C6_missing_image_table_skips_parameters Sample.base ∅ _ _ 2%nat).
    + vm_compute. reflexivity.
    + apply list_elem_of_here.
    + reflexivity.
    + reflexivity.
    + apply list_elem_of_further, list_elem_of_here.
    + exact Hmissing.
  - eapply (C6_missing_image_table_skips_parameters Sample.base ∅ _ _ 2%nat).
    + vm_compute. reflexivity.
    + apply list_elem_of_here.
    + reflexivity.
    + reflexivity.
    + apply list_elem_of_further, list_elem_of_here.
    + exact Hmissing.
Defined.

(** C7: the run header of an event should be the header that the run table
    holds for the event's own observation id; the source's comment on
    [_parse_mc_headers] says as much ("so each event can have the correct
    mcheader assigned by matching the obs_id").  The reader decodes every row
    into the one container it was given, and the registry binds that one
    object under every observation id.  On the sample file of two merged
    runs, whose run table gives header 7 to observation 1 and header 8 to
    observation 2, both entries of the registry read 8, and the two events
    yielded, both of observation 1, carry header 8. *)
Theorem C7_merged_runs_share_the_last_header :
  configuration_simulation_run Sample2.merged =
    Some [ {| run_obs_id := 1; run_header := 7 |}; {| run_obs_id := 2; run_header := 8 |} ] ∧
  _parse_mc_headers Sample2.merged !! 1 = Some 8 ∧
  _parse_mc_headers Sample2.merged !! 2 = Some 8 ∧
  ∃ run, _generate_events Sample2.merged ∅ = Ok run ∧
    index_obs_id <$> yielded run = [1; 1] ∧
    mcheader <$> yielded run = [Some 8; Some 8].
Proof.
  split; [reflexivity|]. split; [by vm_compute|]. split; [by vm_compute|].
  eexists. split; [vm_compute; reflexivity|]. by vm_compute.
Qed.

(** In general: the run header of every event yielded from a simulation file
    is the header of the last row of the run table, and the observation id
    of the event is one of the ids of that table. *)
Lemma yielded_run_header_is_last_row f a run ev :
  _generate_events f a = Ok run → is_simulation f = true → ev ∈ yielded run →
  ∃ rows row,
    configuration_simulation_run f = Some rows ∧
    index_obs_id ev ∈ run_obs_id <$> rows ∧
    last rows = Some row ∧ mcheader ev = Some (run_header row).
Proof.
  intros Hrun Hsim Hev.
  destruct (generate_events_yielded _ _ _ _ Hrun Hev)
    as (st0 & c & row & st & st' & _ & _ & _ & _ & Hbody & ->).
  destruct (event_body_Ok _ _ _ _ _ _ _ Hbody) as (_&_&Hobs&_&_&_&_&_&_&Hmc).
  destruct (Hmc Hsim) as [[header Hheader] Hlook]. rewrite <-Hobs in Hlook.
  rewrite Hheader in Hlook. symmetry in Hlook.
  destruct (configuration_simulation_run f) as [rows|] eqn:Hrows.
  2: { unfold _parse_mc_headers in Hlook. rewrite Hrows in Hlook.
       by rewrite lookup_empty in Hlook. }
  destruct (parse_mc_headers_lookup f rows _ _ Hrows Hlook) as (last_row & Hlast & ->).
  exists rows, last_row. split_and!; [done| |done..].
  apply (parse_mc_headers_keys f rows _ Hrows). by eexists.
Qed.

(** The sample file whose run table lacks observation 1 stops at its first
    event with that KeyError; the shower row of the event has been drawn by
    then. *)
Example unbound_observation_raises :
  ∃ run, _generate_events Sample.unbound ∅ = Ok run ∧
    yielded run = [] ∧ stop run = Raised (KeyError (IntKey 1)) ∧
    mc_shower_reader (final run) = [102; 103; 104] ∧
    mc (data (final run)) = Some 101 ∧ mcheader (data (final run)) = None.
Proof. eexists. split; [vm_compute; reflexivity|]. by vm_compute. Qed.

(** C8, as claimed, fails on the sample file whose trigger bitmaps name
    telescope 1 only while its telescope-trigger table also lists telescope
    2: the yielded event has an entry for telescope 2 in [dl1.tel], and 2 is
    not among its triggered telescopes. *)
Lemma C8_counterexample :
  ¬ (∀ run ev tel,
       _generate_events Sample.stray ∅ = Ok run → ev ∈ yielded run →
       tel ∈ TelMap.keys (dl1_tel ev) → tel ∈ trigger_tels_with_trigger ev).
Proof.
  intros Hclaim.
  assert (∃ run ev, _generate_events Sample.stray ∅ = Ok run ∧ ev ∈ yielded run ∧
                    2%nat ∈ TelMap.keys (dl1_tel ev) ∧
                    trigger_tels_with_trigger ev = [1%nat])
    as (run & ev & Hrun & Hev & Hkey & Htels).
  { do 2 eexists. split_and!.
    - vm_compute. reflexivity.
    - apply list_elem_of_here.
    - apply list_elem_of_further, list_elem_of_here.
    - reflexivity. }
  pose proof (Hclaim run ev 2%nat Hrun Hev Hkey) as Hbad.
  rewrite Htels in Hbad. apply list_elem_of_singleton in Hbad. discriminate Hbad.
Qed.

(** C8, amended: in every yielded event the keys of [dl1.tel] and of
    [pointing.tel] are keys of [trigger.tel]; every key of [trigger.tel] is a
    telescope that the telescope-trigger table lists for the event's
    observation and event id; with a non-empty allow-list the keys of all
    three maps are members of it; and the keys of [dl1.tel] are among the
    event's triggered telescopes whenever the telescope-trigger table lists,
    for each array event, only telescopes set in that event's bitmap. *)
Theorem C8_per_telescope_maps_closed f a run ev :
  _generate_events f a = Ok run → ev ∈ yielded run →
  (∀ tel, tel ∈ TelMap.keys (dl1_tel ev) → tel ∈ TelMap.keys (trigger_tel ev)) ∧
  (∀ tel, tel ∈ TelMap.keys (pointing_tel ev) → tel ∈ TelMap.keys (trigger_tel ev)) ∧
  (∀ tel, tel ∈ TelMap.keys (trigger_tel ev) →
     ∃ i, i ∈ telescope_trigger f ∧ tt_tel_id i = tel ∧
          tt_obs_id i = index_obs_id ev ∧ tt_event_id i = index_event_id ev) ∧
  (a ≠ ∅ →
     ∀ tel, tel ∈ TelMap.keys (dl1_tel ev) ∨ tel ∈ TelMap.keys (pointing_tel ev) ∨
            tel ∈ TelMap.keys (trigger_tel ev) → tel ∈ a) ∧
  ((∀ i row, i ∈ telescope_trigger f → row ∈ subarray_trigger f →
      tt_obs_id i = tr_obs_id row → tt_event_id i = tr_event_id row →
      tt_tel_id i ∈ where_plus_1 (tr_tels_with_trigger row)) →
   ∀ tel, tel ∈ TelMap.keys (dl1_tel ev) → tel ∈ trigger_tels_with_trigger ev).
Proof.
  intros Hrun Hev.
  destruct (generate_events_yielded _ _ _ _ Hrun Hev)
    as (st0 & c & row & st & st' & _ & Hrow & _ & _ & Hbody & ->).
  apply body_rows_subseteq in Hrow.
  destruct (event_body_Ok _ _ _ _ _ _ _ Hbody)
    as (Hh & _ & Hobs & Hevent & Htels & _ & _ & Hpointing & Hdl1 & _).
  apply header_inv in Hh as (_&_&_&Htel&_&_).
  destruct (triggered_keys f a c row st) as [_ Hkeys].
  rewrite <-Htel in Hkeys, Hpointing, Hdl1.
  assert (∀ tel, tel ∈ TelMap.keys (trigger_tel (data st')) → a ≠ ∅ → tel ∈ a) as Hallowed.
  { intros tel Hin Hne. destruct (Hkeys _ Hin) as [Hex _]. by apply excluded_false. }
  split_and!.
  - done.
  - done.
  - intros tel Hin. destruct (Hkeys _ Hin) as (_ & i & ? & ? & ? & ?).
    exists i. rewrite Hobs, Hevent. done.
  - intros Hne tel [Hin|[Hin|Hin]]; apply Hallowed; auto.
  - intros Hfile tel Hin. rewrite Htels.
    destruct (Hkeys _ (Hdl1 _ Hin)) as (_ & i & ? & <- & ? & ?).
    by apply Hfile.
Qed.

Lemma C8_witness :
  ∃ run ev, _generate_events Sample.base {[1%nat]} = Ok run ∧ ev ∈ yielded run ∧
    ({[1%nat]} ≠@{gset nat} ∅ →
       ∀ tel, tel ∈ TelMap.keys (dl1_tel ev) ∨ tel ∈ TelMap.keys (pointing_tel ev) ∨
              tel ∈ TelMap.keys (trigger_tel ev) → tel ∈@{gset nat} {[1%nat]}).
Proof.
  do 2 eexists. split_and!.
  - vm_compute. reflexivity.
  - apply list_elem_of_here.
  - eapply (C8_per_telescope_maps_closed Sample.base {[1%nat]}).
    + vm_compute. reflexivity.
    + apply list_elem_of_here.
Defined.

(** C9, as claimed, fails on the sample file that has neither group and no
    process-type attribute: the generator reads that attribute before it
    tests the data levels, and the failure is the KeyError of the attribute
    set. *)
Lemma C9_counterexample :
  ¬ (∀ f a, images f = None → parameters f = None →
            _generate_events f a = Raise TypeError).
Proof.
  intros Hclaim.
  specialize (Hclaim Sample2.no_levels_no_origin ∅ eq_refl eq_refl).
  vm_compute in Hclaim. discriminate Hclaim.
Qed.

(** C9, amended: when the file has neither an images nor a parameters group,
    [datalevels] is [None], and the generator fails before its loop: with
    the TypeError of the membership test against [None] when the root has
    the process-type attribute, which the generator reads first, and with
    the KeyError of that attribute otherwise. *)
Theorem C9_no_datalevels_is_None_and_TypeError f a :
  images f = None → parameters f = None →
  datalevels f = None ∧
  raises (_generate_events f a) ∧
  (is_Some (attrs f !! "CTA PROCESS TYPE"%string) →
   _generate_events f a = Raise TypeError) ∧
  (attrs f !! "CTA PROCESS TYPE"%string = None →
   _generate_events f a = Raise (KeyError (StrKey "CTA PROCESS TYPE"))).
Proof.
  intros Hi Hp.
  assert (datalevels f = None) as Hlevels.
  { unfold datalevels. by rewrite Hi, Hp. }
  split; [done|].
  unfold _generate_events, setup, getitem. rewrite Hlevels.
  destruct (attrs f !! "CTA PROCESS TYPE"%string) as [origin|]; simpl.
  - split_and!; [by eexists | done | done].
  - split_and!; [by eexists | by intros [? ?] | done].
Qed.

Lemma C9_witness :
  images Sample.no_levels = None ∧ parameters Sample.no_levels = None ∧
  is_Some (attrs Sample.no_levels !! "CTA PROCESS TYPE"%string) ∧
  datalevels Sample.no_levels = None ∧
  _generate_events Sample.no_levels ∅ = Raise TypeError.
Proof.
  assert (is_Some (attrs Sample.no_levels !! "CTA PROCESS TYPE"%string)) as Hattr.
  { vm_compute. eauto. }
  split_and!; [reflexivity | reflexivity | exact Hattr | |].
  - apply (C9_no_datalevels_is_None_and_TypeError Sample.no_levels ∅); reflexivity.
  - apply (C9_no_datalevels_is_None_and_TypeError Sample.no_levels ∅);
      [reflexivity | reflexivity | exact Hattr].
Defined.




(** The sample file that has no pointing table for telescope 2 and an empty
    array table stops at its first event with the ValueError. *)
Example missing_pointing_node_behind_empty_table :
  ∃ run, _generate_events Sample2.no_pointing_at_all ∅ = Ok run ∧
    yielded run = [] ∧ stop run = Raised ValueError.
Proof. eexists. split; [vm_compute; reflexivity|]. by vm_compute. Qed.

(** The sample file without a pointing table for telescope 2 stops at its
    first event with the IndexError of that subscript, the pointing of
    telescope 1 already filled in. *)
Example missing_pointing_node_raises :
  ∃ run, _generate_events Sample.no_pointing_node ∅ = Ok run ∧
    yielded run = [] ∧ stop run = Raised (IndexError (StrKey "tel_002")) ∧
    TelMap.keys (pointing_tel (data (final run))) = [1%nat].
Proof. eexists. split; [vm_compute; reflexivity|]. by vm_compute. Qed.

(** * Further properties *)

(** ** The compatibility probe *)

(** X1: [is_compatible] answers true exactly for the files that start with
    the HDF5 signature and whose root attributes carry both the expected
    product description and the expected data-model version. *)
Theorem X1_is_compatible_true_iff f :
  is_compatible f = Ok true ↔
  take 8 (content f) = hdf5_signature ∧
  attrs f !! "CTA PRODUCT DESCRIPTION"%string = Some "DL1 Data Product"%string ∧
  attrs f !! "CTA PRODUCT DATA MODEL VERSION"%string = Some "v1.0.0"%string.
Proof.
  rewrite is_compatible_cases.
  case_bool_decide as Hsig; [|split; [done | by intros [? _]]].
  destruct (hdf5 f) eqn:Hopen.
  2: { split; [done|]. intros (_ & Hd & _). apply attrs_Some in Hd. congruence. }
  destruct (attrs f !! "CTA PRODUCT DESCRIPTION"%string) as [description|];
    [|split; [done | by intros (_ & ? & _)]].
  case_bool_decide as Hd.
  2: { split; [done|]. intros (_ & [= ->] & _). done. }
  subst description.
  destruct (attrs f !! "CTA PRODUCT DATA MODEL VERSION"%string) as [version|];
    [|split; [done | by intros (_ & _ & ?)]].
  case_bool_decide as Hv.
  - subst version. done.
  - split; [done|]. intros (_ & _ & [= ->]). done.
Qed.

(** X2: [is_compatible] raises in two cases only, both behind a matching
    signature: what follows the signature is nothing PyTables can open, and
    the HDF5ExtError of [tables.open_file] escapes; or the file opens, the
    product description matches and the data-model-version attribute is
    missing, and the KeyError of the unguarded version subscript escapes.
    In every other case it returns a boolean. *)
Theorem X2_is_compatible_raises_iff f :
  (is_compatible f = Raise HDF5ExtError ↔
   take 8 (content f) = hdf5_signature ∧ hdf5 f = false) ∧
  (is_compatible f = Raise (KeyError (StrKey "CTA PRODUCT DATA MODEL VERSION")) ↔
   take 8 (content f) = hdf5_signature ∧ hdf5 f = true ∧
   attrs f !! "CTA PRODUCT DESCRIPTION"%string = Some "DL1 Data Product"%string ∧
   attrs f !! "CTA PRODUCT DATA MODEL VERSION"%string = None) ∧
  (∀ e, is_compatible f = Raise e →
        e = HDF5ExtError ∨ e = KeyError (StrKey "CTA PRODUCT DATA MODEL VERSION")).
Proof.
  rewrite is_compatible_cases.
  case_bool_decide as Hsig.
  2: { split_and!; [split; [done | by intros [? _]] .. | done]. }
  destruct (hdf5 f) eqn:Hopen.
  2: { split_and!; [done | split; [done | by intros (_ & ? & _)] |].
       intros e [= <-]. by left. }
  destruct (attrs f !! "CTA PRODUCT DESCRIPTION"%string) as [description|].
  2: { split_and!; [split; [done | by intros [_ ?]] | | done].
       split; [done | by intros (_ & _ & ? & _)]. }
  case_bool_decide as Hd.
  2: { split_and!; [split; [done | by intros [_ ?]] | | done].
       split; [done|]. intros (_ & _ & [= ->] & _). done. }
  subst description.
  destruct (attrs f !! "CTA PRODUCT DATA MODEL VERSION"%string) as [version|].
  - split_and!; [split; [done | by intros [_ ?]] | | done].
    split; [done | by intros (_ & _ & _ & ?)].
  - split_and!; [split; [done | by intros [_ ?]] | done |].
    intros e [= <-]. by right.
Qed.

(** The sample file that is a signature and nothing else raises the former,
    the sample file without the version attribute the latter. *)
Example is_compatible_raises :
  is_compatible Sample2.signature_only = Raise HDF5ExtError ∧
  is_compatible Sample.no_version =
    Raise (KeyError (StrKey "CTA PRODUCT DATA MODEL VERSION")).
Proof. by vm_compute. Qed.

(** X3: a file shorter than eight bytes, the empty file included, is
    answered with false whatever its attributes are. *)
Theorem X3_is_compatible_short_file f :
  (length (content f) < 8)%nat → is_compatible f = Ok false.
Proof.
  intros Hlen. rewrite is_compatible_cases.
  rewrite bool_decide_eq_false_2; [done|].
  intros Hsig. apply (f_equal length) in Hsig.
  rewrite length_take in Hsig. change (length hdf5_signature) with 8%nat in Hsig. lia.
Qed.

Lemma X3_witness :
  (length (content Sample2.truncated) < 8)%nat ∧
  is_compatible Sample2.truncated = Ok false.
Proof.
  assert (length (content Sample2.truncated) < 8)%nat as Hlen by (vm_compute; lia).
  split; [exact Hlen|]. apply (X3_is_compatible_short_file Sample2.truncated), Hlen.
Defined.

(** ** The data levels *)

(** X4: when [datalevels] answers a tuple, the tuple is not empty, has no
    repetition, and holds each level exactly when the group of that level
    exists; it answers [None] exactly when neither group exists. *)
Theorem X4_datalevels_reflects_groups f :
  (datalevels f = None ↔ images f = None ∧ parameters f = None) ∧
  ∀ levels, datalevels f = Some levels →
    levels ≠ [] ∧ NoDup levels ∧
    (DL1_IMAGES ∈ levels ↔ is_Some (images f)) ∧
    (DL1_PARAMETERS ∈ levels ↔ is_Some (parameters f)).
Proof.
  unfold datalevels.
  destruct (images f) as [itabs|], (parameters f) as [ptabs|]; simpl.
  all: split; [split; [by intros ? | by intros [? ?]] |].
  all: intros levels Hl; try discriminate Hl; injection Hl as <-.
  all: split_and!; [done | by apply (bool_decide_unpack _) | |].
  all: split; intros H;
    first [ by eexists
          | by apply (bool_decide_unpack _)
          | by destruct H
          | by apply (bool_decide_pack _) in H ].
Qed.

Lemma X4_witness :
  datalevels Sample.base = Some [DL1_IMAGES; DL1_PARAMETERS] ∧
  [DL1_IMAGES; DL1_PARAMETERS] ≠ [] ∧ NoDup [DL1_IMAGES; DL1_PARAMETERS] ∧
  (DL1_IMAGES ∈ [DL1_IMAGES; DL1_PARAMETERS] ↔ is_Some (images Sample.base)) ∧
  (DL1_PARAMETERS ∈ [DL1_IMAGES; DL1_PARAMETERS] ↔ is_Some (parameters Sample.base)).
Proof.
  split; [reflexivity|].
  apply (proj2 (X4_datalevels_reflects_groups Sample.base)). reflexivity.
Defined.

(** ** Decoding the trigger bitmap *)

Lemma elem_of_where_plus_1_from mask : ∀ i tel,
  tel ∈ where_plus_1_from i mask ↔
  ∃ j, mask !! j = Some true ∧ tel = (i + j + 1)%nat.
Proof.
  induction mask as [|b mask IH]; intros i tel; simpl.
  - split; [by intros ?%elem_of_nil | by intros (j & ? & _)].
  - assert (tel ∈ where_plus_1_from (S i) mask ↔
            ∃ j, (b :: mask) !! S j = Some true ∧ tel = (i + S j + 1)%nat) as Htail.
    { rewrite IH. split; intros (j & ? & ->); exists j; (split; [done | lia]). }
    destruct b.
    + rewrite elem_of_cons, Htail. split.
      * intros [->|(j & ? & ?)]; [exists 0%nat; split; [done | lia] | eauto].
      * intros ([|j] & Hj & ->); [left; lia | right; eauto].
    + rewrite Htail. split.
      * intros (j & ? & ?). eauto.
      * intros ([|j] & Hj & ->); [done | eauto].
Qed.

Lemma where_plus_1_from_sorted mask : ∀ i,
  StronglySorted lt (where_plus_1_from i mask) ∧
  Forall (λ tel, (i < tel)%nat) (where_plus_1_from i mask).
Proof.
  induction mask as [|b mask IH]; intros i; simpl.
  - split; constructor.
  - destruct (IH (S i)) as [Hs Hf]. destruct b.
    + split.
      * constructor; [done|]. eapply Forall_impl; [done|]. simpl. lia.
      * constructor; [lia|]. eapply Forall_impl; [done|]. simpl. lia.
    + split; [done|]. eapply Forall_impl; [done|]. simpl. lia.
Qed.

(** X5: the telescope ids decoded from a trigger bitmap are the positions
    of the set bits plus one; so id 0 never occurs and no id exceeds the
    length of the bitmap. *)
Theorem X5_where_plus_1_members mask tel :
  tel ∈ where_plus_1 mask ↔ ∃ j, mask !! j = Some true ∧ tel = S j.
Proof.
  unfold where_plus_1. rewrite elem_of_where_plus_1_from.
  split; intros (j & ? & ->); exists j; (split; [done | lia]).
Qed.

(** X6: the decoded telescope ids come out in strictly increasing order,
    hence without repetition. *)
Theorem X6_where_plus_1_increasing mask :
  StronglySorted lt (where_plus_1 mask) ∧ NoDup (where_plus_1 mask).
Proof.
  destruct (where_plus_1_from_sorted mask 0) as [Hs _].
  split; [done|]. unfold where_plus_1.
  induction Hs as [|tel tels _ IH Hall]; constructor; [|done].
  intros Hin. eapply Forall_forall in Hall; [|done]. lia.
Qed.

(** ** Observation ids *)

Lemma elem_of_insert_unique x l y :
  y ∈ insert_unique x l ↔ y = x ∨ y ∈ l.
Proof.
  induction l as [|z l IH]; simpl.
  - rewrite list_elem_of_singleton. split; [by left | by intros [?|?%elem_of_nil]].
  - destruct (Z.ltb_spec x z); [by rewrite elem_of_cons|].
    destruct (Z.eqb_spec x z) as [->|Hne].
    + rewrite elem_of_cons. tauto.
    + rewrite !elem_of_cons, IH. tauto.
Qed.

Lemma insert_unique_sorted x l :
  StronglySorted Z.lt l → StronglySorted Z.lt (insert_unique x l).
Proof.
  induction 1 as [|z l Hs IH Hall]; simpl.
  - repeat constructor.
  - destruct (Z.ltb_spec x z) as [Hlt|Hge].
    + constructor; [by constructor|]. constructor; [done|].
      eapply Forall_impl; [done|]. simpl. lia.
    + destruct (Z.eqb_spec x z) as [->|Hne]; [by constructor|].
      constructor; [done|]. apply Forall_forall. intros y Hy.
      apply elem_of_insert_unique in Hy as [->|Hy]; [lia|].
      by eapply Forall_forall in Hall.
Qed.

(** X7: [obs_ids] lists the observation ids of the array-trigger table in
    strictly increasing order, each exactly once, and nothing else. *)
Theorem X7_obs_ids_sorted_distinct f :
  StronglySorted Z.lt (obs_ids f) ∧
  NoDup (obs_ids f) ∧
  ∀ obs_id, obs_id ∈ obs_ids f ↔ ∃ row, row ∈ subarray_trigger f ∧ tr_obs_id row = obs_id.
Proof.
  unfold obs_ids.
  assert (∀ l, StronglySorted Z.lt (np_unique l)) as Hsorted.
  { induction l; simpl; [constructor | by apply insert_unique_sorted]. }
  assert (∀ l y, y ∈ np_unique l ↔ y ∈ l) as Helem.
  { induction l as [|x l IH]; intros y; simpl; [done|].
    rewrite elem_of_insert_unique, elem_of_cons, IH. done. }
  split_and!.
  - apply Hsorted.
  - specialize (Hsorted (tr_obs_id <$> subarray_trigger f)).
    induction Hsorted as [|z l _ IH Hall]; constructor; [|done].
    intros Hin. eapply Forall_forall in Hall; [|done]. lia.
  - intros obs_id. rewrite Helem, list_elem_of_fmap. split.
    + intros (row & -> & ?). eauto.
    + intros (row & ? & <-). eauto.
Qed.

(** ** Table names *)

Lemma pretty_N_go_leading x : ∀ s,
  (0 < x)%N → ∃ c r, pretty_N_go x s = String c r ∧ c ≠ "0"%char.
Proof.
  induction (N.lt_wf_0 x) as [x _ IH]; intros s Hx.
  rewrite pretty_N_go_step by done.
  destruct (N.eq_0_gt_0_cases (x `div` 10)) as [Hq|Hq].
  - rewrite Hq, pretty_N_go_0. eexists _, _. split; [done|].
    assert (x < 10)%N as Hlt by (by apply N.div_small_iff in Hq).
    rewrite N.mod_small by done. intros Hzero.
    assert (x = 0)%N as -> by (apply pretty_N_char_inj; [done | lia | done]).
    lia.
  - apply IH; [|done]. by apply N.div_lt.
Qed.

(** The decimal numeral of a number is not empty and has no leading zero,
    unless it is the numeral "0" itself. *)
Lemma pretty_nat_numeral (n : nat) :
  pretty n ≠ ""%string ∧ ∀ r, pretty n = String "0" r → r = ""%string.
Proof.
  unfold pretty, pretty_nat, pretty, pretty_N.
  case_decide as Hn; [split; [done | by intros r [= <-]]|].
  destruct (pretty_N_go_leading (N.of_nat n) "") as (c & r & -> & Hc); [lia|].
  split; [done|]. intros r' [= -> _]. done.
Qed.

Lemma zfill3_inj s s' :
  s ≠ ""%string → (∀ r, s = String "0" r → r = ""%string) →
  s' ≠ ""%string → (∀ r, s' = String "0" r → r = ""%string) →
  zfill3 s = zfill3 s' → s = s'.
Proof.
  intros Hs Hz Hs' Hz'.
  destruct s as [|c1 [|c2 [|c3 r]]]; [done|..];
    (destruct s' as [|d1 [|d2 [|d3 r']]]; [done|..]); simpl; intros Heq;
    simplify_eq; try done.
  all: first [ by specialize (Hz _ eq_refl) | by specialize (Hz' _ eq_refl) ].
Qed.

Lemma tel_name_inj tel tel' : tel_name tel = tel_name tel' → tel = tel'.
Proof.
  unfold tel_name. intros Heq.
  assert (zfill3 (pretty tel) = zfill3 (pretty tel')) as Hz.
  { simpl in Heq. by injection Heq. }
  destruct (pretty_nat_numeral tel) as [? ?], (pretty_nat_numeral tel') as [? ?].
  apply zfill3_inj in Hz; [|done..].
  by apply (inj pretty) in Hz.
Qed.

(** X8: distinct telescope ids name distinct tables, so two telescopes
    never share an image table, a parameters table or a pointing table; and
    every table name is "tel_" followed by at least three characters. *)
Theorem X8_tel_name_inj tel tel' :
  (tel_name tel = tel_name tel' → tel = tel') ∧
  (∃ digits, tel_name tel = "tel_" +:+ digits ∧ (3 ≤ String.length digits)%nat).
Proof.
  split; [apply tel_name_inj|].
  exists (zfill3 (pretty tel)). split; [done|].
  unfold zfill3. destruct (pretty tel) as [|c1 [|c2 [|c3 r]]]; simpl; lia.
Qed.

Lemma X8_witness : tel_name 7 = tel_name 7 ∧ 7%nat = 7%nat.
Proof.
  split; [reflexivity|]. apply (proj1 (X8_tel_name_inj 7 7)). reflexivity.
Defined.

(** ** More of what the loop body leaves alone *)

Lemma fill_telescope_trigger_keeps f a d :
  origin_mc (fill_telescope_trigger f a d) = origin_mc d ∧
  array_pointing (fill_telescope_trigger f a d) = array_pointing d.
Proof.
  unfold fill_telescope_trigger.
  generalize (where_event (index_obs_id d) (index_event_id d) (telescope_trigger f)).
  intros rows. revert d. induction rows as [|i rows IH]; intros d; simpl; [done|].
  destruct (excluded a (tt_tel_id i)); [apply IH|].
  destruct (IH (set_trigger_tel
     (TelMap.setdefault_with default_trigger (tt_tel_id i)
        (λ _, {| time := Some (tt_telescopetrigger_time i) |})) d)) as [-> ->].
  done.
Qed.

Lemma fill_telescope_pointing_loop_keeps f a tels : ∀ d d',
  fill_telescope_pointing_loop f a tels d = Ok d' →
  origin_mc d' = origin_mc d ∧ array_pointing d' = array_pointing d.
Proof.
  induction tels as [|tel tels IH]; intros d d' H; simpl in H.
  - by injection H as <-.
  - destruct (excluded a tel); [by apply IH|].
    apply bind_Ok in H as (d1 & H1 & H).
    destruct (IH _ _ H) as [-> ->].
    unfold fill_one_telescope_pointing in H1. inv_Ok. done.
Qed.

Lemma fill_dl1_tel_keeps f tel st st' :
  fill_dl1_tel f tel st = Ok st' →
  origin_mc (data st') = origin_mc (data st) ∧
  array_pointing (data st') = array_pointing (data st).
Proof.
  unfold fill_dl1_tel. intros H.
  set (st0 := with_data _ st) in *.
  assert (origin_mc (data st0) = origin_mc (data st) ∧
          array_pointing (data st0) = array_pointing (data st)) as [<- <-] by done.
  clearbody st0.
  apply bind_Ok in H as (has_images & _ & H).
  destruct (has_images && _); [by injection H as <-|].
  apply bind_Ok in H as (st1 & H1 & H).
  assert (origin_mc (data st1) = origin_mc (data st0) ∧
          array_pointing (data st1) = array_pointing (data st0)) as [<- <-].
  { destruct has_images; [|by injection H1 as <-].
    unfold read_image in H1. inv_Ok. done. }
  apply bind_Ok in H as (has_parameters & _ & H).
  destruct (has_parameters && _); [by injection H as <-|].
  destruct has_parameters; [|by injection H as <-].
  unfold read_parameters in H. inv_Ok. done.
Qed.

Lemma fill_dl1_loop_keeps f a tels : ∀ st st',
  fill_dl1_loop f a tels st = Ok st' →
  origin_mc (data st') = origin_mc (data st) ∧
  array_pointing (data st') = array_pointing (data st).
Proof.
  induction tels as [|tel tels IH]; intros st st' H; simpl in H.
  - by injection H as <-.
  - destruct (excluded a tel); [by apply IH|].
    apply bind_Ok in H as (st1 & H1 & H).
    destruct (IH _ _ H) as [-> ->]. by eapply fill_dl1_tel_keeps.
Qed.

(** What a successful pass of the loop body does to the fields outside the
    per-telescope maps. *)
Lemma event_body_fields f a mc_headers counter row st st' :
  event_body f a mc_headers counter row st = Ok st' →
  meta_origin (data st') = meta_origin (data st) ∧
  trigger_time (data st') = tr_time row ∧
  (∃ d, _fill_array_pointing f (triggered f a counter row st) = Ok d ∧
        array_pointing (data st') = array_pointing d) ∧
  (if is_simulation f
   then ∃ shower_row, mc_shower_reader st = shower_row :: mc_shower_reader st' ∧
                      mc (data st') = Some shower_row
   else mc_shower_reader st' = mc_shower_reader st ∧
        mc (data st') = mc (data st) ∧ mcheader (data st') = mcheader (data st)).
Proof.
  intros Hbody.
  destruct (event_body_Ok _ _ _ _ _ _ _ Hbody) as (Hh & _).
  revert Hbody. unfold event_body. cbv zeta. fold (triggered f a counter row st).
  intros H. set (d := triggered f a counter row st) in *.
  apply bind_Ok in H as (d1 & H1 & H). apply bind_Ok in H as (d2 & H2 & H).
  apply bind_Ok in H as (st3 & H3 & H).
  destruct (fill_telescope_trigger_keeps f a (begin_event counter row (data st)))
    as [Ho0 _].
  change (origin_mc (begin_event counter row (data st)))
    with (origin_mc (data st)) in Ho0.
  fold (triggered f a counter row st) in Ho0. fold d in Ho0.
  assert (origin_mc d1 = origin_mc d) as Ho1.
  { unfold _fill_array_pointing in H1. inv_Ok. done. }
  destruct (fill_telescope_pointing_loop_keeps _ _ _ _ _ H2) as [Ho2 Ha2].
  destruct (fill_dl1_loop_keeps _ _ _ _ _ H) as [Ho4 Ha4].
  destruct (fill_dl1_loop_frame _ _ _ _ _ H) as (_ & _ & _ & Hs4 & _).
  assert (origin_mc d2 = origin_mc (data st)) as Ho by congruence.
  apply header_inv in Hh as (_ & Htime & _).
  assert (trigger_time d = tr_time row) as Htime0.
  { subst d. unfold triggered.
    by destruct (fill_telescope_trigger_spec f a (begin_event counter row (data st)))
      as (_ & -> & _). }
  assert (array_pointing (data st3) = array_pointing d2 ∧
          meta_origin (data st3) = meta_origin d2) as [Ha3 Hm3].
  { unfold fill_simulation in H3. simpl in H3. destruct (is_simulation f).
    - apply bind_Ok in H3 as ([shower_row reader'] & _ & H3).
      destruct (mc_headers !! _); [|done]. by injection H3 as <-.
    - by injection H3 as <-. }
  unfold origin_mc in *.
  split_and!.
  - congruence.
  - congruence.
  - exists d1. split; [done | congruence].
  - unfold fill_simulation in H3. simpl in H3. destruct (is_simulation f).
    + apply bind_Ok in H3 as ([shower_row reader'] & Hnext & H3).
      destruct (mc_headers !! _); [|done]. injection H3 as <-.
      simpl in *. exists shower_row.
      destruct (mc_shower_reader st) as [|r rs]; [done|].
      injection Hnext as -> ->. split; [congruence|].
      injection Ho4 as _ -> _. done.
    + injection H3 as <-. simpl in *. split; [done|].
      split; congruence.
Qed.

(** ** Whole runs, continued *)

Lemma setup_state f st :
  setup f = Ok st →
  ∃ origin, attrs f !! "CTA PROCESS TYPE"%string = Some origin ∧
            data st = new_data origin ∧
            mc_shower_reader st = match simulation f with
                                  | Some sim => shower sim
                                  | None => []
                                  end ∧
            log st = [].
Proof.
  unfold setup. intros H.
  apply bind_Ok in H as (origin & Ho & H). apply getitem_Ok in Ho.
  inv_Ok. exists origin. done.
Qed.

Lemma generate_events_loop f a run :
  _generate_events f a = Ok run →
  ∃ st0, setup f = Ok st0 ∧
         run = events_loop f a (_parse_mc_headers f) 0 (subarray_trigger f) st0.
Proof.
  unfold _generate_events. intros H.
  apply bind_Ok in H as (st0 & Hsetup & H). injection H as <-. eauto.
Qed.

Lemma events_loop_exhausted f a mc_headers events : ∀ c st,
  stop (events_loop f a mc_headers c events st) = Exhausted →
  (2 * length (yielded (events_loop f a mc_headers c events st)) = length events)%nat.
Proof.
  induction events as [|x|x row events IH] using pair_ind; intros c st; simpl;
    [done..|].
  destruct (event_body f a mc_headers c row st) as [st'|e]; simpl; [|done].
  intros Hstop. specialize (IH _ _ Hstop). lia.
Qed.

(** X9: a run that ends by exhaustion of the trigger reader has yielded
    exactly half as many events as the trigger table has rows; so on a table
    with an odd number of rows the generator never ends normally. *)
Theorem X9_exhausted_run_yields_half f a run :
  _generate_events f a = Ok run → stop run = Exhausted →
  (2 * length (yielded run) = len f)%nat.
Proof.
  intros Hrun Hstop. apply generate_events_loop in Hrun as (st0 & _ & ->).
  by apply events_loop_exhausted.
Qed.

Lemma X9_witness :
  ∃ run, _generate_events Sample.base ∅ = Ok run ∧ stop run = Exhausted ∧
         (2 * length (yielded run) = len Sample.base)%nat.
Proof.
  eexists. split_and!.
  - vm_compute. reflexivity.
  - reflexivity.
  - eapply (X9_exhausted_run_yields_half Sample.base ∅).
    + vm_compute. reflexivity.
    + reflexivity.
Defined.

(** X10: the yielded events are numbered 0, 1, 2, ... and the event
    numbered k carries the observation and event id of row 2k+1 of the
    trigger table (rows counted from 0): the events are built, in order,
    from every second row. *)
Theorem X10_events_follow_every_second_row f a run :
  _generate_events f a = Ok run →
  count <$> yielded run = seq 0 (length (yielded run)) ∧
  (λ ev, (index_obs_id ev, index_event_id ev)) <$> yielded run =
    take (length (yielded run))
         ((λ row, (tr_obs_id row, tr_event_id row)) <$> body_rows (subarray_trigger f)) ∧
  (∀ k row, body_rows (subarray_trigger f) !! k = Some row →
            subarray_trigger f !! (2 * k + 1)%nat = Some row).
Proof.
  intros Hrun. apply generate_events_loop in Hrun as (st0 & _ & ->).
  destruct (events_loop_counts f a (_parse_mc_headers f) (subarray_trigger f) 0 st0)
    as [Hc Hi].
  split_and!; [done..|].
  generalize (subarray_trigger f). intros events.
  induction events as [|x|x y events IH] using pair_ind; intros k row Hk;
    [done..|].
  destruct k as [|k]; simpl in Hk.
  - by injection Hk as <-.
  - apply IH in Hk. replace (2 * S k + 1)%nat with (S (S (2 * k + 1))) by lia. done.
Qed.

Lemma X10_witness :
  ∃ run, _generate_events Sample.base ∅ = Ok run ∧
    (λ ev, (index_obs_id ev, index_event_id ev)) <$> yielded run =
      take (length (yielded run))
           ((λ row, (tr_obs_id row, tr_event_id row))
              <$> body_rows (subarray_trigger Sample.base)).
Proof.
  eexists. split.
  - vm_compute. reflexivity.
  - eapply (X10_events_follow_every_second_row Sample.base ∅).
    vm_compute. reflexivity.
Defined.

(** X11: the generator reads the process-type root attribute before
    anything else: without it, it raises a KeyError before the first event;
    with it, every yielded event carries its value as origin. *)
Theorem X11_origin_is_process_type f a :
  (attrs f !! "CTA PROCESS TYPE"%string = None →
   _generate_events f a = Raise (KeyError (StrKey "CTA PROCESS TYPE"))) ∧
  (∀ run ev, _generate_events f a = Ok run → ev ∈ yielded run →
     attrs f !! "CTA PROCESS TYPE"%string = Some (meta_origin ev)).
Proof.
  split.
  - intros Hnone. unfold _generate_events, setup, getitem. by rewrite Hnone.
  - intros run ev Hrun Hev. apply generate_events_loop in Hrun as (st0 & Hsetup & ->).
    apply setup_state in Hsetup as (origin & -> & Hdata & _). f_equal.
    destruct (events_loop_yielded f a (_parse_mc_headers f)
                (λ st, meta_origin (data st) = origin))
      with (events := subarray_trigger f) (c := 0%nat) (st := st0) (ev := ev)
      as (c & row & st & st' & _ & Hinv & Hbody & ->); [| |done|].
    + intros c row st st' Hinv Hbody.
      destruct (event_body_fields _ _ _ _ _ _ _ Hbody) as (-> & _). done.
    + by rewrite Hdata.
    + destruct (event_body_fields _ _ _ _ _ _ _ Hbody) as (-> & _). done.
Qed.

Lemma X11_witness :
  ∃ run ev, _generate_events Sample.base ∅ = Ok run ∧ ev ∈ yielded run ∧
    attrs Sample.base !! "CTA PROCESS TYPE"%string = Some (meta_origin ev).
Proof.
  do 2 eexists. split_and!.
  - vm_compute. reflexivity.
  - apply list_elem_of_here.
  - eapply (X11_origin_is_process_type Sample.base ∅).
    + vm_compute. reflexivity.
    + apply list_elem_of_here.
Defined.

(** X12: with an empty array-monitoring pointing table no event is ever
    yielded: the first pass of the loop body raises the ValueError of
    [np.argmin] on an empty column. *)
Theorem X12_empty_array_pointing_table f a run :
  subarray_pointing f = [] → _generate_events f a = Ok run →
  yielded run = [] ∧ ((2 ≤ len f)%nat → stop run = Raised ValueError).
Proof.
  intros Hempty Hrun. apply generate_events_loop in Hrun as (st0 & _ & ->).
  assert (∀ c row st, event_body f a (_parse_mc_headers f) c row st = Raise ValueError)
    as Hbody.
  { intros c row st. unfold event_body, _fill_array_pointing. by rewrite Hempty. }
  unfold len. destruct (subarray_trigger f) as [|x [|row events]]; simpl.
  - split; [done | lia].
  - split; [done | lia].
  - rewrite Hbody. done.
Qed.

(** X13: the array pointing of a yielded event is the row of the
    array-monitoring table at the index that [argmin] answers for the column
    of time stamps less the event's own trigger time: the first row whose
    rounded signed difference to the trigger time is the least, never the
    row nearest in absolute value.  Where no difference is rounded, this is
    the first row with the least time stamp of the table, whatever the
    trigger time. *)
Theorem X13_array_pointing_of_every_event f a run ev :
  _generate_events f a = Ok run → ev ∈ yielded run →
  ∃ i row,
    argmin (minus_scalar (ap_time <$> subarray_pointing f) (trigger_time ev)) = Ok i ∧
    subarray_pointing f !! i = Some row ∧
    (∀ row', row' ∈ subarray_pointing f →
       fl64 (ap_time row - trigger_time ev) ≤ fl64 (ap_time row' - trigger_time ev)) ∧
    (exact_differences (ap_time <$> subarray_pointing f) (trigger_time ev) →
       argmin (ap_time <$> subarray_pointing f) = Ok i ∧
       ∀ row', row' ∈ subarray_pointing f → ap_time row ≤ ap_time row') ∧
    pointing_array_azimuth ev = Some (ap_array_azimuth row) ∧
    pointing_array_altitude ev = Some (ap_array_altitude row) ∧
    pointing_array_ra ev = Some (ap_array_ra row) ∧
    pointing_array_dec ev = Some (ap_array_dec row).
Proof.
  intros Hrun Hev.
  destruct (generate_events_yielded _ _ _ _ Hrun Hev)
    as (st0 & c & row0 & st & st' & _ & _ & _ & _ & Hbody & ->).
  destruct (event_body_fields _ _ _ _ _ _ _ Hbody) as (_ & _ & (d & Hd & Ha) & _).
  destruct (event_body_Ok _ _ _ _ _ _ _ Hbody) as (Hh & _).
  apply header_inv in Hh as (_&Htime&_).
  destruct (fill_array_pointing_takes_least_difference _ _ _ Hd)
    as (i & row & Hi & Hrow & Haz & Hal & Hra & Hde & Hle & _).
  rewrite <-Htime in Hi, Hle.
  exists i, row. unfold array_pointing in Ha.
  split_and!; [done|done|done| |congruence..].
  intros Hexact. rewrite argmin_minus_scalar in Hi by done. split; [done|].
  intros row' Hin. specialize (Hle _ Hin).
  rewrite !(exact_differences_elem _ _ _ Hexact) in Hle;
    [lia | by apply list_elem_of_fmap_2 | apply list_elem_of_fmap_2;
                                          by eapply list_elem_of_lookup_2].
Qed.

Lemma X13_witness :
  ∃ run ev, _generate_events Sample.base ∅ = Ok run ∧ ev ∈ yielded run ∧
    ∃ i row,
      argmin (minus_scalar (ap_time <$> subarray_pointing Sample.base)
                (trigger_time ev)) = Ok i ∧
      subarray_pointing Sample.base !! i = Some row ∧
      pointing_array_azimuth ev = Some (ap_array_azimuth row).
Proof.
  do 2 eexists. split_and!.
  - vm_compute. reflexivity.
  - apply list_elem_of_further, list_elem_of_here.
  - edestruct (X13_array_pointing_of_every_event Sample.base ∅)
      as (i & row & Hi & Hrow & _ & _ & Haz & _).
    + vm_compute. reflexivity.
    + apply list_elem_of_further, list_elem_of_here.
    + exists i, row. split_and!; [exact Hi | exact Hrow | exact Haz].
Defined.

Lemma X12_witness :
  ∃ run, subarray_pointing Sample2.no_array_pointing = [] ∧
         _generate_events Sample2.no_array_pointing ∅ = Ok run ∧
         yielded run = [] ∧
         ((2 ≤ len Sample2.no_array_pointing)%nat → stop run = Raised ValueError).
Proof.
  eexists. split_and!.
  - reflexivity.
  - vm_compute. reflexivity.
  - eapply (X12_empty_array_pointing_table Sample2.no_array_pointing ∅);
      [reflexivity | vm_compute; reflexivity].
  - eapply (X12_empty_array_pointing_table Sample2.no_array_pointing ∅);
      [reflexivity | vm_compute; reflexivity].
Defined.

(** ** Where a pass of the loop body leaves the state *)

Lemma fill_telescope_pointing_loop_leaves_Ok f a tels : ∀ d d',
  fill_telescope_pointing_loop f a tels d = Ok d' →
  fill_telescope_pointing_loop_leaves f a tels d = d'.
Proof.
  induction tels as [|t tels IH]; intros d d' H; simpl in *.
  - by injection H as <-.
  - destruct (excluded a t); [by apply IH|].
    apply bind_Ok in H as (d1 & H1 & H). rewrite H1. by apply IH.
Qed.

Lemma fill_simulation_leaves_Ok f mc_headers st st' :
  fill_simulation f mc_headers st = Ok st' → fill_simulation_leaves f mc_headers st = st'.
Proof.
  unfold fill_simulation, fill_simulation_leaves.
  destruct (is_simulation f); [|by intros [= <-]].
  destruct (next (mc_shower_reader st)) as [[shower_row reader']|e]; simpl; [|done].
  destruct (mc_headers !! _); [by intros [= <-] | done].
Qed.

Lemma fill_dl1_tel_leaves_Ok f tel st st' :
  fill_dl1_tel f tel st = Ok st' → fill_dl1_tel_leaves f tel st = st'.
Proof.
  unfold fill_dl1_tel, fill_dl1_tel_leaves.
  set (st0 := with_data _ st). clearbody st0.
  destruct (level_in DL1_IMAGES (datalevels f)) as [has_images|]; simpl; [|done].
  destruct (has_images && _); [by intros [= <-]|].
  destruct (if has_images then read_image tel st0 else Ok st0) as [st1|]; simpl; [|done].
  destruct (level_in DL1_PARAMETERS (datalevels f)) as [has_parameters|]; simpl; [|done].
  destruct (has_parameters && _); [by intros [= <-]|].
  destruct has_parameters; [|by intros [= <-]].
  destruct (read_parameters tel st1); [by intros [= <-] | done].
Qed.

Lemma fill_dl1_loop_leaves_Ok f a tels : ∀ st st',
  fill_dl1_loop f a tels st = Ok st' → fill_dl1_loop_leaves f a tels st = st'.
Proof.
  induction tels as [|t tels IH]; intros st st' H; simpl in *.
  - by injection H as <-.
  - destruct (excluded a t); [by apply IH|].
    apply bind_Ok in H as (st1 & H1 & H). rewrite H1. by apply IH.
Qed.

(** When the pass returns, it leaves the state it returns. *)
Lemma event_body_leaves_Ok f a mc_headers c row st st' :
  event_body f a mc_headers c row st = Ok st' →
  event_body_leaves f a mc_headers c row st = st'.
Proof.
  unfold event_body, event_body_leaves. cbv zeta. intros H.
  apply bind_Ok in H as (d1 & H1 & H). rewrite H1.
  apply bind_Ok in H as (d2 & H2 & H). rewrite H2.
  apply bind_Ok in H as (st3 & H3 & H). rewrite H3.
  by apply fill_dl1_loop_leaves_Ok.
Qed.

Lemma drawn_at_dom {R} name (m m' : gmap string (list R)) :
  drawn_at name m m' → dom m' = dom m.
Proof. intros [->|(r & rest & Hm & ->)]; [done|]. by eapply dom_insert_present. Qed.

Lemma drawn_at_other {R} name name' (m m' : gmap string (list R)) :
  drawn_at name m m' → name ≠ name' → m' !! name' = m !! name'.
Proof.
  intros [->|(r & rest & Hm & ->)] Hne; [done|]. by rewrite lookup_insert_ne.
Qed.

Lemma drawn_at_own {R} name (m m' : gmap string (list R)) :
  drawn_at name m m' → moved_at_most_one (m !! name) (m' !! name).
Proof.
  intros [->|(r & rest & Hm & ->)]; [by left|]. right.
  exists r, rest. by rewrite lookup_insert_eq.
Qed.

Lemma read_image_drawn tel st st' :
  read_image tel st = Ok st' →
  drawn_at (tel_name tel) (image_iterators st) (image_iterators st') ∧
  param_readers st' = param_readers st ∧
  mc_shower_reader st' = mc_shower_reader st ∧ log st' = log st.
Proof.
  unfold read_image. intros H.
  apply bind_Ok in H as (cursor & Hcursor%getitem_Ok & H).
  destruct cursor as [|image_row cursor']; [done|]. simpl in H. injection H as <-.
  split_and!; [|done..]. right. by exists image_row, cursor'.
Qed.

Lemma read_parameters_drawn tel st st' :
  read_parameters tel st = Ok st' →
  drawn_at (tel_name tel) (param_readers st) (param_readers st') ∧
  image_iterators st' = image_iterators st ∧
  mc_shower_reader st' = mc_shower_reader st ∧ log st' = log st.
Proof.
  unfold read_parameters. intros H.
  apply bind_Ok in H as (cursor & Hcursor%getitem_Ok & H).
  destruct cursor as [|params cursor']; [done|]. simpl in H. injection H as <-.
  split_and!; [|done..]. right. by exists params, cursor'.
Qed.

(** One turn of the per-telescope loop, however it ends: at most one row is
    drawn from each of the two cursors of its telescope, none from any other
    cursor, and at most one diagnostic is logged, for a table that the turn
    found missing. *)
Lemma fill_dl1_tel_leaves_spec f tel st :
  let st' := fill_dl1_tel_leaves f tel st in
  mc_shower_reader st' = mc_shower_reader st ∧
  drawn_at (tel_name tel) (image_iterators st) (image_iterators st') ∧
  drawn_at (tel_name tel) (param_readers st) (param_readers st') ∧
  (log st' = log st ∨
   (log st' = log st ++ [MissingFromImageTable tel] ∧
    level_in DL1_IMAGES (datalevels f) = Ok true ∧
    tel_name tel ∉ dom (image_iterators st)) ∨
   (log st' = log st ++ [MissingFromParametersTable tel] ∧
    level_in DL1_PARAMETERS (datalevels f) = Ok true ∧
    tel_name tel ∉ dom (param_readers st))).
Proof.
  cbv zeta. unfold fill_dl1_tel_leaves.
  set (st0 := with_data _ st).
  assert (mc_shower_reader st0 = mc_shower_reader st ∧
          image_iterators st0 = image_iterators st ∧
          param_readers st0 = param_readers st ∧ log st0 = log st)
    as (<- & <- & <- & <-) by done.
  clearbody st0.
  assert (∀ {R} name (m : gmap string (list R)), drawn_at name m m) as Hrefl
    by (by left).
  destruct (level_in DL1_IMAGES (datalevels f)) as [has_images|] eqn:Hhas;
    [|split_and!; auto].
  destruct has_images; simpl.
  - destruct (decide (tel_name tel ∈ dom (image_iterators st0))) as [Hin|Hn].
    2: { rewrite bool_decide_eq_true_2 by done. simpl.
         split_and!; auto. }
    rewrite bool_decide_eq_false_2 by (by intros Hn).
    destruct (read_image tel st0) as [st1|] eqn:H1; [|split_and!; auto].
    destruct (read_image_drawn _ _ _ H1) as (Hi1 & Hr1 & Hm1 & Hl1).
    destruct (level_in DL1_PARAMETERS (datalevels f)) as [has_parameters|] eqn:Hhasp;
      [|split_and!; [done|done|rewrite Hr1; auto|by left]].
    destruct has_parameters; simpl; [|split_and!; [done|done|rewrite Hr1; auto|by left]].
    destruct (decide (tel_name tel ∈ dom (param_readers st1))) as [Hin1|Hn1].
    + rewrite bool_decide_eq_false_2 by (by intros Hn).
      destruct (read_parameters tel st1) as [st2|] eqn:H2;
        [|split_and!; [done|done|rewrite Hr1; auto|by left]].
      destruct (read_parameters_drawn _ _ _ H2) as (Hr2 & Hi2 & Hm2 & Hl2).
      split_and!; [congruence | by rewrite Hi2 | by rewrite <-Hr1 | left; congruence].
    + rewrite bool_decide_eq_true_2 by done. simpl.
      split_and!; [done | done | rewrite Hr1; auto |].
      right; right. rewrite Hl1, <-Hr1. done.
  - destruct (level_in DL1_PARAMETERS (datalevels f)) as [has_parameters|] eqn:Hhasp;
      [|split_and!; auto].
    destruct has_parameters; simpl; [|split_and!; auto].
    destruct (decide (tel_name tel ∈ dom (param_readers st0))) as [Hin1|Hn1].
    + rewrite bool_decide_eq_false_2 by (by intros Hn).
      destruct (read_parameters tel st0) as [st2|] eqn:H2; [|split_and!; auto].
      destruct (read_parameters_drawn _ _ _ H2) as (Hr2 & Hi2 & Hm2 & Hl2).
      split_and!; [done | rewrite Hi2; auto | done | by left].
    + rewrite bool_decide_eq_true_2 by done. simpl. split_and!; auto.
Qed.

Lemma justified_log_turn f tel (st st' : State) :
  (∀ tables, images f = Some tables → dom (image_iterators st) = dom tables) →
  (∀ tables, parameters f = Some tables → dom (param_readers st) = dom tables) →
  (log st' = log st ∨
   (log st' = log st ++ [MissingFromImageTable tel] ∧
    level_in DL1_IMAGES (datalevels f) = Ok true ∧
    tel_name tel ∉ dom (image_iterators st)) ∨
   (log st' = log st ++ [MissingFromParametersTable tel] ∧
    level_in DL1_PARAMETERS (datalevels f) = Ok true ∧
    tel_name tel ∉ dom (param_readers st))) →
  Forall (justified f) (log st) → Forall (justified f) (log st').
Proof.
  intros Hi Hr Hlog Hjust.
  assert ((level_in DL1_IMAGES (datalevels f) = Ok true → is_Some (images f)) ∧
          (level_in DL1_PARAMETERS (datalevels f) = Ok true → is_Some (parameters f)))
    as [Himg Hpar].
  { unfold datalevels.
    destruct (images f), (parameters f); simpl; split; intros H; try done;
      by apply (f_equal (λ r, match r with Ok b => b | Raise _ => true end)) in H. }
  destruct Hlog as [->|[(-> & Hlevel & Hmissing)|(-> & Hlevel & Hmissing)]]; [done|..].
  - apply Forall_app. split; [done|]. constructor; [|constructor].
    destruct (Himg Hlevel) as [tables Htables]. exists tables.
    split; [done|]. by rewrite <-(Hi _ Htables).
  - apply Forall_app. split; [done|]. constructor; [|constructor].
    destruct (Hpar Hlevel) as [tables Htables]. exists tables.
    split; [done|]. by rewrite <-(Hr _ Htables).
Qed.

(** The per-telescope loop, however it ends. *)
Lemma fill_dl1_loop_leaves_spec f a tels : ∀ st,
  NoDup tels →
  let st' := fill_dl1_loop_leaves f a tels st in
  mc_shower_reader st' = mc_shower_reader st ∧
  dom (image_iterators st') = dom (image_iterators st) ∧
  dom (param_readers st') = dom (param_readers st) ∧
  (∀ tel, tel ∉ tels ∨ excluded a tel = true →
     image_iterators st' !! tel_name tel = image_iterators st !! tel_name tel ∧
     param_readers st' !! tel_name tel = param_readers st !! tel_name tel) ∧
  (∀ tel,
     moved_at_most_one (image_iterators st !! tel_name tel)
       (image_iterators st' !! tel_name tel) ∧
     moved_at_most_one (param_readers st !! tel_name tel)
       (param_readers st' !! tel_name tel)) ∧
  ((∀ tables, images f = Some tables → dom (image_iterators st) = dom tables) →
   (∀ tables, parameters f = Some tables → dom (param_readers st) = dom tables) →
   Forall (justified f) (log st) → Forall (justified f) (log st')).
Proof.
  cbv zeta. induction tels as [|t tels IH]; intros st Hnd; simpl.
  { split_and!; try done. intros tel; split; by left. }
  apply NoDup_cons in Hnd as [Hfresh Hnd].
  destruct (excluded a t) eqn:Hex.
  { destruct (IH st Hnd) as (Hm & Hdi & Hdr & Hother & Hmoved & Hlog).
    split_and!; [done..| |done|done].
    intros tel [Hnot|Hex']; apply Hother; [left|by right].
    by apply not_elem_of_cons in Hnot as [_ ?]. }
  pose proof (fill_dl1_tel_leaves_spec f t st) as Hturn. cbv zeta in Hturn.
  destruct Hturn as (Hm1 & Hi1 & Hr1 & Hl1).
  assert (∀ tel, t ≠ tel →
            image_iterators (fill_dl1_tel_leaves f t st) !! tel_name tel =
              image_iterators st !! tel_name tel ∧
            param_readers (fill_dl1_tel_leaves f t st) !! tel_name tel =
              param_readers st !! tel_name tel) as Hother1.
  { intros tel Hne.
    assert (tel_name t ≠ tel_name tel) as Hname by (by intros ?%tel_name_inj).
    split; by eapply drawn_at_other. }
  assert (∀ tel,
            moved_at_most_one (image_iterators st !! tel_name tel)
              (image_iterators (fill_dl1_tel_leaves f t st) !! tel_name tel) ∧
            moved_at_most_one (param_readers st !! tel_name tel)
              (param_readers (fill_dl1_tel_leaves f t st) !! tel_name tel)) as Hmoved1.
  { intros tel. destruct (decide (t = tel)) as [->|Hne].
    - split; by apply drawn_at_own.
    - destruct (Hother1 _ Hne) as [-> ->]. split; by left. }
  destruct (fill_dl1_tel f t st) as [st1|e] eqn:H1.
  2: { split_and!; [done | by eapply drawn_at_dom | by eapply drawn_at_dom | | done |].
       - intros tel Hcase. apply Hother1. intros ->.
         destruct Hcase as [Hnot|Hex']; [apply Hnot, list_elem_of_here | congruence].
       - intros Hi Hr. by eapply justified_log_turn. }
  apply fill_dl1_tel_leaves_Ok in H1. rewrite H1 in *. clear H1.
  destruct (IH st1 Hnd) as (Hm & Hdi & Hdr & Hother & Hmoved & Hlog).
  split_and!.
  - congruence.
  - rewrite Hdi. by eapply drawn_at_dom.
  - rewrite Hdr. by eapply drawn_at_dom.
  - intros tel Hcase.
    assert (t ≠ tel) as Hne.
    { destruct Hcase as [Hnot|Hex']; [|congruence].
      intros ->. apply Hnot, list_elem_of_here. }
    destruct (Hother tel) as [-> ->].
    { destruct Hcase as [Hnot|Hex']; [left|by right].
      by apply not_elem_of_cons in Hnot as [_ ?]. }
    by apply Hother1.
  - intros tel. destruct (decide (t = tel)) as [->|Hne].
    + destruct (Hother tel) as [-> ->]; [by left|]. apply Hmoved1.
    + destruct (Hother1 _ Hne) as [<- <-]. apply Hmoved.
  - intros Hi Hr Hjust. apply Hlog.
    + intros tables Ht. rewrite (drawn_at_dom _ _ _ Hi1). by apply Hi.
    + intros tables Ht. rewrite (drawn_at_dom _ _ _ Hr1). by apply Hr.
    + by eapply justified_log_turn.
Qed.

Lemma fill_simulation_leaves_spec f mc_headers st :
  let st' := fill_simulation_leaves f mc_headers st in
  header (data st') = header (data st) ∧
  image_iterators st' = image_iterators st ∧
  param_readers st' = param_readers st ∧ log st' = log st ∧
  (mc_shower_reader st' = mc_shower_reader st ∨
   ∃ shower_row, mc_shower_reader st = shower_row :: mc_shower_reader st').
Proof.
  cbv zeta. unfold fill_simulation_leaves.
  destruct (is_simulation f).
  - destruct (mc_shower_reader st) as [|shower_row reader'] eqn:Hreader; simpl.
    + split_and!; auto.
    + split_and!; try done.
      * by destruct (mc_headers !! _).
      * right. by exists shower_row.
  - split_and!; auto.
Qed.

(** One pass of the loop body, however it ends: the shower reader has moved
    by one row at most, every per-telescope cursor by one row at most and
    the cursors of a telescope outside the allow-list not at all, and the
    diagnostics logged are justified. *)
Lemma event_body_leaves_spec f a mc_headers c row st :
  let st' := event_body_leaves f a mc_headers c row st in
  (mc_shower_reader st' = mc_shower_reader st ∨
   ∃ shower_row, mc_shower_reader st = shower_row :: mc_shower_reader st') ∧
  dom (image_iterators st') = dom (image_iterators st) ∧
  dom (param_readers st') = dom (param_readers st) ∧
  (∀ tel, excluded a tel = true →
     image_iterators st' !! tel_name tel = image_iterators st !! tel_name tel ∧
     param_readers st' !! tel_name tel = param_readers st !! tel_name tel) ∧
  (∀ tel,
     moved_at_most_one (image_iterators st !! tel_name tel)
       (image_iterators st' !! tel_name tel) ∧
     moved_at_most_one (param_readers st !! tel_name tel)
       (param_readers st' !! tel_name tel)) ∧
  ((∀ tables, images f = Some tables → dom (image_iterators st) = dom tables) →
   (∀ tables, parameters f = Some tables → dom (param_readers st) = dom tables) →
   Forall (justified f) (log st) → Forall (justified f) (log st')).
Proof.
  cbv zeta. unfold event_body_leaves. cbv zeta. fold (triggered f a c row st).
  assert (∀ d,
    (mc_shower_reader (with_data d st) = mc_shower_reader st ∨
     ∃ shower_row, mc_shower_reader st = shower_row :: mc_shower_reader (with_data d st)) ∧
    dom (image_iterators (with_data d st)) = dom (image_iterators st) ∧
    dom (param_readers (with_data d st)) = dom (param_readers st) ∧
    (∀ tel, excluded a tel = true →
       image_iterators (with_data d st) !! tel_name tel =
         image_iterators st !! tel_name tel ∧
       param_readers (with_data d st) !! tel_name tel =
         param_readers st !! tel_name tel) ∧
    (∀ tel,
       moved_at_most_one (image_iterators st !! tel_name tel)
         (image_iterators (with_data d st) !! tel_name tel) ∧
       moved_at_most_one (param_readers st !! tel_name tel)
         (param_readers (with_data d st) !! tel_name tel)) ∧
    ((∀ tables, images f = Some tables → dom (image_iterators st) = dom tables) →
     (∀ tables, parameters f = Some tables → dom (param_readers st) = dom tables) →
     Forall (justified f) (log st) → Forall (justified f) (log (with_data d st))))
    as Hsame.
  { intros d. split_and!; [by left|done..| |done]. intros tel. split; by left. }
  destruct (_fill_array_pointing f (triggered f a c row st)) as [d1|] eqn:H1; [|done].
  destruct (_fill_telescope_pointing f a d1) as [d2|] eqn:H2; [|done].
  pose proof (fill_simulation_leaves_spec f mc_headers (with_data d2 st)) as Hsim.
  cbv zeta in Hsim. destruct Hsim as (Hh3 & Hi3 & Hr3 & Hl3 & Hm3).
  simpl in Hh3, Hi3, Hr3, Hl3, Hm3.
  destruct (fill_simulation f mc_headers (with_data d2 st)) as [st3|] eqn:H3.
  2: { rewrite Hi3, Hr3, Hl3. split_and!; [done..| |done]. intros tel. split; by left. }
  apply fill_simulation_leaves_Ok in H3. rewrite H3 in *. clear H3.
  destruct (fill_array_pointing_frame _ _ _ H1) as (Hh1 & _).
  destruct (fill_telescope_pointing_loop_frame _ _ _ _ _ H2) as (Hh2 & _).
  assert (header (data st3) = header (triggered f a c row st)) as Hh by congruence.
  apply header_inv in Hh as (_&_&_&Htel&_&_).
  destruct (triggered_keys f a c row st) as [Hnd _]. rewrite <-Htel in Hnd.
  pose proof (fill_dl1_loop_leaves_spec f a _ st3 Hnd) as Hloop. cbv zeta in Hloop.
  destruct Hloop as (Hm & Hdi & Hdr & Hother & Hmoved & Hlog).
  rewrite Hi3, Hr3, Hl3 in *.
  split_and!; [|done|done| |done|done].
  - rewrite Hm. done.
  - intros tel Hex. apply Hother. by right.
Qed.

(** A property of the state that every pass keeps, however it ends, and that
    does not depend on the scratch event, holds when the run stops. *)
Lemma events_loop_final f a mc_headers (I : State → Prop) :
  (∀ c row st, I st → I (event_body_leaves f a mc_headers c row st)) →
  (∀ d st, I st → I (with_data d st)) →
  ∀ events c st, I st → I (final (events_loop f a mc_headers c events st)).
Proof.
  intros Hinv Hdata events.
  induction events as [|x|x row events IH] using pair_ind; intros c st HI.
  - done.
  - simpl. by apply Hdata.
  - simpl. pose proof (Hinv c row st HI) as HI'.
    destruct (event_body f a mc_headers c row st) as [st'|e] eqn:Hbody; [|done].
    apply event_body_leaves_Ok in Hbody. rewrite Hbody in HI'. simpl. by apply IH.
Qed.

(** ** Simulation truth *)




(** X15: for a file without a simulation group, no yielded event carries a
    shower or a run header, whatever the run table of the file holds. *)
Theorem X15_observed_events_carry_no_truth f a run ev :
  _generate_events f a = Ok run → simulation f = None → ev ∈ yielded run →
  mc ev = None ∧ mcheader ev = None.
Proof.
  intros Hrun Hsim Hev. apply generate_events_loop in Hrun as (st0 & Hsetup & ->).
  apply setup_state in Hsetup as (origin & _ & Hdata & _).
  assert (is_simulation f = false) as Hsim'.
  { unfold is_simulation. rewrite Hsim. apply bool_decide_eq_false_2. by intros [? ?]. }
  destruct (events_loop_yielded f a (_parse_mc_headers f)
              (λ st, mc (data st) = None ∧ mcheader (data st) = None))
    with (events := subarray_trigger f) (c := 0%nat) (st := st0) (ev := ev)
    as (c & row & st & st' & _ & Hinv & Hbody & ->); [| |done|].
  - intros c row st st' [Hmc Hh] Hbody.
    destruct (event_body_fields _ _ _ _ _ _ _ Hbody) as (_ & _ & _ & Hkeep).
    rewrite Hsim' in Hkeep. destruct Hkeep as (_ & -> & ->). done.
  - by rewrite Hdata.
  - destruct Hinv as [Hmc Hh].
    destruct (event_body_fields _ _ _ _ _ _ _ Hbody) as (_ & _ & _ & Hkeep).
    rewrite Hsim' in Hkeep. destruct Hkeep as (_ & -> & ->). done.
Qed.

Lemma X15_witness :
  ∃ run ev, _generate_events Sample2.observed ∅ = Ok run ∧
    simulation Sample2.observed = None ∧ ev ∈ yielded run ∧
    mc ev = None ∧ mcheader ev = None.
Proof.
  do 2 eexists. split_and!.
  - vm_compute. reflexivity.
  - reflexivity.
  - apply list_elem_of_here.
  - eapply (X15_observed_events_carry_no_truth Sample2.observed ∅);
      [vm_compute; reflexivity | reflexivity | apply list_elem_of_here].
  - eapply (X15_observed_events_carry_no_truth Sample2.observed ∅);
      [vm_compute; reflexivity | reflexivity | apply list_elem_of_here].
Defined.

(** X16: in a file with a simulation group, an event is yielded only if the
    run table lists its observation id; in particular a file with a
    simulation group and no run table yields no event at all.  (The two
    probes look at different groups: [/simulation] and
    [/configuration/simulation].) *)
Theorem X16_simulation_events_need_run_row f a run :
  _generate_events f a = Ok run → is_simulation f = true →
  (∀ ev, ev ∈ yielded run →
     ∃ rows header_row,
       configuration_simulation_run f = Some rows ∧ header_row ∈ rows ∧
       run_obs_id header_row = index_obs_id ev) ∧
  (configuration_simulation_run f = None → yielded run = []).
Proof.
  intros Hrun Hsim.
  assert (∀ ev, ev ∈ yielded run →
            ∃ rows header_row,
              configuration_simulation_run f = Some rows ∧ header_row ∈ rows ∧
              run_obs_id header_row = index_obs_id ev) as Hrows.
  { intros ev Hev.
    destruct (generate_events_yielded _ _ _ _ Hrun Hev)
      as (st0 & c & row & st & st' & _ & _ & _ & _ & Hbody & ->).
    destruct (event_body_Ok _ _ _ _ _ _ _ Hbody) as (_&_&Hobs&_&_&_&_&_&_&Hmc).
    destruct (Hmc Hsim) as [Hsome Heq]. rewrite Heq in Hsome.
    destruct (configuration_simulation_run f) as [rows|] eqn:Hcfg.
    - eapply parse_mc_headers_keys in Hsome; [|done].
      apply list_elem_of_fmap in Hsome as (header_row & Hid & Hin).
      exists rows, header_row. split_and!; [done..|]. congruence.
    - unfold _parse_mc_headers in Hsome. rewrite Hcfg, lookup_empty in Hsome.
      by destruct Hsome. }
  split; [done|].
  intros Hnone. destruct (yielded run) as [|ev evs] eqn:Hy; [done|].
  destruct (Hrows ev) as (rows & _ & Hcfg & _); [apply list_elem_of_here|].
  congruence.
Qed.

Lemma X16_witness :
  ∃ run, _generate_events Sample.base ∅ = Ok run ∧ is_simulation Sample.base = true ∧
    ∀ ev, ev ∈ yielded run →
      ∃ rows header_row,
        configuration_simulation_run Sample.base = Some rows ∧ header_row ∈ rows ∧
        run_obs_id header_row = index_obs_id ev.
Proof.
  eexists. split_and!.
  - vm_compute. reflexivity.
  - reflexivity.
  - eapply (X16_simulation_events_need_run_row Sample.base ∅);
      [vm_compute; reflexivity | reflexivity].
Defined.

(** ** The per-telescope trigger times *)

(** X17: the per-telescope trigger map of a yielded event holds, for each
    telescope that passes the allow-list, the trigger time of the last row
    that the telescope-trigger table lists for this telescope under the
    event's observation and event id, and nothing else: no entry survives
    from an earlier event, and a telescope outside a non-empty allow-list
    has no entry. *)
Theorem X17_trigger_times_of_event f a run ev tel :
  _generate_events f a = Ok run → ev ∈ yielded run →
  TelMap.get tel (trigger_tel ev) =
    if excluded a tel then None
    else (λ i, {| time := Some (tt_telescopetrigger_time i) |}) <$>
         last (filter (λ i, tt_tel_id i = tel)
                 (where_event (index_obs_id ev) (index_event_id ev)
                    (telescope_trigger f))).
Proof.
  intros Hrun Hev.
  destruct (generate_events_yielded _ _ _ _ Hrun Hev)
    as (st0 & c & row & st & st' & _ & _ & _ & _ & Hbody & ->).
  destruct (event_body_Ok _ _ _ _ _ _ _ Hbody) as (Hh & _ & -> & -> & _).
  apply header_inv in Hh as (_&_&_&->&_&_).
  unfold triggered, fill_telescope_trigger. rewrite trigger_scan_get. simpl.
  destruct (excluded a tel); [done|]. by destruct (last _).
Qed.

Lemma X17_witness :
  ∃ run ev, _generate_events Sample.base ∅ = Ok run ∧ ev ∈ yielded run ∧
    TelMap.get 2%nat (trigger_tel ev) =
      if excluded ∅ 2 then None
      else (λ i, {| time := Some (tt_telescopetrigger_time i) |}) <$>
           last (filter (λ i, tt_tel_id i = 2%nat)
                   (where_event (index_obs_id ev) (index_event_id ev)
                      (telescope_trigger Sample.base))).
Proof.
  do 2 eexists. split_and!.
  - vm_compute. reflexivity.
  - apply list_elem_of_here.
  - eapply (X17_trigger_times_of_event Sample.base ∅);
      [vm_compute; reflexivity | apply list_elem_of_here].
Defined.


(** ** The per-telescope pointing *)

Lemma fill_one_telescope_pointing_entry f tel d d' :
  fill_one_telescope_pointing f tel d = Ok d' →
  ∃ table t i row,
    telescope_pointing f !! tel_name tel = Some table ∧
    TelMap.get tel (trigger_tel d) ≫= time = Some t ∧
    argmin (minus_scalar (tp_telescopetrigger_time <$> table) t) = Ok i ∧
    table !! i = Some row ∧
    pointing_tel d' =
      TelMap.setdefault_with default_pointing tel
        (λ _, {| azimuth := Some (tp_azimuth row); altitude := Some (tp_altitude row) |})
        (pointing_tel d).
Proof.
  unfold fill_one_telescope_pointing, minus_trigger_tel_time. intros H.
  apply bind_Ok in H as (table & Hnode & H).
  apply bind_Ok in H as (differences & Hdiff & H).
  apply bind_Ok in H as (i & Hi & H).
  apply bind_Ok in H as (row & Hrow & H). injection H as <-.
  destruct (telescope_pointing f !! tel_name tel) as [table'|]; [|done].
  injection Hnode as ->.
  destruct (TelMap.get tel (trigger_tel d) ≫= time) as [t|]; [|done].
  injection Hdiff as <-. unfold table_row in Hrow.
  destruct (table !! i) as [row'|] eqn:Hlook; [|done]. injection Hrow as ->.
  exists table, t, i, row. done.
Qed.

Lemma fill_telescope_pointing_loop_entries f a tels : ∀ d d',
  fill_telescope_pointing_loop f a tels d = Ok d' →
  (∀ k, k ∈ tels → excluded a k = false) → NoDup tels →
  (∀ k, k ∈ tels → k ∉ TelMap.keys (pointing_tel d)) →
  TelMap.keys (pointing_tel d') = TelMap.keys (pointing_tel d) ++ tels ∧
  (∀ k, k ∉ tels → TelMap.get k (pointing_tel d') = TelMap.get k (pointing_tel d)) ∧
  ∀ tel, tel ∈ tels →
    ∃ table t i row,
      telescope_pointing f !! tel_name tel = Some table ∧
      TelMap.get tel (trigger_tel d) ≫= time = Some t ∧
      argmin (minus_scalar (tp_telescopetrigger_time <$> table) t) = Ok i ∧
      table !! i = Some row ∧
      TelMap.get tel (pointing_tel d') =
        Some {| azimuth := Some (tp_azimuth row); altitude := Some (tp_altitude row) |}.
Proof.
  induction tels as [|t tels IH]; intros d d' H Hex Hnd Hfresh; simpl in H.
  - injection H as <-. rewrite app_nil_r. split_and!; [done..|].
    by intros tel ?%elem_of_nil.
  - rewrite (Hex t) in H by apply list_elem_of_here.
    apply bind_Ok in H as (d1 & H1 & H).
    apply NoDup_cons in Hnd as [Ht Hnd].
    destruct (fill_one_telescope_pointing_entry _ _ _ _ H1)
      as (table & time_t & i & row & Hnode & Htime & Hi & Hrow & Hp1).
    destruct (fill_one_telescope_pointing_frame _ _ _ _ H1) as (Hh1 & _ & _).
    apply header_inv in Hh1 as (_&_&_&Htel1&_&_).
    assert (TelMap.keys (pointing_tel d1) = TelMap.keys (pointing_tel d) ++ [t]) as Hk1.
    { rewrite Hp1, keys_setdefault_with.
      rewrite bool_decide_eq_false_2; [done|]. apply Hfresh, list_elem_of_here. }
    destruct (IH _ _ H) as (Hkeys & Hother & Hentries); [| done |..].
    { intros k Hk. by apply Hex, list_elem_of_further. }
    { intros k Hk. rewrite Hk1, elem_of_app, list_elem_of_singleton.
      intros [Hin| ->]; [|done].
      apply (Hfresh k); [by apply list_elem_of_further | done]. }
    split_and!.
    + by rewrite Hkeys, Hk1, <-app_assoc.
    + intros k Hk. apply not_elem_of_cons in Hk as [Hne Hk].
      rewrite Hother, Hp1 by done. by apply get_setdefault_with_ne.
    + intros tel [->|Hin]%elem_of_cons.
      * exists table, time_t, i, row. split_and!; [done..|].
        rewrite Hother, Hp1 by done. by rewrite get_setdefault_with_eq.
      * destruct (Hentries _ Hin) as (table' & t' & i' & row' & ? & Ht' & Hi' & ? & ?).
        exists table', t', i', row'. split_and!; [done| |done..].
        by rewrite <-Htel1.
Qed.

Lemma fill_dl1_loop_keys f a tels : ∀ st st',
  fill_dl1_loop f a tels st = Ok st' →
  (∀ k, k ∈ tels → excluded a k = false) → NoDup tels →
  (∀ k, k ∈ tels → k ∉ TelMap.keys (dl1_tel (data st))) →
  TelMap.keys (dl1_tel (data st')) = TelMap.keys (dl1_tel (data st)) ++ tels.
Proof.
  induction tels as [|t tels IH]; intros st st' H Hex Hnd Hfresh; simpl in H.
  - injection H as <-. by rewrite app_nil_r.
  - rewrite (Hex t) in H by apply list_elem_of_here.
    apply bind_Ok in H as (st1 & H1 & H).
    apply NoDup_cons in Hnd as [Ht Hnd].
    destruct (fill_dl1_tel_turn _ _ _ _ H1) as (_&_&_&_&_&_&g&Hg).
    assert (TelMap.keys (dl1_tel (data st1)) = TelMap.keys (dl1_tel (data st)) ++ [t])
      as Hk1.
    { rewrite Hg, keys_setdefault_with.
      rewrite bool_decide_eq_false_2; [done|]. apply Hfresh, list_elem_of_here. }
    rewrite (IH _ _ H), Hk1, <-app_assoc; [done| | done |].
    + intros k Hk. by apply Hex, list_elem_of_further.
    + intros k Hk. rewrite Hk1, elem_of_app, list_elem_of_singleton.
      intros [Hin| ->]; [|done].
      apply (Hfresh k); [by apply list_elem_of_further | done].
Qed.

(** The pointing part of a successful pass of the loop body. *)
Lemma event_body_pointing f a mc_headers counter row st st' :
  event_body f a mc_headers counter row st = Ok st' →
  ∃ d1 d2,
    _fill_array_pointing f (triggered f a counter row st) = Ok d1 ∧
    fill_telescope_pointing_loop f a
      (TelMap.keys (trigger_tel (triggered f a counter row st))) d1 = Ok d2 ∧
    trigger_tel d1 = trigger_tel (triggered f a counter row st) ∧
    pointing_tel d1 = [] ∧
    pointing_tel (data st') = pointing_tel d2.
Proof.
  unfold event_body. cbv zeta. fold (triggered f a counter row st).
  intros H. set (d := triggered f a counter row st) in *.
  apply bind_Ok in H as (d1 & H1 & H). apply bind_Ok in H as (d2 & H2 & H).
  apply bind_Ok in H as (st3 & H3 & H).
  destruct (fill_array_pointing_frame _ _ _ H1) as (Hh1 & Hp1 & _).
  destruct (fill_simulation_frame _ _ _ _ H3) as (_ & Hp3 & _).
  destruct (fill_dl1_loop_frame _ _ _ _ _ H) as (_ & Hp4 & _).
  apply header_inv in Hh1 as (_&_&_&Htel1&_&_).
  exists d1, d2. split_and!; [done| |done| |].
  - unfold _fill_telescope_pointing in H2. by rewrite <-Htel1.
  - rewrite Hp1. subst d. unfold triggered.
    by destruct (fill_telescope_trigger_spec f a (begin_event counter row (data st)))
      as (_&_&_&_&_&->&_).
  - rewrite Hp4, Hp3. done.
Qed.

(** X18: in every yielded event the three per-telescope maps have the same
    keys in the same order, without repetition: each telescope with a
    trigger time has a pointing entry and a DL1 entry, and no other
    telescope has one. *)
Theorem X18_per_telescope_maps_share_keys f a run ev :
  _generate_events f a = Ok run → ev ∈ yielded run →
  TelMap.keys (pointing_tel ev) = TelMap.keys (trigger_tel ev) ∧
  TelMap.keys (dl1_tel ev) = TelMap.keys (trigger_tel ev) ∧
  NoDup (TelMap.keys (trigger_tel ev)).
Proof.
  intros Hrun Hev.
  destruct (generate_events_yielded _ _ _ _ Hrun Hev)
    as (st0 & c & row & st & st' & _ & _ & _ & _ & Hbody & ->).
  destruct (triggered_keys f a c row st) as [Hnd Hkeys].
  destruct (event_body_pointing _ _ _ _ _ _ _ Hbody)
    as (d1 & d2 & _ & Hloop & _ & Hp1 & Hp).
  destruct (event_body_dl1 _ _ _ _ _ _ _ Hbody) as (st3 & Hdl1 & Htel & Hd3 & _).
  split_and!.
  - rewrite Hp, Htel.
    destruct (fill_telescope_pointing_loop_entries _ _ _ _ _ Hloop) as (-> & _);
      [|done| |by rewrite Hp1].
    + intros k Hk. by destruct (Hkeys _ Hk).
    + rewrite Hp1. by intros k _ ?%elem_of_nil.
  - rewrite (fill_dl1_loop_keys _ _ _ _ _ Hdl1), Hd3; [done| | |].
    + rewrite Htel. intros k Hk. by destruct (Hkeys _ Hk).
    + by rewrite Htel.
    + rewrite Hd3. by intros k _ ?%elem_of_nil.
  - by rewrite Htel.
Qed.

Lemma X18_witness :
  ∃ run ev, _generate_events Sample.base ∅ = Ok run ∧ ev ∈ yielded run ∧
    TelMap.keys (pointing_tel ev) = TelMap.keys (trigger_tel ev) ∧
    TelMap.keys (dl1_tel ev) = TelMap.keys (trigger_tel ev) ∧
    NoDup (TelMap.keys (trigger_tel ev)).
Proof.
  do 2 eexists. split_and!.
  - vm_compute. reflexivity.
  - apply list_elem_of_here.
  - eapply (X18_per_telescope_maps_share_keys Sample.base ∅);
      [vm_compute; reflexivity | apply list_elem_of_here].
  - eapply (X18_per_telescope_maps_share_keys Sample.base ∅);
      [vm_compute; reflexivity | apply list_elem_of_here].
  - eapply (X18_per_telescope_maps_share_keys Sample.base ∅);
      [vm_compute; reflexivity | apply list_elem_of_here].
Defined.

(** X19: in every yielded event, the pointing of a telescope with a trigger
    time is read from that telescope's own monitoring table, at the index
    that [argmin] answers for the column of time stamps less the telescope's
    own trigger time: the first row whose rounded signed difference to that
    time is the least.  Where no difference is rounded, this is the first
    row with the least time stamp of the table, whatever the trigger time of
    the telescope. *)
Theorem X19_telescope_pointing_of_event f a run ev tel :
  _generate_events f a = Ok run → ev ∈ yielded run →
  tel ∈ TelMap.keys (trigger_tel ev) →
  ∃ table t i row,
    telescope_pointing f !! tel_name tel = Some table ∧
    TelMap.get tel (trigger_tel ev) ≫= time = Some t ∧
    argmin (minus_scalar (tp_telescopetrigger_time <$> table) t) = Ok i ∧
    table !! i = Some row ∧
    (∀ row', row' ∈ table →
       fl64 (tp_telescopetrigger_time row - t) ≤ fl64 (tp_telescopetrigger_time row' - t)) ∧
    (exact_differences (tp_telescopetrigger_time <$> table) t →
       argmin (tp_telescopetrigger_time <$> table) = Ok i ∧
       ∀ row', row' ∈ table →
               tp_telescopetrigger_time row ≤ tp_telescopetrigger_time row') ∧
    TelMap.get tel (pointing_tel ev) =
      Some {| azimuth := Some (tp_azimuth row); altitude := Some (tp_altitude row) |}.
Proof.
  intros Hrun Hev Hin.
  destruct (generate_events_yielded _ _ _ _ Hrun Hev)
    as (st0 & c & row0 & st & st' & _ & _ & _ & _ & Hbody & ->).
  destruct (event_body_Ok _ _ _ _ _ _ _ Hbody) as (Hh & _).
  apply header_inv in Hh as (_&_&_&Htel&_&_). rewrite Htel in Hin |- *.
  destruct (triggered_keys f a c row0 st) as [Hnd Hkeys].
  destruct (event_body_pointing _ _ _ _ _ _ _ Hbody)
    as (d1 & d2 & _ & Hloop & Htel1 & Hp1 & ->).
  destruct (fill_telescope_pointing_loop_entries _ _ _ _ _ Hloop) as (_ & _ & Hentries);
    [|done| |].
  { intros k Hk. by destruct (Hkeys _ Hk). }
  { rewrite Hp1. by intros k _ ?%elem_of_nil. }
  destruct (Hentries _ Hin) as (table & t & i & row & Hnode & Ht & Hi & Hrow & Hget).
  rewrite Htel1 in Ht.
  exists table, t, i, row.
  assert (∀ row', row' ∈ table →
            fl64 (tp_telescopetrigger_time row - t) ≤
            fl64 (tp_telescopetrigger_time row' - t)) as Hle.
  { destruct (argmin_spec _ _ Hi) as (m & Hm & Hle & _).
    unfold minus_scalar in Hm, Hle. rewrite !list_lookup_fmap, Hrow in Hm.
    injection Hm as <-.
    intros row' [j Hj]%list_elem_of_lookup. apply (Hle j).
    by rewrite !list_lookup_fmap, Hj. }
  split_and!; [done..| |done].
  intros Hexact. rewrite argmin_minus_scalar in Hi by done. split; [done|].
  intros row' Hin'. specialize (Hle _ Hin').
  rewrite !(exact_differences_elem _ _ _ Hexact) in Hle;
    [lia | by apply list_elem_of_fmap_2 | apply list_elem_of_fmap_2;
                                          by eapply list_elem_of_lookup_2].
Qed.

Lemma X19_witness :
  ∃ run ev, _generate_events Sample.base ∅ = Ok run ∧ ev ∈ yielded run ∧
    2%nat ∈ TelMap.keys (trigger_tel ev) ∧
    ∃ table t i row,
      telescope_pointing Sample.base !! tel_name 2 = Some table ∧
      TelMap.get 2%nat (trigger_tel ev) ≫= time = Some t ∧
      argmin (minus_scalar (tp_telescopetrigger_time <$> table) t) = Ok i ∧
      table !! i = Some row ∧
      TelMap.get 2%nat (pointing_tel ev) =
        Some {| azimuth := Some (tp_azimuth row); altitude := Some (tp_altitude row) |}.
Proof.
  do 2 eexists. split_and!.
  - vm_compute. reflexivity.
  - apply list_elem_of_further, list_elem_of_here.
  - apply list_elem_of_further, list_elem_of_here.
  - edestruct (X19_telescope_pointing_of_event Sample.base ∅)
      as (table & t & i & row & Hnode & Ht & Hi & Hrow & _ & _ & Hget).
    + vm_compute. reflexivity.
    + apply list_elem_of_further, list_elem_of_here.
    + apply list_elem_of_further, list_elem_of_here.
    + exists table, t, i, row.
      split_and!; [exact Hnode | exact Ht | exact Hi | exact Hrow | exact Hget].
Defined.

(** ** The per-telescope cursors *)








(** One cursor followed through the generator loop: it moves by one row in
    each yielded event in which its telescope has a turn that reads it, and
    that event carries the row; the pass that raises, if any, moves it by
    one row at most. *)
Section demultiplexer.
Context {R V : Type}.
Variables (f : File) (a : gset nat) (mc_headers : gmap Z Z) (tel : nat).
Variables (cursor_of : State → option (list R)).
Variables (field : DL1CameraContainer → V) (of_row : R → V).
Variable (I : State → Prop).
Hypothesis Hstep : ∀ c row st st' cursor,
  I st → event_body f a mc_headers c row st = Ok st' →
  cursor_of st = Some cursor →
  I st' ∧
  if decide (tel ∈ TelMap.keys (trigger_tel (data st')))
  then ∃ r cursor', cursor = r :: cursor' ∧ cursor_of st' = Some cursor' ∧
                    field <$> TelMap.get tel (dl1_tel (data st')) = Some (of_row r)
  else cursor_of st' = Some cursor.
Hypothesis Hleaves : ∀ c row st,
  moved_at_most_one (cursor_of st) (cursor_of (event_body_leaves f a mc_headers c row st)).
Hypothesis Hdata : ∀ d st, cursor_of (with_data d st) = cursor_of st.

End demultiplexer.






(** The sample file of three trigger rows yields one event and stops with a
    RuntimeError when the loop body finds no row left; the cursors are where
    the one event left them, and the trigger container holds the row that
    the loop header drew, its bitmap undecoded. *)
Example odd_number_of_rows :
  ∃ run, _generate_events Sample2.three_rows ∅ = Ok run ∧
    index_event_id <$> yielded run = [2] ∧ stop run = Raised RuntimeError ∧
    mc_shower_reader (final run) = [102; 103; 104] ∧
    image_iterators (final run) !! tel_name 1 = Some (Sample.image_row <$> [2; 3; 4]) ∧
    count (data (final run)) = 1%nat ∧
    index_event_id (data (final run)) = 3 ∧
    trigger_tels_with_trigger (data (final run)) = [1%nat; 1%nat] ∧
    TelMap.keys (dl1_tel (data (final run))) = [].
Proof. eexists. split; [vm_compute; reflexivity|]. by vm_compute. Qed.

(** ** Pointing resolution on its own *)

(** X22: [_fill_array_pointing] succeeds exactly when the array-monitoring
    table is not empty, and then changes nothing but the four array angles;
    on an empty table it raises the ValueError of [np.argmin].  The row
    subscript that follows never fails. *)
Theorem X22_fill_array_pointing_total_on_nonempty f d :
  (subarray_pointing f = [] → _fill_array_pointing f d = Raise ValueError) ∧
  (subarray_pointing f ≠ [] →
   ∃ d', _fill_array_pointing f d = Ok d' ∧
         header d' = header d ∧ origin_mc d' = origin_mc d ∧
         pointing_tel d' = pointing_tel d ∧ dl1_tel d' = dl1_tel d).
Proof.
  split.
  - intros Hempty. unfold _fill_array_pointing. by rewrite Hempty.
  - intros Hne. destruct (fill_array_pointing_Ok f d Hne) as [d' Hd'].
    exists d'. destruct (fill_array_pointing_frame _ _ _ Hd') as (? & ? & ?).
    split_and!; [done..| |done|done].
    unfold _fill_array_pointing in Hd'. inv_Ok. done.
Qed.

Lemma X22_witness :
  subarray_pointing Sample.base ≠ [] ∧
  ∃ d', _fill_array_pointing Sample.base (new_data "") = Ok d' ∧
        header d' = header (new_data "") ∧ origin_mc d' = origin_mc (new_data "") ∧
        pointing_tel d' = pointing_tel (new_data "") ∧
        dl1_tel d' = dl1_tel (new_data "").
Proof.
  assert (subarray_pointing Sample.base ≠ []) as Hne by done.
  split; [exact Hne|].
  apply (X22_fill_array_pointing_total_on_nonempty Sample.base (new_data "")), Hne.
Defined.

(** X23: [_fill_telescope_pointing] succeeds exactly when every telescope of
    the trigger map that passes the allow-list has its trigger time set and
    a monitoring table that is not empty.  When it fails, it fails on such a
    telescope, in the order of the source: with the IndexError of the group
    subscript when the telescope has no table; with a TypeError when it has
    a table and no trigger time to subtract; with the ValueError of
    [np.argmin] when it has a trigger time and an empty table.  The row
    subscript that follows never fails. *)
Theorem X23_fill_telescope_pointing_outcomes f a d :
  ((∃ d', _fill_telescope_pointing f a d = Ok d') ↔
   ∀ tel, tel ∈ TelMap.keys (trigger_tel d) → excluded a tel = false →
          ∃ table t, telescope_pointing f !! tel_name tel = Some table ∧ table ≠ [] ∧
                     TelMap.get tel (trigger_tel d) ≫= time = Some t) ∧
  (∀ e, _fill_telescope_pointing f a d = Raise e →
        ∃ tel, tel ∈ TelMap.keys (trigger_tel d) ∧ excluded a tel = false ∧
          ((telescope_pointing f !! tel_name tel = None ∧
            e = IndexError (StrKey (tel_name tel))) ∨
           (is_Some (telescope_pointing f !! tel_name tel) ∧
            TelMap.get tel (trigger_tel d) ≫= time = None ∧ e = TypeError) ∨
           (telescope_pointing f !! tel_name tel = Some [] ∧
            is_Some (TelMap.get tel (trigger_tel d) ≫= time) ∧ e = ValueError))).
Proof.
  unfold _fill_telescope_pointing. split.
  - apply fill_telescope_pointing_loop_Ok_iff.
  - apply fill_telescope_pointing_loop_errors.
Qed.

Lemma X23_witness :
  ∃ e, _fill_telescope_pointing Sample.no_pointing_node ∅
         (triggered Sample.no_pointing_node ∅ 0 (Sample.trigger_row [true; true] 2)
            {| data := new_data ""; image_iterators := ∅; param_readers := ∅;
               mc_shower_reader := []; log := [] |}) = Raise e ∧
       ∃ tel, excluded ∅ tel = false ∧
         ((telescope_pointing Sample.no_pointing_node !! tel_name tel = None ∧
           e = IndexError (StrKey (tel_name tel))) ∨
          e = TypeError ∨ e = ValueError).
Proof.
  eexists. split.
  - vm_compute. reflexivity.
  - edestruct (proj2 (X23_fill_telescope_pointing_outcomes Sample.no_pointing_node ∅
                 (triggered Sample.no_pointing_node ∅ 0
                    (Sample.trigger_row [true; true] 2)
                    {| data := new_data ""; image_iterators := ∅; param_readers := ∅;
                       mc_shower_reader := []; log := [] |})))
      as (tel & _ & Hex & Hcases).
    + vm_compute. reflexivity.
    + exists tel. split; [exact Hex|].
      destruct Hcases as [Hnode|[(_ & _ & He)|(_ & _ & He)]];
        [left; exact Hnode | right; left; exact He | right; right; exact He].
Defined.

(** An unset trigger time stops the pointing step with a TypeError, table or
    no rows in the table. *)
Example unset_trigger_time_raises :
  _fill_telescope_pointing Sample2.no_array_pointing ∅
    (set_trigger_tel (TelMap.touch default_trigger 1) (new_data "")) = Raise TypeError.
Proof. by vm_compute. Qed.

(** ** Set-up *)

(** X24: the generator reaches its loop exactly when the root carries the
    process-type attribute, at least one of the two data-level groups
    exists, and, if the images group exists and the simulation group has a
    telescope sub-tree, that sub-tree has an images group too.  The
    simulated telescope sub-tree is not looked at when the file has
    parameters only. *)
Theorem X24_setup_succeeds_iff f a :
  (∃ run, _generate_events f a = Ok run) ↔
  is_Some (attrs f !! "CTA PROCESS TYPE"%string) ∧
  (is_Some (images f) ∨ is_Some (parameters f)) ∧
  (is_Some (images f) →
   ∀ sim, simulation f = Some sim → sim_telescope sim ≠ Some None).
Proof.
  unfold _generate_events, setup, getitem, datalevels, has_simulated_dl1,
    true_image_iterators.
  destruct (attrs f !! "CTA PROCESS TYPE"%string) as [origin|]; simpl.
  2: { split; [by intros [? ?] | by intros ([? ?] & _)]. }
  destruct (images f) as [itabs|], (parameters f) as [ptabs|]; simpl.
  4: { split; [by intros [? ?] | by intros (_ & [[? ?]|[? ?]] & _)]. }
  3: { split; [|by eexists]. intros _. split_and!; [by eexists | right; by eexists|].
       by intros [? ?]. }
  all: destruct (simulation f) as [sim|]; simpl;
    [destruct (sim_telescope sim) as [[names|]|] eqn:Htel; simpl|].
  all: split;
    [ intros [run Hrun]; try discriminate Hrun;
      (split_and!; [by eexists | left; by eexists |]);
      intros _ sim0 Hsim0; try discriminate Hsim0;
      injection Hsim0 as <-; by rewrite Htel
    | intros (_ & _ & H); try (by eexists);
      exfalso; by eapply H ].
Qed.

(** ** The exceptions of the loop *)

Lemma fill_simulation_errors f mc_headers st e :
  fill_simulation f mc_headers st = Raise e → loop_error e.
Proof.
  unfold fill_simulation. destruct (is_simulation f); [|done]. intros H.
  apply bind_Raise in H as [H|([shower_row reader'] & _ & H)].
  - by apply next_errors in H as ->.
  - destruct (mc_headers !! _); [done|]. by injection H as <-.
Qed.

Lemma read_image_errors tel st e :
  read_image tel st = Raise e → tel_name tel ∈ dom (image_iterators st) →
  e = RuntimeError.
Proof.
  unfold read_image, getitem. intros H [cursor Hc]%elem_of_dom. rewrite Hc in H.
  simpl in H. apply bind_Raise in H as [H|([? ?] & _ & H)]; [|done].
  by apply next_errors in H.
Qed.

Lemma read_parameters_errors tel st e :
  read_parameters tel st = Raise e → tel_name tel ∈ dom (param_readers st) →
  e = RuntimeError.
Proof.
  unfold read_parameters, getitem. intros H [cursor Hc]%elem_of_dom. rewrite Hc in H.
  simpl in H. apply bind_Raise in H as [H|([? ?] & _ & H)]; [|done].
  by apply next_errors in H.
Qed.

Lemma fill_dl1_tel_errors f tel st e :
  is_Some (datalevels f) → fill_dl1_tel f tel st = Raise e → e = RuntimeError.
Proof.
  intros [levels Hlevels]. unfold fill_dl1_tel.
  set (st0 := with_data _ st). clearbody st0. rewrite Hlevels. simpl.
  destruct (bool_decide (DL1_IMAGES ∈ levels)); simpl.
  - destruct (decide (tel_name tel ∈ dom (image_iterators st0))) as [Hin|Hn].
    2: { by rewrite bool_decide_eq_true_2. }
    rewrite bool_decide_eq_false_2 by (by intros Hn).
    intros H. apply bind_Raise in H as [H|(st1 & H1 & H)];
      [by eapply read_image_errors|].
    destruct (bool_decide (DL1_PARAMETERS ∈ levels)); simpl in H; [|done].
    destruct (decide (tel_name tel ∈ dom (param_readers st1))) as [Hin1|Hn1].
    2: { by rewrite bool_decide_eq_true_2 in H. }
    rewrite bool_decide_eq_false_2 in H by (by intros Hn).
    by eapply read_parameters_errors.
  - destruct (bool_decide (DL1_PARAMETERS ∈ levels)); simpl; [|done].
    destruct (decide (tel_name tel ∈ dom (param_readers st0))) as [Hin1|Hn1].
    2: { by rewrite bool_decide_eq_true_2. }
    rewrite bool_decide_eq_false_2 by (by intros Hn).
    intros H. by eapply read_parameters_errors.
Qed.

Lemma fill_dl1_loop_errors f a tels : ∀ st e,
  is_Some (datalevels f) → fill_dl1_loop f a tels st = Raise e → e = RuntimeError.
Proof.
  induction tels as [|t tels IH]; intros st e Hlevels H; simpl in H; [done|].
  destruct (excluded a t); [by eapply IH|].
  apply bind_Raise in H as [H|(st1 & _ & H)];
    [by eapply fill_dl1_tel_errors | by eapply IH].
Qed.

Lemma event_body_errors f a mc_headers c row st e :
  is_Some (datalevels f) →
  event_body f a mc_headers c row st = Raise e → loop_error e.
Proof.
  intros Hlevels. unfold event_body. cbv zeta. fold (triggered f a c row st). intros H.
  apply bind_Raise in H as [H|(d1 & H1 & H)].
  { by apply fill_array_pointing_errors in H as ->. }
  apply bind_Raise in H as [H|(d2 & _ & H)].
  { destruct (fill_array_pointing_frame _ _ _ H1) as (Hh1 & _).
    apply header_inv in Hh1 as (_&_&_&Htel&_&_).
    destruct (event_pointing_errors _ _ _ _ _ _ _ Htel H) as [->|(tel & _ & _ & ->)];
      done. }
  apply bind_Raise in H as [H|(st3 & _ & H)].
  { by eapply fill_simulation_errors. }
  by apply fill_dl1_loop_errors in H as ->.
Qed.

(** X25: once the generator has reached its loop, the only exceptions that
    can end the run are a RuntimeError (a reader exhausted, the trigger
    reader of a table with an odd number of rows included), the ValueError
    of an empty pointing table, the IndexError of the group subscript for a
    missing pointing table and the KeyError of an observation id without run
    header.  The loop never raises a TypeError (every telescope of the
    trigger map has its trigger time, and the data levels are known by
    then), a NoSuchNodeError, the IndexError of a row subscript or a
    KeyError on a table name: the subscripts of the cursor dicts are all
    guarded. *)
Theorem X25_loop_exceptions f a run e :
  _generate_events f a = Ok run → stop run = Raised e → loop_error e.
Proof.
  intros Hrun. apply generate_events_loop in Hrun as (st0 & Hsetup & ->).
  destruct (setup_Ok _ _ Hsetup) as (_ & Hlevels & _).
  generalize 0%nat st0. clear Hsetup.
  induction (subarray_trigger f) as [|x|x row events IH] using pair_ind;
    intros c st; simpl.
  - done.
  - by intros [= <-].
  - destruct (event_body f a (_parse_mc_headers f) c row st) as [st'|e'] eqn:Hbody;
      simpl.
    + apply IH.
    + intros [= <-]. by eapply event_body_errors.
Qed.

Lemma X25_witness :
  ∃ run e, _generate_events Sample.unbound ∅ = Ok run ∧ stop run = Raised e ∧
           loop_error e.
Proof.
  do 2 eexists. split_and!.
  - vm_compute. reflexivity.
  - reflexivity.
  - eapply (X25_loop_exceptions Sample.unbound ∅);
      [vm_compute; reflexivity | reflexivity].
Defined.

(** ** The allow-list *)

(** X26: a telescope outside a non-empty allow-list leaves no trace in a
    run: it has no entry in any per-telescope map of any yielded event, and
    its image and parameter cursors end the run where set-up opened them,
    at the first row of its tables, however the run stops. *)
Theorem X26_excluded_telescope_untouched f a run tel :
  _generate_events f a = Ok run → excluded a tel = true →
  (∀ ev, ev ∈ yielded run →
     (tel ∉ TelMap.keys (trigger_tel ev)) ∧ (tel ∉ TelMap.keys (pointing_tel ev)) ∧
     tel ∉ TelMap.keys (dl1_tel ev)) ∧
  (∀ tables, images f = Some tables →
     image_iterators (final run) !! tel_name tel = tables !! tel_name tel) ∧
  (∀ tables, parameters f = Some tables →
     param_readers (final run) !! tel_name tel = tables !! tel_name tel).
Proof.
  intros Hrun Hex.
  assert (∀ c row st st', event_body f a (_parse_mc_headers f) c row st = Ok st' →
            (tel ∉ TelMap.keys (trigger_tel (data st'))) ∧
            (tel ∉ TelMap.keys (pointing_tel (data st'))) ∧
            tel ∉ TelMap.keys (dl1_tel (data st'))) as Hbody_keys.
  { intros c row st st' Hbody.
    destruct (event_body_Ok _ _ _ _ _ _ _ Hbody) as (Hh&_&_&_&_&_&_&Hp&Hd&_).
    apply header_inv in Hh as (_&_&_&Htel&_&_).
    destruct (triggered_keys f a c row st) as [_ Hkeys].
    assert (tel ∉ TelMap.keys (trigger_tel (triggered f a c row st))) as Hnot.
    { intros Hin. destruct (Hkeys _ Hin) as [Hex' _]. congruence. }
    rewrite Htel. split_and!; [done|..]; intros Hin; [by apply Hp in Hin | by apply Hd in Hin]. }
  split.
  - intros ev Hev.
    destruct (generate_events_yielded _ _ _ _ Hrun Hev)
      as (st0 & c & row & st & st' & _ & _ & _ & _ & Hbody & ->).
    by eapply Hbody_keys.
  - apply generate_events_loop in Hrun as (st0 & Hsetup & ->).
    destruct (setup_Ok _ _ Hsetup) as (_ & _ & Himages & Hparams & _).
    destruct (events_loop_final f a (_parse_mc_headers f)
                (λ st, image_iterators st !! tel_name tel =
                         image_iterators st0 !! tel_name tel ∧
                       param_readers st !! tel_name tel =
                         param_readers st0 !! tel_name tel))
      with (events := subarray_trigger f) (c := 0%nat) (st := st0) as [Hi Hr];
      [|done|done|].
    + intros c row st [Hi Hr].
      pose proof (event_body_leaves_spec f a (_parse_mc_headers f) c row st) as Hspec.
      cbv zeta in Hspec. destruct Hspec as (_ & _ & _ & Hother & _).
      destruct (Hother _ Hex) as [-> ->]. done.
    + split.
      * intros tables Htables. destruct (Himages _ Htables) as [<- _]. done.
      * intros tables Htables. destruct (Hparams _ Htables) as [<- _]. done.
Qed.

Lemma X26_witness :
  ∃ run, _generate_events Sample.base {[1%nat]} = Ok run ∧
    excluded {[1%nat]} 2 = true ∧
    (∀ ev, ev ∈ yielded run →
       (2%nat ∉ TelMap.keys (trigger_tel ev)) ∧ (2%nat ∉ TelMap.keys (pointing_tel ev)) ∧
       2%nat ∉ TelMap.keys (dl1_tel ev)) ∧
    (∀ tables, parameters Sample.base = Some tables →
       param_readers (final run) !! tel_name 2 = tables !! tel_name 2).
Proof.
  eexists. split_and!.
  - vm_compute. reflexivity.
  - reflexivity.
  - eapply (X26_excluded_telescope_untouched Sample.base {[1%nat]});
      [vm_compute; reflexivity | reflexivity].
  - eapply (X26_excluded_telescope_untouched Sample.base {[1%nat]});
      [vm_compute; reflexivity | reflexivity].
Defined.

(** ** The log *)

(** X27: every diagnostic in the log of a run is justified, however the run
    stops and the diagnostics of the pass that raised included: a telescope
    is reported missing from the image table only when the images group
    exists and has no table of that telescope, and likewise for the
    parameters table.  A telescope whose tables exist is never reported. *)
Theorem X27_diagnostics_are_justified f a run :
  _generate_events f a = Ok run → Forall (justified f) (log (final run)).
Proof.
  intros Hrun. apply generate_events_loop in Hrun as (st0 & Hsetup & ->).
  destruct (setup_Ok _ _ Hsetup) as (_ & _ & Himages & Hparams & _).
  destruct (setup_state _ _ Hsetup) as (_ & _ & _ & _ & Hlog).
  apply (events_loop_final f a (_parse_mc_headers f)
           (λ st, (∀ tables, images f = Some tables →
                             dom (image_iterators st) = dom tables) ∧
                  (∀ tables, parameters f = Some tables →
                             dom (param_readers st) = dom tables) ∧
                  Forall (justified f) (log st))).
  - intros c row st (Hi & Hr & Hl).
    pose proof (event_body_leaves_spec f a (_parse_mc_headers f) c row st) as Hspec.
    cbv zeta in Hspec. destruct Hspec as (_ & Hi' & Hr' & _ & _ & Hjust).
    split_and!.
    + intros tables Ht. rewrite Hi'. by apply Hi.
    + intros tables Ht. rewrite Hr'. by apply Hr.
    + by apply Hjust.
  - done.
  - split_and!.
    + intros tables Ht. by destruct (Himages _ Ht) as [-> _].
    + intros tables Ht. by destruct (Hparams _ Ht) as [-> _].
    + rewrite Hlog. constructor.
Qed.

Lemma X27_witness :
  ∃ run, _generate_events Sample.base ∅ = Ok run ∧
         log (final run) = [MissingFromImageTable 2; MissingFromImageTable 2] ∧
         Forall (justified Sample.base) (log (final run)).
Proof.
  eexists. split_and!.
  - vm_compute. reflexivity.
  - reflexivity.
  - eapply (X27_diagnostics_are_justified Sample.base ∅). vm_compute. reflexivity.
Defined.

(** ** The registry, continued *)

(** X28: the registry holds one entry for each distinct observation id of
    the run table, however often the id is repeated; without a
    [simulation] group under [configuration] it is empty. *)
Theorem X28_registry_one_entry_per_obs_id f :
  (configuration_simulation_run f = None → _parse_mc_headers f = ∅) ∧
  (∀ rows, configuration_simulation_run f = Some rows →
     size (_parse_mc_headers f) = length (np_unique (run_obs_id <$> rows))).
Proof.
  split.
  - intros Hnone. unfold _parse_mc_headers. by rewrite Hnone.
  - intros rows Hrows.
    assert (∀ l, StronglySorted Z.lt (np_unique l)) as Hsorted.
    { induction l; simpl; [constructor | by apply insert_unique_sorted]. }
    assert (∀ l y, y ∈ np_unique l ↔ y ∈ l) as Helem.
    { induction l as [|x l IH]; intros y; simpl; [done|].
      rewrite elem_of_insert_unique, elem_of_cons, IH. done. }
    assert (NoDup (np_unique (run_obs_id <$> rows))) as Hnd.
    { specialize (Hsorted (run_obs_id <$> rows)).
      induction Hsorted as [|z l _ IH Hall]; constructor; [|done].
      intros Hin. eapply Forall_forall in Hall; [|done]. lia. }
    rewrite <-size_dom, <-(size_list_to_set (C := gset Z)) by done.
    f_equal. apply set_eq. intros obs_id.
    rewrite elem_of_dom, elem_of_list_to_set, Helem.
    by apply parse_mc_headers_keys.
Qed.

Lemma X28_witness :
  configuration_simulation_run Sample.base = Some Sample.one_run ∧
  size (_parse_mc_headers Sample.base) =
    length (np_unique (run_obs_id <$> Sample.one_run)).
Proof.
  split; [reflexivity|].
  apply (proj2 (X28_registry_one_entry_per_obs_id Sample.base)). reflexivity.
Defined.
